(** * chemfiles: the GRO format adapter and the selection parser

    A shallow embedding of [src/formats/GRO.cpp] (the GROMACS GRO text
    format: reading, writing and indexing of steps) and of the boolean
    part of the selection parser ([selections/expr.cpp]), with the
    properties their specification states about them.

    Conventions of the embedding:
    - a C++ [double] is a primitive binary64 [float];
    - [size_t] and [uint64_t] are [N], the wrap-around at [2^64] written
      out where the code can reach it;
    - a [std::streampos] is a [Z] ([-1] is the invalid position);
    - a member function that mutates [*this], a reference argument or the
      warning sink is a computation in the state monad [M], whose result
      is an [outcome]: a value, a thrown chemfiles exception, or an abort
      (a failed [assert]);
    - what the code takes from headers and libraries that are not part of
      the verified sources (string utilities, the [fmt] formatter, the
      [UnitCell] class) is an interface, the class [Env]. *)

From Stdlib Require Import List String Ascii ZArith NArith Bool Lia PrimFloat.
From Stdlib Require Import DecimalString Sorted Uint63 SpecFloat FloatOps.
Import ListNotations.
Local Open Scope string_scope.
Local Open Scope list_scope.
Local Open Scope nat_scope.

Infix "+++" := String.append (at level 60, right associativity).

(** ** Exceptions and outcomes *)

(** The exception classes that the code throws or catches:
    [GenericError] is [chemfiles::Error], the base class of [FileError],
    [FormatError] and [ParserError]; [RuntimeError] is
    [std::runtime_error], which is none of them. *)
Inductive ErrorKind : Type :=
| GenericError
| FileError
| FormatError
| ParserError
| RuntimeError.

Record Error : Type := mkError { kind : ErrorKind; what : string }.

(** [catch (const K&)] catches an exception of class [k] when [K] is [k]
    or its base class. *)
Definition catches (K k : ErrorKind) : bool :=
  match K, k with
  | GenericError, RuntimeError => false
  | GenericError, _ => true
  | FileError, FileError => true
  | FormatError, FormatError => true
  | ParserError, ParserError => true
  | RuntimeError, RuntimeError => true
  | _, _ => false
  end.

Definition file_error (msg : string) : Error := mkError FileError msg.
Definition format_error (msg : string) : Error := mkError FormatError msg.
Definition error (msg : string) : Error := mkError GenericError msg.
Definition parser_error (msg : string) : Error := mkError ParserError msg.

Inductive outcome (A : Type) : Type :=
| Returned (a : A)
| Thrown (e : Error)
| Aborted (why : string).
Arguments Returned {A} a.
Arguments Thrown {A} e.
Arguments Aborted {A} why.

(** ** The state monad of the embedding

    The state survives a throw: what a function did to its reference
    arguments before the exception left it stays done. *)
Definition M (S A : Type) : Type := S -> outcome A * S.

Definition ret {S A} (a : A) : M S A := fun s => (Returned a, s).

Definition bind {S A B} (m : M S A) (k : A -> M S B) : M S B :=
  fun s =>
    match m s with
    | (Returned a, s') => k a s'
    | (Thrown e, s') => (Thrown e, s')
    | (Aborted w, s') => (Aborted w, s')
    end.

Definition throw {S A} (e : Error) : M S A := fun s => (Thrown e, s).
Definition abort {S A} (w : string) : M S A := fun s => (Aborted w, s).

(** [try { m } catch (...) { h e }]: the handler decides which classes it
    takes and rethrows the others. *)
Definition try_catch {S A} (m : M S A) (h : Error -> M S A) : M S A :=
  fun s =>
    match m s with
    | (Thrown e, s') => h e s'
    | r => r
    end.

Definition gets {S A} (f : S -> A) : M S A := fun s => (Returned (f s), s).
Definition modify {S} (f : S -> S) : M S unit := fun s => (Returned tt, f s).

(** Run a computation on a component of the state. *)
Definition zoom {S T A} (get : T -> S) (put : S -> T -> T) (m : M S A) : M T A :=
  fun t => let (r, s') := m (get t) in (r, put s' t).

Declare Scope monad_scope.
Delimit Scope monad_scope with monad.
Notation "x <- m ;; k" := (bind m (fun x => k))
  (at level 61, m at next level, right associativity) : monad_scope.
Notation "m ;;; k" := (bind m (fun _ => k))
  (at level 61, right associativity) : monad_scope.
Local Open Scope monad_scope.

(** A range-based [for] over a vector, left by the first exception. *)
Fixpoint for_each {S A} (body : A -> M S unit) (l : list A) : M S unit :=
  match l with
  | [] => ret tt
  | a :: l' => body a ;;; for_each body l'
  end.

(** ** Text files

    Modelled from the spec: [chemfiles/File.hpp] ([TextFile]) is not part
    of the verified sources. The spec gives it [readline], [readlines(n)]
    (the exact count or a [FileError]), [tellg], [seekg], [rewind] and
    [eof]. A file is the list of its lines; a position is the index of
    the next line; [failed] is the state of the underlying stream: set by
    a read that found no line, it makes every later read fail and [tellg]
    answer [-1] until [rewind] clears it. *)
Record TextFile : Type := mkTextFile {
  path : string;
  content : list string;
  cursor : nat;
  failed : bool
}.

Definition TextFile_open (p : string) (lines : list string) : TextFile :=
  mkTextFile p lines 0 false.

Definition set_cursor (c : nat) (f : TextFile) : TextFile :=
  mkTextFile (path f) (content f) c (failed f).
Definition set_failed (f : TextFile) : TextFile :=
  mkTextFile (path f) (content f) (cursor f) true.

Definition remaining (f : TextFile) : nat := List.length (content f) - cursor f.

Definition readlines (n : nat) : M TextFile (list string) :=
  fun f =>
    if failed f then (Thrown (file_error "error while reading the file"), f)
    else if n <=? remaining f
    then (Returned (firstn n (skipn (cursor f) (content f))),
          set_cursor (cursor f + n) f)
    else (Thrown (file_error "error while reading the file"),
          set_failed (set_cursor (List.length (content f)) f)).

Definition readline : M TextFile string :=
  fun f =>
    if failed f then (Thrown (file_error "error while reading the file"), f)
    else match nth_error (content f) (cursor f) with
         | Some l => (Returned l, set_cursor (S (cursor f)) f)
         | None => (Thrown (file_error "error while reading the file"),
                    set_failed f)
         end.

Definition tellg (f : TextFile) : Z :=
  if failed f then (-1)%Z else Z.of_nat (cursor f).

Definition seekg (p : Z) (f : TextFile) : TextFile :=
  if failed f then f
  else if (p <? 0)%Z then set_failed f
  else set_cursor (Z.to_nat p) f.

Definition rewind (f : TextFile) : TextFile :=
  mkTextFile (path f) (content f) 0 false.

Definition eof (f : TextFile) : bool := failed f.

(** [fmt::print(file, "...\n")]: the text joins the file, one line for
    each line break it holds. *)
Fixpoint lines_of (acc : string) (s : string) : list string :=
  match s with
  | EmptyString => [acc]
  | String c s' =>
      if Ascii.eqb c "010"%char then acc :: lines_of "" s'
      else lines_of (acc +++ String c "") s'
  end.

Definition print_line (text : string) (f : TextFile) : TextFile :=
  let c := content f ++ lines_of "" text in
  mkTextFile (path f) c (List.length c) (failed f).

(** ** The data model *)

(** [Vector3D]: [v[0]], [v[1]], [v[2]]. *)
Record Vector3D : Type := mkVector3D { c0 : float; c1 : float; c2 : float }.

(** [Vector3D()] *)
Definition Vector3D_zero : Vector3D := mkVector3D 0 0 0.

(** [operator/(const Vector3D&, double)] *)
Definition Vector3D_div (v : Vector3D) (d : float) : Vector3D :=
  mkVector3D (c0 v / d) (c1 v / d) (c2 v / d).

(** Rows first, as the arguments of the [Matrix3D] constructor. *)
Record Matrix3D : Type := mkMatrix3D {
  m00 : float; m01 : float; m02 : float;
  m10 : float; m11 : float; m12 : float;
  m20 : float; m21 : float; m22 : float
}.

Definition Matrix3D_div (m : Matrix3D) (d : float) : Matrix3D :=
  mkMatrix3D (m00 m / d) (m01 m / d) (m02 m / d)
             (m10 m / d) (m11 m / d) (m12 m / d)
             (m20 m / d) (m21 m / d) (m22 m / d).

(** Modelled from the spec: [chemfiles/UnitCell.hpp] is not part of the
    verified sources. The spec gives a cell a shape among INFINITE,
    ORTHORHOMBIC and TRICLINIC, with lengths or an explicit upper
    triangular matrix; a cell is represented here by the constructor
    that built it: [UnitCell()], [UnitCell(a, b, c)], [UnitCell(H)]. *)
Inductive UnitCell : Type :=
| UnitCell_infinite
| UnitCell_orthorhombic (a b c : float)
| UnitCell_triclinic (H : Matrix3D).

Inductive CellShape : Type := ORTHORHOMBIC | TRICLINIC | INFINITE.

Definition shape (c : UnitCell) : CellShape :=
  match c with
  | UnitCell_infinite => INFINITE
  | UnitCell_orthorhombic _ _ _ => ORTHORHOMBIC
  | UnitCell_triclinic _ => TRICLINIC
  end.

(** The lengths of a cell that is not triclinic (zeros when infinite),
    as [GROFormat::write] reads them. *)
Definition cell_lengths (c : UnitCell) : Vector3D :=
  match c with
  | UnitCell_orthorhombic a b c => mkVector3D a b c
  | _ => Vector3D_zero
  end.

Definition cell_matrix (c : UnitCell) : Matrix3D :=
  match c with
  | UnitCell_triclinic H => H
  | UnitCell_orthorhombic a b c => mkMatrix3D a 0 0 0 b 0 0 0 c
  | UnitCell_infinite => mkMatrix3D 0 0 0 0 0 0 0 0 0
  end.

(** Modelled from the spec: [Atom.hpp], [Residue.hpp], [Topology.hpp],
    [Property.hpp] and [Frame.cpp] are not part of the verified sources;
    the definitions below follow the spec's data model and the
    documentation of the member functions in [Frame.hpp]. The mass and
    charge of an atom play no part in the GRO format and are left out. *)
Record Atom : Type := mkAtom { name : string; type : string }.

(** [Atom(name)]: the type defaults to the name. *)
Definition Atom_named (n : string) : Atom := mkAtom n n.

Record Residue : Type := mkResidue {
  res_name : string;
  res_id : option N;
  res_atoms : list nat
}.

(** [Residue(name, id)] *)
Definition Residue_new (n : string) (id : N) : Residue :=
  mkResidue n (Some id) [].

Fixpoint sorted_insert (i : nat) (l : list nat) : list nat :=
  match l with
  | [] => [i]
  | j :: l' =>
      if i <? j then i :: l
      else if i =? j then l
      else j :: sorted_insert i l'
  end.

(** [Residue::add_atom(i)]: the atoms of a residue are a sorted set. *)
Definition Residue_add_atom (i : nat) (r : Residue) : Residue :=
  mkResidue (res_name r) (res_id r) (sorted_insert i (res_atoms r)).

Definition Residue_contains (i : nat) (r : Residue) : bool :=
  existsb (Nat.eqb i) (res_atoms r).

Record Topology : Type := mkTopology {
  atoms : list Atom;
  residues : list Residue;
  bonds : list (nat * nat)
}.

Definition Topology_empty : Topology := mkTopology [] [] [].

Definition residue_for_atom (t : Topology) (i : nat) : option Residue :=
  find (Residue_contains i) (residues t).

Inductive Property : Type :=
| Property_bool (b : bool)
| Property_double (d : float)
| Property_string (s : string)
| Property_vector3d (v : Vector3D).

Definition property_map : Type := list (string * Property).

Fixpoint property_set (k : string) (v : Property) (m : property_map) : property_map :=
  match m with
  | [] => [(k, v)]
  | (k', v') :: m' =>
      if String.eqb k k' then (k, v) :: m' else (k', v') :: property_set k v m'
  end.

Fixpoint property_get (k : string) (m : property_map) : option Property :=
  match m with
  | [] => None
  | (k', v') :: m' => if String.eqb k k' then Some v' else property_get k m'
  end.

Record Frame : Type := mkFrame {
  step_ : N;
  positions_ : list Vector3D;
  velocities_ : option (list Vector3D);
  topology_ : Topology;
  cell_ : UnitCell;
  properties_ : property_map
}.

(** [Frame()]: no atoms, an infinite cell, no velocities. *)
Definition Frame_new : Frame :=
  mkFrame 0%N [] None Topology_empty UnitCell_infinite [].

Definition Frame_size (f : Frame) : nat := List.length (positions_ f).

(** [std::vector::resize(n)]: truncated, or padded with [d]. *)
Definition vector_resize {A} (n : nat) (d : A) (l : list A) : list A :=
  firstn n l ++ repeat d (n - List.length l).

(** [Frame::set(name, value)] *)
Definition Frame_set (k : string) (v : Property) (f : Frame) : Frame :=
  mkFrame (step_ f) (positions_ f) (velocities_ f) (topology_ f) (cell_ f)
          (property_set k v (properties_ f)).

(** [Frame::get<Property::STRING>(name)] *)
Definition Frame_get_string (k : string) (f : Frame) : option string :=
  match property_get k (properties_ f) with
  | Some (Property_string s) => Some s
  | _ => None
  end.

(** [Frame::add_velocities()]: nothing when the frame has velocities,
    otherwise zeros for every atom. *)
Definition Frame_add_velocities (f : Frame) : Frame :=
  match velocities_ f with
  | Some _ => f
  | None =>
      mkFrame (step_ f) (positions_ f)
              (Some (repeat Vector3D_zero (Frame_size f)))
              (topology_ f) (cell_ f) (properties_ f)
  end.

(** [Topology::resize(n)]: atoms truncated or padded with default atoms;
    the bonds and residues that name a dropped atom go with it. *)
Definition Topology_resize (n : nat) (t : Topology) : Topology :=
  mkTopology
    (vector_resize n (Atom_named "") (atoms t))
    (filter (fun r => forallb (fun i => i <? n) (res_atoms r)) (residues t))
    (filter (fun b => (fst b <? n) && (snd b <? n)) (bonds t)).

(** [Frame::resize(n)] *)
Definition Frame_resize (n : nat) (f : Frame) : Frame :=
  mkFrame (step_ f)
          (vector_resize n Vector3D_zero (positions_ f))
          (option_map (vector_resize n Vector3D_zero) (velocities_ f))
          (Topology_resize n (topology_ f))
          (cell_ f) (properties_ f).

(** [Frame::reserve(n)] allocates and changes nothing that is observed. *)
Definition Frame_reserve (n : N) (f : Frame) : Frame := f.

(** [Frame::add_atom(atom, position, velocity)]: the velocity is used
    only when the frame has velocities. *)
Definition Frame_add_atom (a : Atom) (p v : Vector3D) (f : Frame) : Frame :=
  mkFrame (step_ f)
          (positions_ f ++ [p])
          (option_map (fun vs => vs ++ [v]) (velocities_ f))
          (mkTopology (atoms (topology_ f) ++ [a])
                      (residues (topology_ f)) (bonds (topology_ f)))
          (cell_ f) (properties_ f).

(** [Frame::set_cell(cell)] *)
Definition Frame_set_cell (c : UnitCell) (f : Frame) : Frame :=
  mkFrame (step_ f) (positions_ f) (velocities_ f) (topology_ f) c
          (properties_ f).

(** [Frame::add_residue(residue)] *)
Definition Frame_add_residue (r : Residue) (f : Frame) : Frame :=
  mkFrame (step_ f) (positions_ f) (velocities_ f)
          (mkTopology (atoms (topology_ f))
                      (residues (topology_ f) ++ [r]) (bonds (topology_ f)))
          (cell_ f) (properties_ f).

(** ** What the code takes from outside the verified sources

    [parse<T>], [split] and [trim] come from [chemfiles/utils.hpp],
    [{:W.Pf}] from the [fmt] library, and [NDEBUG] from the build: when
    it is set, an [assert] is not evaluated. *)
Inductive parsed (A : Type) : Type :=
| Parsed (a : A)
| Malformed (why : string).
Arguments Parsed {A} a.
Arguments Malformed {A} why.

Class Env : Type := {
  parse_size_t : string -> parsed N;
  parse_double : string -> parsed float;
  split : string -> ascii -> list string;
  trim : string -> string;
  fmt_fixed : nat -> nat -> float -> string;
  NDEBUG : bool
}.

(** [SIZE_MAX], and [size_t] arithmetic. *)
Definition SIZE_MAX : N := (2 ^ 64 - 1)%N.
Definition wrap64 (n : N) : N := (n mod 2 ^ 64)%N.

(** [std::to_string] of an unsigned integer. *)
Definition to_string (n : N) : string := NilZero.string_of_uint (N.to_uint n).

(** [{: >W}] and [{: <W}]: at least [w] characters, filled with spaces;
    a longer text is not cut. *)
Definition spaces (n : nat) : string := string_of_list_ascii (repeat " "%char n).
Definition pad_left (w : nat) (s : string) : string :=
  spaces (w - String.length s) +++ s.
Definition pad_right (w : nat) (s : string) : string :=
  s +++ spaces (w - String.length s).

(** ** The GRO format: [src/formats/GRO.cpp] *)

(** [std::map<size_t, Residue>]: an association list in ascending order
    of the keys. *)
Definition residue_map : Type := list (N * Residue).

Fixpoint map_find (k : N) (m : residue_map) : option Residue :=
  match m with
  | [] => None
  | (k', r) :: m' => if (k =? k')%N then Some r else map_find k m'
  end.

(** [std::map::insert]: an existing key keeps its value. *)
Fixpoint map_insert (k : N) (r : Residue) (m : residue_map) : residue_map :=
  match m with
  | [] => [(k, r)]
  | (k', r') :: m' =>
      if (k <? k')%N then (k, r) :: m
      else if (k =? k')%N then m
      else (k', r') :: map_insert k r m'
  end.

(** [map.at(k) = f(map.at(k))] *)
Fixpoint map_update (k : N) (f : Residue -> Residue) (m : residue_map) : residue_map :=
  match m with
  | [] => []
  | (k', r) :: m' =>
      if (k =? k')%N then (k', f r) :: m' else (k', r) :: map_update k f m'
  end.

Record GROFormat : Type := mkGROFormat {
  file_ : TextFile;
  steps_positions_ : list Z;
  residues_ : residue_map
}.

Definition set_file (f : TextFile) (g : GROFormat) : GROFormat :=
  mkGROFormat f (steps_positions_ g) (residues_ g).
Definition set_residues (m : residue_map) (g : GROFormat) : GROFormat :=
  mkGROFormat (file_ g) (steps_positions_ g) m.
Definition push_position (p : Z) (g : GROFormat) : GROFormat :=
  mkGROFormat (file_ g) (steps_positions_ g ++ [p]) (residues_ g).

(** The state of [GROFormat::read(Frame& frame)]: [*this] and [frame]. *)
Definition ReadState : Type := (GROFormat * Frame)%type.

Definition on_file {A} (m : M TextFile A) : M ReadState A :=
  zoom (fun s => file_ (fst s)) (fun f s => (set_file f (fst s), snd s)) m.
Definition on_frame (u : Frame -> Frame) : M ReadState unit :=
  modify (fun s => (fst s, u (snd s))).
Definition on_residues (u : residue_map -> residue_map) : M ReadState unit :=
  modify (fun s => (set_residues (u (residues_ (fst s))) (fst s), snd s)).

Section GRO.
Context {E : Env}.

(** [parse<T>(s)]: the value, or a chemfiles [Error]. *)
Definition parse_as {S A} (p : string -> parsed A) (s : string) : M S A :=
  match p s with
  | Parsed a => ret a
  | Malformed why => throw (error why)
  end.

(** [forward(file)]: skip one step; [false] when the file holds no
    further step. *)
Definition forward : M TextFile bool :=
  fun file =>
    if failed file then (Returned false, file)
    else
      (header <- try_catch
                   (readline ;;;
                    line <- readline ;;
                    natoms <- parse_as parse_size_t line ;;
                    ret (Some natoms))
                   (fun e =>
                      if catches FileError (kind e) then ret None
                      else if catches GenericError (kind e) then ret None
                      else throw e) ;;
       match header with
       | None => ret false
       | Some natoms =>
           try_catch
             (readlines (N.to_nat (wrap64 (natoms + 1))) ;;; ret tt)
             (fun e =>
                if catches FileError (kind e)
                then throw (format_error
                              ("not enough lines in '" +++ path file
                               +++ "' for GRO format"))
                else throw e) ;;;
           ret true
       end) file.

(** The loop of the constructor, [while (!file_->eof()) { ... }]. The
    fuel bounds the number of iterations; [None] is an exhausted fuel
    ([index_steps_total] shows that the constructor never meets it). *)
Fixpoint index_steps (fuel : nat) (g : GROFormat)
  : option (outcome unit * GROFormat) :=
  if eof (file_ g) then Some (Returned tt, g)
  else
    match fuel with
    | O => None
    | S fuel' =>
        let position := tellg (file_ g) in
        if (position =? -1)%Z
        then Some (Thrown (format_error
                             ("IO error while reading '" +++ path (file_ g)
                              +++ "' as GRO")), g)
        else
          match forward (file_ g) with
          | (Returned true, f') =>
              index_steps fuel' (push_position position (set_file f' g))
          | (Returned false, f') => index_steps fuel' (set_file f' g)
          | (Thrown e, f') => Some (Thrown e, set_file f' g)
          | (Aborted w, f') => Some (Aborted w, set_file f' g)
          end
    end.

(** [GROFormat::GROFormat(path, mode, compression)] over a file with the
    given lines. *)
Definition GROFormat_new (p : string) (lines : list string)
  : option (outcome GROFormat) :=
  let g := mkGROFormat (TextFile_open p lines) [] [] in
  match index_steps (2 + List.length lines) g with
  | None => None
  | Some (Returned _, g') => Some (Returned (set_file (rewind (file_ g')) g'))
  | Some (Thrown e, _) => Some (Thrown e)
  | Some (Aborted w, _) => Some (Aborted w)
  end.

(** [GROFormat::nsteps()] *)
Definition nsteps (g : GROFormat) : nat := List.length (steps_positions_ g).

(** [assert(c)], for a condition that can throw: skipped under [NDEBUG]. *)
Definition assert_ {S} (c : M S bool) (w : string) : M S unit :=
  if NDEBUG then ret tt
  else (b <- c ;; if (b : bool) then ret tt else abort w).

(** The title and the number of atoms. *)
Definition read_header : M ReadState N :=
  try_catch
    (title <- on_file readline ;;
     on_frame (Frame_set "name" (Property_string title)) ;;;
     line <- on_file readline ;;
     parse_as parse_size_t line)
    (fun e =>
       if catches GenericError (kind e)
       then throw (format_error
                     ("can not read next step as GRO: " +++ what e))
       else throw e).

(** The body of the loop over the atom lines. *)
Definition read_atom (line : string) : M ReadState unit :=
  if String.length line <? 44
  then throw (format_error ("GRO Atom line is too small: '" +++ line +++ "'"))
  else
    let resid :=
      match parse_size_t (substring 0 5 line) with
      | Parsed n => n
      | Malformed _ => SIZE_MAX
      end in
    let resname := trim (substring 5 5 line) in
    let name := trim (substring 10 5 line) in
    x <- parse_as parse_double (substring 20 8 line) ;;
    y <- parse_as parse_double (substring 28 8 line) ;;
    z <- parse_as parse_double (substring 36 8 line) ;;
    (if 68 <=? String.length line
     then
       vx <- parse_as parse_double (substring 44 8 line) ;;
       vy <- parse_as parse_double (substring 52 8 line) ;;
       vz <- parse_as parse_double (substring 60 8 line) ;;
       on_frame (Frame_add_atom (Atom_named name)
                   (mkVector3D (x * 10) (y * 10) (z * 10))
                   (mkVector3D (vx * 10) (vy * 10) (vz * 10)))
     else
       on_frame (Frame_add_atom (Atom_named name)
                   (mkVector3D (x * 10) (y * 10) (z * 10))
                   Vector3D_zero)) ;;;
    if (resid =? SIZE_MAX)%N then ret tt
    else
      size <- gets (fun s => Frame_size (snd s)) ;;
      known <- gets (fun s => map_find resid (residues_ (fst s))) ;;
      match known with
      | None =>
          on_residues (map_insert resid
                         (Residue_add_atom (size - 1) (Residue_new resname resid)))
      | Some _ =>
          on_residues (map_update resid (Residue_add_atom (size - 1)))
      end.

(** The box line. *)
Definition read_box : M ReadState unit :=
  box <- on_file readline ;;
  match split box " "%char with
  | [b0; b1; b2] =>
      a <- parse_as parse_double b0 ;;
      b <- parse_as parse_double b1 ;;
      c <- parse_as parse_double b2 ;;
      on_frame (Frame_set_cell (UnitCell_orthorhombic (a * 10) (b * 10) (c * 10)))
  | [b0; b1; b2; b3; b4; b5; b6; b7; b8] =>
      v1_x <- parse_as parse_double b0 ;;
      v2_y <- parse_as parse_double b1 ;;
      v3_z <- parse_as parse_double b2 ;;
      assert_ (d <- parse_as parse_double b3 ;; ret (d =? 0)%float)
              "parse<double>(box_values[3]) == 0" ;;;
      assert_ (d <- parse_as parse_double b4 ;; ret (d =? 0)%float)
              "parse<double>(box_values[4]) == 0" ;;;
      v2_x <- parse_as parse_double b5 ;;
      assert_ (d <- parse_as parse_double b6 ;; ret (d =? 0)%float)
              "parse<double>(box_values[6]) == 0" ;;;
      v3_x <- parse_as parse_double b7 ;;
      v3_y <- parse_as parse_double b8 ;;
      on_frame (Frame_set_cell
                  (UnitCell_triclinic
                     (mkMatrix3D (v1_x * 10) (v2_x * 10) (v3_x * 10)
                                 0           (v2_y * 10) (v3_y * 10)
                                 0           0           (v3_z * 10))))
  | _ => ret tt
  end.

(** [GROFormat::read(frame)] *)
Definition read : M ReadState unit :=
  natoms <- read_header ;;
  on_residues (fun _ => []) ;;;
  on_frame Frame_add_velocities ;;;
  on_frame (Frame_reserve natoms) ;;;
  on_frame (Frame_resize 0) ;;;
  lines <- on_file (readlines (N.to_nat natoms)) ;;
  for_each read_atom lines ;;;
  read_box ;;;
  rs <- gets (fun s => residues_ (fst s)) ;;
  for_each (fun r => on_frame (Frame_add_residue (snd r))) rs.

(** [GROFormat::read_step(step, frame)]. The [assert] guards the access
    to the vector: outside its bounds the call has no defined behaviour,
    which is an abort here, whatever the build. *)
Definition read_step (step : nat) : M ReadState unit :=
  fun s =>
    match nth_error (steps_positions_ (fst s)) step with
    | None => (Aborted "step < steps_positions_.size()", s)
    | Some p => (on_file (modify (seekg p)) ;;; read) s
    end.

(** Reading the steps [0] to [i] one after the other from where the file
    stands, as a trajectory does: each of the first [i] steps into a
    frame of its own, step [i] into [fr]. The first failure ends it. *)
Fixpoint read_up_to (i : nat) (fr : Frame) (g : GROFormat)
  : outcome unit * ReadState :=
  match i with
  | O => read (g, fr)
  | S i' =>
      match read (g, Frame_new) with
      | (Returned _, (g', _)) => read_up_to i' fr g'
      | (Thrown e, (g', _)) => (Thrown e, (g', fr))
      | (Aborted w, (g', _)) => (Aborted w, (g', fr))
      end
  end.

(** *** Writing *)

(** The state of [GROFormat::write(const Frame& frame)]: [*this] and the
    messages sent to the warning sink. *)
Definition WriteState : Type := (GROFormat * list string)%type.

Definition warning (msg : string) : M WriteState unit :=
  modify (fun s => (fst s, snd s ++ [msg])).

(** [fmt::print] to the file of the format, with the formatted text. *)
Definition print (text : string) : M WriteState unit :=
  modify (fun s => (set_file (print_line text (file_ (fst s))) (fst s), snd s)).

(** [to_gro_index(i)] *)
Definition to_gro_index (i : N) : M WriteState string :=
  if (99999 <=? i)%N
  then warning "Too many atoms for GRO format, removing atomic id" ;;;
       ret "*****"
  else ret (to_string (i + 1)).

(** [std::pow(10.0, n)] for the small [n] of the code. *)
Fixpoint pow10 (n : nat) : float :=
  match n with
  | O => 1%float
  | S n' => (10 * pow10 n')%float
  end.

(** [check_values_size(values, width, context)] *)
Definition check_values_size {S} (values : Vector3D) (width : nat)
    (context : string) : M S unit :=
  let max_pos := (pow10 width - 1)%float in
  let max_neg := (- pow10 (width - 1) + 1)%float in
  if PrimFloat.ltb max_pos (c0 values) || PrimFloat.ltb max_pos (c1 values)
     || PrimFloat.ltb max_pos (c2 values)
     || PrimFloat.ltb (c0 values) max_neg || PrimFloat.ltb (c1 values) max_neg
     || PrimFloat.ltb (c2 values) max_neg
  then throw (format_error
                ("value in " +++ context
                 +++ " is too big for representation in GRO format"))
  else ret tt.

(** The first loop of [write]: a residue id above which the atoms
    without a residue are numbered. *)
Definition first_free_resid (rs : list Residue) : N :=
  fold_left
    (fun max_resid r =>
       match res_id r with
       | Some id => if (max_resid <? id)%N then wrap64 (id + 1) else max_resid
       | None => max_resid
       end)
    rs 1%N.

(** The residue name column of atom [i], with its warning. *)
Definition gro_resname (frame : Frame) (i : nat) : M WriteState string :=
  match residue_for_atom (topology_ frame) i with
  | Some residue =>
      let resname := res_name residue in
      if 5 <? String.length resname
      then warning ("Residue '" +++ resname
                    +++ "' has a name too long for GRO format, it will be truncated.") ;;;
           ret (substring 0 5 resname)
      else ret resname
  | None => ret "XXXXX"
  end.

(** The residue id column of atom [i], with its warning, and the next
    value of [max_resid]. *)
Definition gro_resid (frame : Frame) (i : nat) (max_resid : N)
  : M WriteState (string * N) :=
  match residue_for_atom (topology_ frame) i with
  | Some (mkResidue _ (Some value) _) =>
      if (value <=? 99999)%N then ret (to_string value, max_resid)
      else warning "Too many residues for GRO format, removing residue id" ;;;
           ret ("-1", max_resid)
  | _ =>
      let value := max_resid in
      if (value <=? 99999)%N then ret (to_string value, wrap64 (max_resid + 1))
      else ret ("-1", wrap64 (max_resid + 1))
  end.

(** One turn of the loop over the atoms. *)
Definition write_atom (frame : Frame) (i : nat) (max_resid : N)
  : M WriteState N :=
  resname <- gro_resname frame i ;;
  ri <- gro_resid frame i max_resid ;;
  let resid := fst ri in
  (if String.length resname <=? 5 then ret tt
   else if NDEBUG then ret tt else abort "resname.length() <= 5") ;;;
  let pos := Vector3D_div (nth i (positions_ frame) Vector3D_zero) 10 in
  check_values_size pos 8 "atomic position" ;;;
  let atom := nth i (atoms (topology_ frame)) (Atom_named "") in
  match velocities_ frame with
  | Some velocities =>
      let vel := Vector3D_div (nth i velocities Vector3D_zero) 10 in
      check_values_size vel 8 "atomic velocity" ;;;
      index <- to_gro_index (N.of_nat i) ;;
      print (pad_left 5 resid +++ pad_right 5 resname +++ pad_left 5 (name atom)
             +++ pad_left 5 index
             +++ fmt_fixed 8 3 (c0 pos) +++ fmt_fixed 8 3 (c1 pos)
             +++ fmt_fixed 8 3 (c2 pos)
             +++ fmt_fixed 8 4 (c0 vel) +++ fmt_fixed 8 4 (c1 vel)
             +++ fmt_fixed 8 4 (c2 vel)) ;;;
      ret (snd ri)
  | None =>
      index <- to_gro_index (N.of_nat i) ;;
      print (pad_left 5 resid +++ pad_right 5 resname +++ pad_left 5 (name atom)
             +++ pad_left 5 index
             +++ fmt_fixed 8 3 (c0 pos) +++ fmt_fixed 8 3 (c1 pos)
             +++ fmt_fixed 8 3 (c2 pos)) ;;;
      ret (snd ri)
  end.

Fixpoint write_atoms (frame : Frame) (indexes : list nat) (max_resid : N)
  : M WriteState N :=
  match indexes with
  | [] => ret max_resid
  | i :: rest =>
      max_resid' <- write_atom frame i max_resid ;;
      write_atoms frame rest max_resid'
  end.

(** The box line. *)
Definition write_cell (cell : UnitCell) : M WriteState unit :=
  match shape cell with
  | ORTHORHOMBIC | INFINITE =>
      let l := Vector3D_div (cell_lengths cell) 10 in
      check_values_size l 8 "Unit Cell" ;;;
      print ("  " +++ fmt_fixed 8 5 (c0 l) +++ "  " +++ fmt_fixed 8 5 (c1 l)
             +++ "  " +++ fmt_fixed 8 5 (c2 l))
  | TRICLINIC =>
      let matrix := Matrix3D_div (cell_matrix cell) 10 in
      check_values_size (mkVector3D (m00 matrix) (m11 matrix) (m22 matrix))
                        8 "Unit Cell" ;;;
      check_values_size (mkVector3D (m01 matrix) (m02 matrix) (m12 matrix))
                        8 "Unit Cell" ;;;
      print ("  " +++ fmt_fixed 8 5 (m00 matrix)
             +++ "  " +++ fmt_fixed 8 5 (m11 matrix)
             +++ "  " +++ fmt_fixed 8 5 (m22 matrix)
             +++ " 0.0 0.0  " +++ fmt_fixed 8 5 (m01 matrix)
             +++ " 0.0  " +++ fmt_fixed 8 5 (m02 matrix)
             +++ "  " +++ fmt_fixed 8 5 (m12 matrix))
  end.

(** [GROFormat::write(frame)] *)
Definition write (frame : Frame) : M WriteState unit :=
  print (match Frame_get_string "name" frame with
         | Some title => title
         | None => "GRO File produced by chemfiles"
         end) ;;;
  print (pad_left 5 (to_string (N.of_nat (Frame_size frame)))) ;;;
  write_atoms frame (seq 0 (Frame_size frame))
              (first_free_resid (residues (topology_ frame))) ;;;
  write_cell (cell_ frame) ;;;
  modify (fun s => (push_position (tellg (file_ (fst s))) (fst s), snd s)).

End GRO.

(** ** A reference environment

    Modelled from the spec: plain implementations of the functions of
    [Env], on which the definitions above run on concrete files and
    frames. Numbers are plain decimal literals ([-12.345]); fixed
    notation rounds the exact value of the double to the nearest, ties
    to even. *)
Module Reference.

Definition is_blank (c : ascii) : bool :=
  Ascii.eqb c " "%char || Ascii.eqb c "009"%char
  || Ascii.eqb c "010"%char || Ascii.eqb c "013"%char.

Fixpoint drop_blanks (l : list ascii) : list ascii :=
  match l with
  | c :: l' => if is_blank c then drop_blanks l' else l
  | [] => []
  end.

Definition trim (s : string) : string :=
  string_of_list_ascii
    (rev (drop_blanks (rev (drop_blanks (list_ascii_of_string s))))).

Definition digit_of (c : ascii) : option N :=
  let n := N_of_ascii c in
  if ((48 <=? n) && (n <=? 57))%N then Some (n - 48)%N else None.

(** The value of a run of digits after [acc], and their number. *)
Fixpoint digits_value (l : list ascii) (acc : N) : option N :=
  match l with
  | [] => Some acc
  | c :: l' =>
      match digit_of c with
      | Some d => digits_value l' (10 * acc + d)%N
      | None => None
      end
  end.

Definition parse_size_t (s : string) : parsed N :=
  match list_ascii_of_string (trim s) with
  | [] => Malformed "can not parse an integer from an empty string"
  | l =>
      match digits_value l 0%N with
      | Some n =>
          if (n <=? SIZE_MAX)%N then Parsed n
          else Malformed ("integer out of range: '" +++ s +++ "'")
      | None => Malformed ("can not parse an integer from '" +++ s +++ "'")
      end
  end.

Fixpoint split_at_dot (l : list ascii) : list ascii * option (list ascii) :=
  match l with
  | [] => ([], None)
  | c :: l' =>
      if Ascii.eqb c "."%char then ([], Some l')
      else let (a, b) := split_at_dot l' in (c :: a, b)
  end.

Definition float_of_N (n : N) : float := PrimFloat.of_uint63 (Uint63.of_Z (Z.of_N n)).

(** At most 15 digits: the digits and the power of ten are doubles, and
    their quotient is the double nearest to the literal. *)
Definition parse_unsigned_double (l : list ascii) : option float :=
  let (int_part, frac) := split_at_dot l in
  let frac_part := match frac with Some f => f | None => [] end in
  match int_part ++ frac_part with
  | [] => None
  | ds =>
      if 15 <? List.length ds then None
      else match digits_value ds 0%N with
           | Some n =>
               Some (float_of_N n / float_of_N (10 ^ N.of_nat (List.length frac_part)))%float
           | None => None
           end
  end.

Definition parse_double (s : string) : parsed float :=
  let bad := Malformed ("can not parse a number from '" +++ s +++ "'") in
  match list_ascii_of_string (trim s) with
  | [] => bad
  | c :: l =>
      if Ascii.eqb c "-"%char
      then match parse_unsigned_double l with
           | Some x => Parsed (- x)%float
           | None => bad
           end
      else match parse_unsigned_double (c :: l) with
           | Some x => Parsed x
           | None => bad
           end
  end.

Fixpoint split_chars (l : list ascii) (delim : ascii) (item : list ascii)
  : list string :=
  let close rest :=
    match item with
    | [] => rest
    | _ => string_of_list_ascii (rev item) :: rest
    end in
  match l with
  | [] => close []
  | c :: l' =>
      if Ascii.eqb c delim then close (split_chars l' delim [])
      else split_chars l' delim (c :: item)
  end.

(** The pieces between the delimiters, the empty ones left out. *)
Definition split (s : string) (delim : ascii) : list string :=
  split_chars (list_ascii_of_string s) delim [].

(** The exact value of a finite double times [10^prec], rounded to the
    nearest integer, ties to even. *)
Definition scaled_round (m : positive) (e : Z) (prec : nat) : N :=
  let a := (Zpos m * 10 ^ Z.of_nat prec)%Z in
  if (0 <=? e)%Z then Z.to_N (a * 2 ^ e)
  else
    let b := (2 ^ (- e))%Z in
    let q := (a / b)%Z in
    let r := (a mod b)%Z in
    Z.to_N (if (2 * r <? b)%Z then q
            else if (b <? 2 * r)%Z then q + 1
            else if Z.even q then q else q + 1).

Definition fixed_notation (prec : nat) (x : float) : string :=
  let render (neg : bool) (q : N) :=
    let unit := (10 ^ N.of_nat prec)%N in
    let frac := to_string (q mod unit) in
    (if neg then "-" else "") +++ to_string (q / unit)
    +++ (if prec =? 0 then ""
         else "." +++ string_of_list_ascii
                        (repeat "0"%char (prec - String.length frac)) +++ frac) in
  match Prim2SF x with
  | S754_nan => "nan"
  | S754_infinity neg => if neg then "-inf" else "inf"
  | S754_zero neg => render neg 0%N
  | S754_finite neg m e => render neg (scaled_round m e prec)
  end.

(** [{:W.Pf}] *)
Definition fmt_fixed (width prec : nat) (x : float) : string :=
  pad_left width (fixed_notation prec x).

(** A debug build: the [assert]s are evaluated. *)
Definition debug : Env :=
  Build_Env parse_size_t parse_double split trim fmt_fixed false.

(** A release build: compiled with [NDEBUG]. *)
Definition release : Env :=
  Build_Env parse_size_t parse_double split trim fmt_fixed true.

End Reference.

(** ** The selection parser: [selections/expr.cpp] *)
Module Selections.

(** Modelled from the spec: the [Token] class of the lexer is not part
    of the verified sources. The spec gives the tokenizer identifiers,
    numbers and the operators [== != <= >= < > ( )]; the parser adds the
    boolean operators. *)
Inductive Token : Type :=
| LPAREN | RPAREN
| EQ | NEQ | LT | LE | GT | GE
| NOT | AND | OR
| IDENT (ident : string)
| NUM (number : float).

Inductive BinOp : Type := BinOp_EQ | BinOp_NEQ | BinOp_LT | BinOp_LE | BinOp_GT | BinOp_GE.

(** [BinOp(token.type())], for a token with [is_binary_op()]. *)
Definition binary_op (t : Token) : option BinOp :=
  match t with
  | EQ => Some BinOp_EQ
  | NEQ => Some BinOp_NEQ
  | LT => Some BinOp_LT
  | LE => Some BinOp_LE
  | GT => Some BinOp_GT
  | GE => Some BinOp_GE
  | _ => None
  end.

Inductive Coordinate : Type := X | Y | Z.

(** The nodes that [expr.cpp] builds. *)
Inductive Ast : Type :=
| NameExpr (name : string) (equals : bool)
| PositionExpr (coord : Coordinate) (op : BinOp) (val : float)
| VelocityExpr (coord : Coordinate) (op : BinOp) (val : float)
| IndexExpr (op : BinOp) (val : N)
| AndExpr (lhs rhs : Ast)
| OrExpr (lhs rhs : Ast)
| NotExpr (ast : Ast).

(** A parsing function works on [begin], the tokens not yet consumed;
    [end] is the end of the list. The [assert]s at the head of a
    function are the conditions under which [dispatch_parsing] calls it:
    where they fail the embedding aborts. *)
Definition Parser : Type := M (list Token) Ast.

(** [std::ceil] *)
Definition ceil (x : float) : float :=
  match Prim2SF x with
  | S754_finite neg m e =>
      if (0 <=? e)%Z then x
      else
        let b := (2 ^ (- e))%Z in
        if neg
        then let q := (Zpos m / b)%Z in
             if (q =? 0)%Z then (- 0)%float
             else (- PrimFloat.of_uint63 (Uint63.of_Z q))%float
        else PrimFloat.of_uint63 (Uint63.of_Z ((Zpos m + b - 1) / b))
  | _ => x
  end.

(** [static_cast<std::size_t>(x)] for an integral [x]: its value when it
    is a [size_t]; the conversion is undefined otherwise. *)
Definition size_t_of_double (x : float) : option N :=
  match Prim2SF x with
  | S754_zero _ => Some 0%N
  | S754_finite false m e =>
      let v := if (0 <=? e)%Z then (Zpos m * 2 ^ e)%Z else (Zpos m / 2 ^ (- e))%Z in
      if (v <=? Z.of_N SIZE_MAX)%Z then Some (Z.to_N v) else None
  | _ => None
  end.

(** [parse<NameExpr>] *)
Definition parse_NameExpr : Parser :=
  fun begin =>
    match begin with
    | t0 :: t1 :: IDENT "name" :: rest =>
        match t1, t0 with
        | IDENT name, EQ => (Returned (NameExpr name true), rest)
        | IDENT name, NEQ => (Returned (NameExpr name false), rest)
        | _, _ =>
            (Thrown (parser_error
                       "Name selection must follow the pattern: 'name == {name} | name != {name}'"),
             begin)
        end
    | _ => (Aborted "parse<NameExpr>: assertion failed", begin)
    end.

(** [parse<IndexExpr>] *)
Definition parse_IndexExpr : Parser :=
  fun begin =>
    match begin with
    | t0 :: t1 :: IDENT "index" :: rest =>
        match binary_op t0 with
        | None => (Aborted "begin->is_binary_op()", begin)
        | Some op =>
            match t1 with
            | NUM num =>
                if (ceil num =? num)%float
                then match size_t_of_double num with
                     | Some val => (Returned (IndexExpr op val), rest)
                     | None => (Aborted "static_cast<std::size_t>: out of range", begin)
                     end
                else (Thrown (parser_error "Index selection should contain an integer"),
                      begin)
            | _ => (Thrown (parser_error "Index selection should contain an integer"),
                    begin)
            end
        end
    | _ => (Aborted "parse<IndexExpr>: assertion failed", begin)
    end.

Section Boolean.
(** [dispatch_parsing], declared in [parser.hpp], chooses the parsing
    function from the first tokens; it is taken as it comes. *)
Variable dispatch_parsing : Parser.

(** An operand of a boolean operator: the error of the operand gets a
    prefix when it is a [ParserError]. *)
Definition operand (prefix : string) : Parser :=
  try_catch dispatch_parsing
    (fun e =>
       if catches ParserError (kind e)
       then throw (parser_error (prefix +++ what e))
       else throw e).

(** [if (begin == end) throw ParserError(msg)] *)
Definition expect_more (msg : string) : M (list Token) unit :=
  fun begin =>
    match begin with
    | [] => (Thrown (parser_error msg), begin)
    | _ => (Returned tt, begin)
    end.

(** [parse<AndExpr>] *)
Definition parse_AndExpr : Parser :=
  fun begin =>
    match begin with
    | AND :: rest =>
        (expect_more "Missing right-hand side operand to 'and'" ;;;
         rhs <- operand "Error in right-hand side operand to 'and': " ;;
         expect_more "Missing left-hand side operand to 'and'" ;;;
         lhs <- operand "Error in left-hand side operand to 'and': " ;;
         ret (AndExpr lhs rhs)) rest
    | _ => (Aborted "begin->type() == Token::AND", begin)
    end.

(** [parse<OrExpr>] *)
Definition parse_OrExpr : Parser :=
  fun begin =>
    match begin with
    | OR :: rest =>
        (expect_more "Missing right-hand side operand to 'or'" ;;;
         rhs <- operand "Error in right-hand side operand to 'or': " ;;
         expect_more "Missing left-hand side operand to 'or'" ;;;
         lhs <- operand "Error in left-hand side operand to 'or': " ;;
         ret (OrExpr lhs rhs)) rest
    | _ => (Aborted "begin->type() == Token::OR", begin)
    end.

(** [parse<NotExpr>] *)
Definition parse_NotExpr : Parser :=
  fun begin =>
    match begin with
    | NOT :: rest =>
        (expect_more "Missing operand to 'not'" ;;;
         ast <- operand "Error in operand of 'not': " ;;
         ret (NotExpr ast)) rest
    | _ => (Aborted "begin->type() == Token::NOT", begin)
    end.

End Boolean.

Section Leaves.
Context {E : Env}.





End Leaves.

(** Modelled from the spec: [dispatch_parsing] is defined in
    [parser.cpp], which is not part of the verified sources. It is
    modelled by the conditions that the parsing functions assert on
    entry: a boolean operator goes to its function, a binary operator
    to the function of the identifier two tokens further. The fuel
    bounds the depth of the nesting. *)
Fixpoint dispatch_parsing (fuel : nat) : Parser :=
  fun begin =>
    match fuel with
    | O => (Aborted "out of fuel", begin)
    | S fuel' =>
        match begin with
        | AND :: _ => parse_AndExpr (dispatch_parsing fuel') begin
        | OR :: _ => parse_OrExpr (dispatch_parsing fuel') begin
        | NOT :: _ => parse_NotExpr (dispatch_parsing fuel') begin
        | t0 :: _ :: IDENT ident :: _ =>
            match binary_op t0 with
            | Some _ =>
                if String.eqb ident "name" then parse_NameExpr begin
                else if String.eqb ident "index" then parse_IndexExpr begin
                else (Thrown (parser_error ("Unknown operation: " +++ ident)), begin)
            | None => (Thrown (parser_error "Could not parse the selection"), begin)
            end
        | _ => (Thrown (parser_error "Could not parse the selection"), begin)
        end
    end.

End Selections.

(** * The code seen from its data *)

(** The functions below say, without the state monad, what the code
    above computes; the properties relate the two. *)

(** ** What a read does, as functions of the lines *)
Section ReadViews.
Context {E : Env}.

(** The format after the two lines of the header. *)
Definition after_header (g : GROFormat) : GROFormat :=
  set_file (set_cursor (2 + cursor (file_ g)) (file_ g)) g.

(** The position that [read_atom] gives to the atom of a line, in
    angstroms. *)
Definition line_position (line : string) : option Vector3D :=
  match parse_double (substring 20 8 line), parse_double (substring 28 8 line),
        parse_double (substring 36 8 line) with
  | Parsed x, Parsed y, Parsed z =>
      Some (mkVector3D (x * 10) (y * 10) (z * 10))
  | _, _, _ => None
  end.

(** Its velocity: zero for a line without the velocity columns. *)
Definition line_velocity (line : string) : option Vector3D :=
  if 68 <=? String.length line
  then match parse_double (substring 44 8 line), parse_double (substring 52 8 line),
             parse_double (substring 60 8 line) with
       | Parsed vx, Parsed vy, Parsed vz =>
           Some (mkVector3D (vx * 10) (vy * 10) (vz * 10))
       | _, _, _ => None
       end
  else Some Vector3D_zero.

Definition line_atom (line : string) : Atom :=
  Atom_named (trim (substring 10 5 line)).

(** What [read_atom] does to the residues of the format, for the atom
    of index [index]. *)
Definition line_residues (line : string) (index : nat) (m : residue_map)
  : residue_map :=
  match parse_size_t (substring 0 5 line) with
  | Parsed resid =>
      if (resid =? SIZE_MAX)%N then m
      else match map_find resid m with
           | None =>
               map_insert resid
                 (Residue_add_atom index
                    (Residue_new (trim (substring 5 5 line)) resid)) m
           | Some _ => map_update resid (Residue_add_atom index) m
           end
  | Malformed _ => m
  end.

(** The atom of a line that [read_atom] accepts. *)
Definition parsed_atom (line : string) : option (Atom * Vector3D * Vector3D) :=
  if String.length line <? 44 then None
  else match line_position line, line_velocity line with
       | Some p, Some v => Some (line_atom line, p, v)
       | _, _ => None
       end.

Definition add_parsed (fr : Frame) (a : Atom * Vector3D * Vector3D) : Frame :=
  Frame_add_atom (fst (fst a)) (snd (fst a)) (snd a) fr.

(** The frame [fr] with another cell. *)
Definition same_but_cell (fr fr' : Frame) : Prop :=
  fr' = Frame_set_cell (cell_ fr') fr.

Definition add_residues (rs : residue_map) (fr : Frame) : Frame :=
  fold_left (fun fr r => Frame_add_residue (snd r) fr) rs fr.

(** The frame when the loop over the atom lines starts: the title set,
    velocities present, no atom. *)
Definition cleared (title : string) (fr : Frame) : Frame :=
  Frame_resize 0
    (Frame_reserve 0
       (Frame_add_velocities (Frame_set "name" (Property_string title) fr))).

(** The atom lines of the step that starts at the cursor of [f], when
    its header announces [n] atoms. *)
Definition atom_lines (f : TextFile) (n : N) : list string :=
  firstn (N.to_nat n) (skipn (2 + cursor f) (content f)).

(** The number of turns that the loop of the constructor can still
    take. *)
Definition turns_left (f : TextFile) : nat :=
  if failed f then 0 else S (List.length (content f) - cursor f).

(** The file of a format, left at line [p] in a good state. *)
Definition file_at (f : TextFile) (p : nat) : TextFile :=
  mkTextFile (path f) (content f) p false.

End ReadViews.

(** ** What a write prints, as functions of the frame *)
Section WriteViews.
Context {E : Env}.

Definition resname_column (frame : Frame) (i : nat) : string :=
  match residue_for_atom (topology_ frame) i with
  | Some residue =>
      if 5 <? String.length (res_name residue)
      then substring 0 5 (res_name residue)
      else res_name residue
  | None => "XXXXX"
  end.

Definition resname_warnings (frame : Frame) (i : nat) : list string :=
  match residue_for_atom (topology_ frame) i with
  | Some residue =>
      if 5 <? String.length (res_name residue)
      then ["Residue '" +++ res_name residue
            +++ "' has a name too long for GRO format, it will be truncated."]
      else []
  | None => []
  end.

(** The residue id of atom [i], when its residue has one. *)
Definition residue_id (frame : Frame) (i : nat) : option N :=
  match residue_for_atom (topology_ frame) i with
  | Some residue => res_id residue
  | None => None
  end.

Definition resid_column (frame : Frame) (i : nat) (max_resid : N) : string :=
  match residue_id frame i with
  | Some value => if (value <=? 99999)%N then to_string value else "-1"
  | None => if (max_resid <=? 99999)%N then to_string max_resid else "-1"
  end.

Definition resid_warnings (frame : Frame) (i : nat) : list string :=
  match residue_id frame i with
  | Some value =>
      if (value <=? 99999)%N then []
      else ["Too many residues for GRO format, removing residue id"]
  | None => []
  end.

Definition next_max_resid (frame : Frame) (i : nat) (max_resid : N) : N :=
  match residue_id frame i with
  | Some _ => max_resid
  | None => wrap64 (max_resid + 1)
  end.

Definition index_column (i : nat) : string :=
  if (99999 <=? N.of_nat i)%N then "*****" else to_string (N.of_nat i + 1).

Definition index_warnings (i : nat) : list string :=
  if (99999 <=? N.of_nat i)%N
  then ["Too many atoms for GRO format, removing atomic id"]
  else [].

(** The position and the velocity of atom [i] in nanometers. *)
Definition position_nm (frame : Frame) (i : nat) : Vector3D :=
  Vector3D_div (nth i (positions_ frame) Vector3D_zero) 10.

Definition velocity_nm (velocities : list Vector3D) (i : nat) : Vector3D :=
  Vector3D_div (nth i velocities Vector3D_zero) 10.

Definition coordinates_columns (frame : Frame) (i : nat) : string :=
  let pos := position_nm frame i in
  match velocities_ frame with
  | Some velocities =>
      let vel := velocity_nm velocities i in
      fmt_fixed 8 3 (c0 pos) +++ fmt_fixed 8 3 (c1 pos) +++ fmt_fixed 8 3 (c2 pos)
      +++ fmt_fixed 8 4 (c0 vel) +++ fmt_fixed 8 4 (c1 vel) +++ fmt_fixed 8 4 (c2 vel)
  | None =>
      fmt_fixed 8 3 (c0 pos) +++ fmt_fixed 8 3 (c1 pos) +++ fmt_fixed 8 3 (c2 pos)
  end.

Definition atom_text (frame : Frame) (i : nat) (max_resid : N) : string :=
  pad_left 5 (resid_column frame i max_resid)
  +++ pad_right 5 (resname_column frame i)
  +++ pad_left 5 (name (nth i (atoms (topology_ frame)) (Atom_named "")))
  +++ pad_left 5 (index_column i)
  +++ coordinates_columns frame i.

(** [check_values_size(values, 8, context)] returns. *)
Definition fits (values : Vector3D) : bool :=
  negb (PrimFloat.ltb (pow10 8 - 1) (c0 values)
        || PrimFloat.ltb (pow10 8 - 1) (c1 values)
        || PrimFloat.ltb (pow10 8 - 1) (c2 values)
        || PrimFloat.ltb (c0 values) (- pow10 7 + 1)
        || PrimFloat.ltb (c1 values) (- pow10 7 + 1)
        || PrimFloat.ltb (c2 values) (- pow10 7 + 1)).

Definition atom_fits (frame : Frame) (i : nat) : bool :=
  fits (position_nm frame i)
  && match velocities_ frame with
     | Some velocities => fits (velocity_nm velocities i)
     | None => true
     end.

Definition atom_warnings (frame : Frame) (i : nat) : list string :=
  resname_warnings frame i ++ resid_warnings frame i ++ index_warnings i.

Fixpoint atom_texts (frame : Frame) (indexes : list nat) (max_resid : N)
  : list string :=
  match indexes with
  | [] => []
  | i :: rest =>
      atom_text frame i max_resid
      :: atom_texts frame rest (next_max_resid frame i max_resid)
  end.

Definition max_resid_after (frame : Frame) (indexes : list nat) (max_resid : N) : N :=
  fold_left (fun m i => next_max_resid frame i m) indexes max_resid.

Definition print_all (texts : list string) (f : TextFile) : TextFile :=
  fold_left (fun f text => print_line text f) texts f.

Definition cell_text (cell : UnitCell) : string :=
  match shape cell with
  | ORTHORHOMBIC | INFINITE =>
      let l := Vector3D_div (cell_lengths cell) 10 in
      "  " +++ fmt_fixed 8 5 (c0 l) +++ "  " +++ fmt_fixed 8 5 (c1 l)
      +++ "  " +++ fmt_fixed 8 5 (c2 l)
  | TRICLINIC =>
      let matrix := Matrix3D_div (cell_matrix cell) 10 in
      "  " +++ fmt_fixed 8 5 (m00 matrix)
      +++ "  " +++ fmt_fixed 8 5 (m11 matrix)
      +++ "  " +++ fmt_fixed 8 5 (m22 matrix)
      +++ " 0.0 0.0  " +++ fmt_fixed 8 5 (m01 matrix)
      +++ " 0.0  " +++ fmt_fixed 8 5 (m02 matrix)
      +++ "  " +++ fmt_fixed 8 5 (m12 matrix)
  end.

Definition cell_fits (cell : UnitCell) : bool :=
  match shape cell with
  | ORTHORHOMBIC | INFINITE => fits (Vector3D_div (cell_lengths cell) 10)
  | TRICLINIC =>
      let matrix := Matrix3D_div (cell_matrix cell) 10 in
      fits (mkVector3D (m00 matrix) (m11 matrix) (m22 matrix))
      && fits (mkVector3D (m01 matrix) (m02 matrix) (m12 matrix))
  end.

Definition title_text (frame : Frame) : string :=
  match Frame_get_string "name" frame with
  | Some title => title
  | None => "GRO File produced by chemfiles"
  end.

Definition count_text (frame : Frame) : string :=
  pad_left 5 (to_string (N.of_nat (Frame_size frame))).

Definition frame_atom_texts (frame : Frame) : list string :=
  atom_texts frame (seq 0 (Frame_size frame))
             (first_free_resid (residues (topology_ frame))).

(** The texts that [write] prints for a frame, in their order. *)
Definition frame_texts (frame : Frame) : list string :=
  title_text frame :: count_text frame
  :: frame_atom_texts frame ++ [cell_text (cell_ frame)].

Definition frame_warnings (frame : Frame) : list string :=
  flat_map (atom_warnings frame) (seq 0 (Frame_size frame)).

(** Every value of the frame passes [check_values_size]. *)
Definition frame_fits (frame : Frame) : bool :=
  forallb (atom_fits frame) (seq 0 (Frame_size frame)) && cell_fits (cell_ frame).

End WriteViews.

(** ** Sample files and frames *)

(** The files and the frames on which the theorems are run. *)
Module Samples.

(** A step of two atoms, the first with velocities, in a rectangular
    box. *)
Definition water_lines : list string :=
  [ "Water";
    "    2";
    "    1SOL     OW    1   0.126   0.639   0.322  0.0001  0.0002 -0.0003";
    "    1SOL    HW1    2   0.187   0.713   0.394";
    "   1.00000   2.00000   3.00000" ].

(** The same step in a triclinic box. *)
Definition triclinic_lines : list string :=
  [ "Water";
    "    1";
    "    1SOL     OW    1   0.126   0.639   0.322";
    "   1.00000   2.00000   3.00000 0.0 0.0   0.50000 0.0   0.25000   0.75000" ].

(** A step of one atom whose numbers are binary fractions, so that ten
    times the parsed number is the number of the frame. *)
Definition exact_lines : list string :=
  [ "Exact";
    "    1";
    "    1SOL     OW    1   0.125   0.500   0.250  0.0625  0.0000 -0.5000";
    "   1.00000   2.00000   3.00000" ].

(** The frame of [exact_lines]. *)
Definition exact_frame : Frame :=
  mkFrame 0%N [mkVector3D 1.25 5 2.5] (Some [mkVector3D 0.625 0 (-5)])
          (mkTopology [Atom_named "OW"] [mkResidue "SOL" (Some 1%N) [0]] [])
          (UnitCell_orthorhombic 10 20 30)
          [("name", Property_string "Exact")].

(** One atom, in a residue whose id is above the limit of the column. *)
Definition far_residue : Frame :=
  Frame_add_residue (mkResidue "SOL" (Some 100000%N) [0])
    (Frame_add_atom (Atom_named "O") (mkVector3D 1.25 5 2.5) Vector3D_zero
                    Frame_new).

(** The same atom in the same residue, too far along [x] for the eight
    characters of a coordinate. *)
Definition far_atom : Frame :=
  Frame_add_residue (mkResidue "SOL" (Some 100000%N) [0])
    (Frame_add_atom (Atom_named "O") (mkVector3D 1e9 5 2.5) Vector3D_zero
                    Frame_new).

(** [n] times the same atom, in no residue. *)
Definition many_atoms (n : nat) : Frame :=
  mkFrame 0%N (repeat (mkVector3D 10 20 30) n) None
          (mkTopology (repeat (Atom_named "O") n) [] [])
          (UnitCell_orthorhombic 10 20 30) [].

(** An empty file to write to. *)
Definition blank : GROFormat := mkGROFormat (TextFile_open "out.gro" []) [] [].

(** A format on the lines of a file, as the constructor leaves it when
    the file holds the steps at [steps]. *)
Definition opened (lines : list string) (steps : list Z) : GROFormat :=
  mkGROFormat (TextFile_open "sample.gro" lines) steps [].

End Samples.


(** A file of two steps: the atom line of the first is too short. *)
Definition broken_first_step : list string :=
  [ "first"; "    1"; "too short"; "   1.00000   2.00000   3.00000";
    "second"; "    1"; "    1SOL     OW    1   0.126   0.639   0.322";
    "   1.00000   2.00000   3.00000" ].

(** ** The trajectory engine

    [read_step] of a trajectory, over the [read_step] of the format. *)





(** ** Texts *)

(** The message of an exception holds no digit. *)
Definition no_digit (msg : string) : bool :=
  forallb (fun c => match Reference.digit_of c with Some _ => false | None => true end)
          (list_ascii_of_string msg).

(** A text without a line break. *)
Definition no_newline (s : string) : bool :=
  forallb (fun c => negb (Ascii.eqb c "010"%char)) (list_ascii_of_string s).

(** [check k] for every [k] below [n], by [n] turns of a loop. *)
Definition checked_below (check : N -> bool) (n : N) : bool :=
  snd (N.iter n (fun s => (N.succ (fst s), snd s && check (fst s))) (0%N, true)).

(** ** The texts that a read takes back *)
Section ReadBackViews.
Context {E : Env}.







End ReadBackViews.

(** ** Further views of the code

    The steps of a file as the constructor scans them, the residues that
    a read builds, the residue ids that a write makes up, and what the
    parsers leave of their tokens. *)

Section ScanViews.
Context {E : Env}.

(** The lines of a step as [forward] takes them: a title, a line that
    parses as a number of atoms [n], and as many further lines as
    [natoms + 1] is in a [size_t]. *)
Definition is_step (lines : list string) : bool :=
  match lines with
  | _ :: count :: body =>
      match parse_size_t count with
      | Parsed n => List.length body =? N.to_nat (wrap64 (n + 1))
      | Malformed _ => false
      end
  | _ => false
  end.

(** Two lines that [forward] gives up on: the second does not parse as a
    number of atoms. *)
Definition is_skipped (lines : list string) : bool :=
  match lines with
  | [_; count] =>
      match parse_size_t count with
      | Parsed _ => false
      | Malformed _ => true
      end
  | _ => false
  end.

(** The positions of the steps among chunks of lines that start at line
    [start]. *)
Fixpoint recorded (chunks : list (list string)) (start : nat) : list Z :=
  match chunks with
  | [] => []
  | c :: rest =>
      (if is_step c then [Z.of_nat start] else [])
      ++ recorded rest (start + List.length c)
  end.

End ScanViews.


Section ResidueViews.
Context {E : Env}.

(** The residue id that [read] takes from an atom line: none when the
    first five characters do not parse, or parse to [SIZE_MAX]. *)
Definition line_resid (line : string) : option N :=
  match parse_size_t (substring 0 5 line) with
  | Parsed resid => if (resid =? SIZE_MAX)%N then None else Some resid
  | Malformed _ => None
  end.

Definition has_resid (resid : N) (line : string) : bool :=
  match line_resid line with
  | Some r => (r =? resid)%N
  | None => false
  end.

(** The residues of the format after the loop over the atom lines, the
    first of which is the atom [index]. *)
Fixpoint lines_residues (lines : list string) (index : nat) (m : residue_map)
  : residue_map :=
  match lines with
  | [] => m
  | line :: rest => lines_residues rest (S index) (line_residues line index m)
  end.

(** The indexes of the lines that carry the residue id [resid]. *)
Fixpoint residue_atoms (resid : N) (lines : list string) (index : nat) : list nat :=
  match lines with
  | [] => []
  | line :: rest =>
      (if has_resid resid line then [index] else [])
      ++ residue_atoms resid rest (S index)
  end.

(** The atoms of [indexes] added to a residue, one by one. *)
Definition add_atoms (indexes : list nat) (res : Residue) : Residue :=
  fold_left (fun res i => Residue_add_atom i res) indexes res.

End ResidueViews.

Section WriteViews2.
Context {E : Env}.

(** The atoms before [i] for which [write] makes up a residue id: those
    in no residue, or in a residue without an id. *)
Definition unnumbered_before (frame : Frame) (i : nat) : nat :=
  List.length (filter (fun j => match residue_id frame j with
                                | Some _ => false
                                | None => true
                                end) (seq 0 i)).

(** The id that [write] makes up for atom [i]. *)
Definition generated_resid (frame : Frame) (i : nat) : N :=
  wrap64 (first_free_resid (residues (topology_ frame))
          + N.of_nat (unnumbered_before frame i)).

End WriteViews2.

(** A computation keeps a relation between the state it is given and
    the state it leaves, whatever its outcome. *)
Definition keeps {S A} (R : S -> S -> Prop) (m : M S A) : Prop :=
  forall s r s', m s = (r, s') -> R s s'.

(** What a read leaves alone: the lines of the file, its path and the
    positions of the steps. *)
Definition same_index (s s' : ReadState) : Prop :=
  content (file_ (fst s')) = content (file_ (fst s))
  /\ path (file_ (fst s')) = path (file_ (fst s))
  /\ steps_positions_ (fst s') = steps_positions_ (fst s).

(** What a parsing function of a leaf leaves of the tokens: all but the
    first three when it returns, all of them otherwise. *)
Definition three_or_none (begin : list Selections.Token)
    (r : outcome Selections.Ast) (rest : list Selections.Token) : Prop :=
  match r with
  | Returned _ => exists t0 t1 t2, begin = t0 :: t1 :: t2 :: rest
  | _ => rest = begin
  end.

(** A parsing function only consumes tokens: what it leaves is the end
    of what it was given. *)
Definition only_consumes (parser : Selections.Parser) : Prop :=
  forall begin r rest, parser begin = (r, rest) -> exists taken, begin = taken ++ rest.

(** Further sample files and frames. *)
Module Examples.

(** Two lines that are no header, then the step of [Samples.water_lines]. *)
Definition junk_then_water : list (list string) :=
  [ ["not a step"; "no number"]; Samples.water_lines ].

(** Three residues numbered from one. *)
Definition three_residues : list Residue :=
  [ mkResidue "ALA" (Some 1%N) [0];
    mkResidue "GLY" (Some 2%N) [1];
    mkResidue "SER" (Some 3%N) [2] ].

(** One atom in a residue whose name has seven characters. *)
Definition long_name : Frame :=
  Frame_add_residue (mkResidue "SOLVENT" (Some 7%N) [0])
    (Frame_add_atom (Atom_named "O") (mkVector3D 1.25 5 2.5) Vector3D_zero
                    Frame_new).

(** The tokens of [not name == O], as the parser receives them. *)
Definition not_name : list Selections.Token :=
  [ Selections.NOT; Selections.EQ; Selections.IDENT "O"; Selections.IDENT "name" ].

(** The tokens of [name == O or index == 1.5]: the right operand comes
    first, and its number is no integer. *)
Definition or_bad_index : list Selections.Token :=
  [ Selections.OR; Selections.EQ; Selections.NUM 1.5; Selections.IDENT "index";
    Selections.EQ; Selections.IDENT "O"; Selections.IDENT "name" ].

(** A step whose box line has two fields. *)
Definition two_field_box : list string :=
  [ "Water";
    "    1";
    "    1SOL     OW    1   0.126   0.639   0.322";
    "   1.00000   2.00000" ].

(** A box line of nine fields whose fourth field is not zero. *)
Definition skewed_box : list string :=
  [ "   1.00000   2.00000   3.00000 0.5 0.0   0.50000 0.0   0.25000   0.75000" ].

End Examples.

(** * Properties *)

(** ** The monad *)

Lemma bind_returned {S A B} (m : M S A) (k : A -> M S B) s b s' :
  bind m k s = (Returned b, s') ->
  exists a s1, m s = (Returned a, s1) /\ k a s1 = (Returned b, s').
Proof.
  unfold bind. destruct (m s) as [[a | e | w] s1]; intros H; try discriminate.
  exists a, s1. split; [reflexivity | exact H].
Qed.

Lemma bind_step {S A B} (m : M S A) (k : A -> M S B) s a s1 :
  m s = (Returned a, s1) -> bind m k s = k a s1.
Proof. intros H. unfold bind. rewrite H. reflexivity. Qed.

Lemma bind_thrown {S A B} (m : M S A) (k : A -> M S B) s e s1 :
  m s = (Thrown e, s1) -> bind m k s = (Thrown e, s1).
Proof. intros H. unfold bind. rewrite H. reflexivity. Qed.

Lemma for_each_app {S A} (body : A -> M S unit) l1 l2 s :
  for_each body (l1 ++ l2) s
  = bind (for_each body l1) (fun _ => for_each body l2) s.
Proof.
  revert s. induction l1 as [| a l1 IH]; intros s; simpl.
  - reflexivity.
  - unfold bind in *. destruct (body a s) as [[[] | e | w] s1]; try reflexivity.
    apply IH.
Qed.

(** ** Text files *)

Lemma readline_returned f l f' :
  readline f = (Returned l, f') ->
  failed f = false /\ nth_error (content f) (cursor f) = Some l
  /\ f' = set_cursor (S (cursor f)) f.
Proof.
  unfold readline. destruct (failed f); [discriminate |].
  destruct (nth_error (content f) (cursor f)) as [l0 |]; intros H; inversion H.
  subst. auto.
Qed.

Lemma readline_at f l :
  failed f = false -> nth_error (content f) (cursor f) = Some l ->
  readline f = (Returned l, set_cursor (S (cursor f)) f).
Proof. intros Hf Hn. unfold readline. rewrite Hf, Hn. reflexivity. Qed.

Lemma readlines_returned n f ls f' :
  readlines n f = (Returned ls, f') ->
  failed f = false /\ n <= remaining f
  /\ ls = firstn n (skipn (cursor f) (content f))
  /\ f' = set_cursor (cursor f + n) f.
Proof.
  unfold readlines. destruct (failed f); [discriminate |].
  destruct (Nat.leb_spec n (remaining f)) as [Hle | Hgt]; intros H; inversion H.
  subst. auto.
Qed.

Lemma readlines_at n f :
  failed f = false -> n <= remaining f ->
  readlines n f
  = (Returned (firstn n (skipn (cursor f) (content f))), set_cursor (cursor f + n) f).
Proof.
  intros Hf Hn. unfold readlines. rewrite Hf.
  destruct (Nat.leb_spec n (remaining f)) as [Hle | Hgt]; [reflexivity | lia].
Qed.

Lemma readlines_length n f ls f' :
  readlines n f = (Returned ls, f') -> List.length ls = n.
Proof.
  intros H. apply readlines_returned in H as (_ & Hn & -> & _).
  unfold remaining in Hn. rewrite length_firstn, length_skipn. lia.
Qed.

(** ** The state of a read *)

Lemma on_file_eq {A} (m : M TextFile A) g fr :
  on_file m (g, fr) = (fst (m (file_ g)), (set_file (snd (m (file_ g))) g, fr)).
Proof. unfold on_file, zoom. cbn [fst snd]. destruct (m (file_ g)); reflexivity. Qed.

Lemma on_file_returned {A} (m : M TextFile A) g fr a s' :
  on_file m (g, fr) = (Returned a, s') ->
  exists f', m (file_ g) = (Returned a, f') /\ s' = (set_file f' g, fr).
Proof.
  rewrite on_file_eq. destruct (m (file_ g)) as [r f']. cbn [fst snd].
  intros H. inversion H. subst. eauto.
Qed.

Lemma on_frame_eq u g fr : on_frame u (g, fr) = (Returned tt, (g, u fr)).
Proof. reflexivity. Qed.

Lemma on_residues_eq u g fr :
  on_residues u (g, fr) = (Returned tt, (set_residues (u (residues_ g)) g, fr)).
Proof. reflexivity. Qed.

Lemma try_catch_returned {S A} (m : M S A) h s a s' :
  try_catch m h s = (Returned a, s') ->
  m s = (Returned a, s')
  \/ exists e s1, m s = (Thrown e, s1) /\ h e s1 = (Returned a, s').
Proof.
  unfold try_catch. destruct (m s) as [[a0 | e | w] s1]; intros H.
  - left. exact H.
  - right. eauto.
  - discriminate.
Qed.

Section ReadProperties.
Context {E : Env}.

Lemma parse_as_returned {S A} (p : string -> parsed A) l (s : S) a s' :
  parse_as p l s = (Returned a, s') -> p l = Parsed a /\ s' = s.
Proof.
  unfold parse_as. destruct (p l); intros H; inversion H; auto.
Qed.

Lemma parse_as_parsed {S A} (p : string -> parsed A) l (s : S) a :
  p l = Parsed a -> parse_as p l s = (Returned a, s).
Proof. intros H. unfold parse_as. rewrite H. reflexivity. Qed.

(** *** The header *)

Lemma read_header_returned g fr n s' :
  read_header (g, fr) = (Returned n, s') ->
  exists title line,
    failed (file_ g) = false
    /\ nth_error (content (file_ g)) (cursor (file_ g)) = Some title
    /\ nth_error (content (file_ g)) (S (cursor (file_ g))) = Some line
    /\ parse_size_t line = Parsed n
    /\ s' = (after_header g, Frame_set "name" (Property_string title) fr).
Proof.
  unfold read_header. intros H.
  apply try_catch_returned in H as [H | (e & s1 & _ & H)].
  - apply bind_returned in H as (title & s1 & H1 & H).
    apply on_file_returned in H1 as (f1 & H1 & ->).
    apply bind_returned in H as ([] & s2 & H2 & H).
    rewrite on_frame_eq in H2. inversion H2; subst s2; clear H2.
    apply bind_returned in H as (line & s3 & H3 & H).
    apply on_file_returned in H3 as (f2 & H3 & ->).
    apply parse_as_returned in H as (Hp & ->).
    apply readline_returned in H1 as (Hf & Ht & ->).
    apply readline_returned in H3 as (_ & Hl & ->).
    exists title, line. repeat split; auto.
  - destruct (catches GenericError (kind e)); discriminate.
Qed.

Lemma read_header_at g fr title line n :
  failed (file_ g) = false ->
  nth_error (content (file_ g)) (cursor (file_ g)) = Some title ->
  nth_error (content (file_ g)) (S (cursor (file_ g))) = Some line ->
  parse_size_t line = Parsed n ->
  read_header (g, fr)
  = (Returned n, (after_header g, Frame_set "name" (Property_string title) fr)).
Proof.
  intros Hf Ht Hl Hp. unfold read_header, try_catch.
  erewrite bind_step;
    [| rewrite on_file_eq, (readline_at _ _ Hf Ht); cbn [fst snd]; reflexivity].
  erewrite bind_step; [| apply on_frame_eq].
  erewrite bind_step;
    [| rewrite on_file_eq; cbn [file_ set_file];
       rewrite (readline_at (set_cursor (S (cursor (file_ g))) (file_ g)) line Hf Hl);
       cbn [fst snd]; reflexivity].
  rewrite (parse_as_parsed _ _ _ _ Hp). reflexivity.
Qed.

(** *** The atom lines *)

Lemma Frame_size_add_atom a p v fr :
  Frame_size (Frame_add_atom a p v fr) - 1 = Frame_size fr.
Proof.
  unfold Frame_size, Frame_add_atom. cbn [positions_].
  rewrite length_app. cbn [List.length]. lia.
Qed.

Lemma read_atom_tail resid resname g fr :
  (if (resid =? SIZE_MAX)%N then ret tt
   else
     size <- gets (fun s : ReadState => Frame_size (snd s)) ;;
     known <- gets (fun s : ReadState => map_find resid (residues_ (fst s))) ;;
     match known with
     | None =>
         on_residues (map_insert resid
                        (Residue_add_atom (size - 1) (Residue_new resname resid)))
     | Some _ => on_residues (map_update resid (Residue_add_atom (size - 1)))
     end) (g, fr)
  = (Returned tt,
     (set_residues
        (if (resid =? SIZE_MAX)%N then residues_ g
         else match map_find resid (residues_ g) with
              | None =>
                  map_insert resid
                    (Residue_add_atom (Frame_size fr - 1) (Residue_new resname resid))
                    (residues_ g)
              | Some _ =>
                  map_update resid (Residue_add_atom (Frame_size fr - 1)) (residues_ g)
              end) g, fr)).
Proof.
  destruct (resid =? SIZE_MAX)%N.
  - destruct g; reflexivity.
  - unfold bind, gets. cbn [fst snd].
    destruct (map_find resid (residues_ g)); reflexivity.
Qed.

Lemma read_atom_returned line g fr s' :
  read_atom line (g, fr) = (Returned tt, s') ->
  44 <= String.length line
  /\ exists p v,
      line_position line = Some p /\ line_velocity line = Some v
      /\ s' = (set_residues (line_residues line (Frame_size fr) (residues_ g)) g,
               Frame_add_atom (line_atom line) p v fr).
Proof.
  unfold read_atom.
  destruct (Nat.ltb_spec (String.length line) 44) as [Hlt | Hge]; [discriminate |].
  intros H. split; [exact Hge |].
  apply bind_returned in H as (x & s1 & Hx & H).
  apply parse_as_returned in Hx as (Hx & ->).
  apply bind_returned in H as (y & s1 & Hy & H).
  apply parse_as_returned in Hy as (Hy & ->).
  apply bind_returned in H as (z & s1 & Hz & H).
  apply parse_as_returned in Hz as (Hz & ->).
  apply bind_returned in H as ([] & s1 & Hadd & H).
  unfold line_position, line_velocity. rewrite Hx, Hy, Hz.
  destruct (68 <=? String.length line).
  - apply bind_returned in Hadd as (vx & s2 & Hvx & Hadd).
    apply parse_as_returned in Hvx as (Hvx & ->).
    apply bind_returned in Hadd as (vy & s2 & Hvy & Hadd).
    apply parse_as_returned in Hvy as (Hvy & ->).
    apply bind_returned in Hadd as (vz & s2 & Hvz & Hadd).
    apply parse_as_returned in Hvz as (Hvz & ->).
    rewrite on_frame_eq in Hadd. inversion Hadd; subst s1; clear Hadd.
    rewrite Hvx, Hvy, Hvz. do 2 eexists. split; [reflexivity |]. split; [reflexivity |].
    rewrite read_atom_tail in H. rewrite Frame_size_add_atom in H.
    inversion H. unfold line_residues.
    destruct (parse_size_t (substring 0 5 line)); [reflexivity |].
    destruct g; reflexivity.
  - rewrite on_frame_eq in Hadd. inversion Hadd; subst s1; clear Hadd.
    do 2 eexists. split; [reflexivity |]. split; [reflexivity |].
    rewrite read_atom_tail in H. rewrite Frame_size_add_atom in H.
    inversion H. unfold line_residues.
    destruct (parse_size_t (substring 0 5 line)); [reflexivity |].
    destruct g; reflexivity.
Qed.


Lemma read_atoms_returned lines :
  forall g fr s',
    for_each read_atom lines (g, fr) = (Returned tt, s') ->
    exists parsed,
      map parsed_atom lines = map Some parsed
      /\ snd s' = fold_left add_parsed parsed fr
      /\ file_ (fst s') = file_ g
      /\ steps_positions_ (fst s') = steps_positions_ g.
Proof.
  induction lines as [| line lines IH]; intros g fr s' H.
  - inversion H. exists []. auto.
  - cbn [for_each] in H. apply bind_returned in H as ([] & s1 & H1 & H).
    apply read_atom_returned in H1 as (Hlen & p & v & Hp & Hv & ->).
    apply IH in H as (parsed & Hmap & Hfr & Hfile & Hsteps).
    exists ((line_atom line, p, v) :: parsed). cbn [map fold_left].
    repeat split; auto.
    unfold parsed_atom at 1.
    destruct (Nat.ltb_spec (String.length line) 44) as [Hlt | _]; [lia |].
    rewrite Hp, Hv, Hmap. reflexivity.
Qed.


Lemma positions_add_parsed parsed fr :
  positions_ (fold_left add_parsed parsed fr)
  = positions_ fr ++ map (fun a => snd (fst a)) parsed.
Proof.
  revert fr. induction parsed as [| a parsed IH]; intros fr; cbn [fold_left map].
  - symmetry. apply app_nil_r.
  - rewrite IH. unfold add_parsed, Frame_add_atom. cbn [positions_].
    rewrite <- app_assoc. reflexivity.
Qed.

Lemma velocities_add_parsed parsed fr :
  velocities_ (fold_left add_parsed parsed fr)
  = option_map (fun vs => vs ++ map snd parsed) (velocities_ fr).
Proof.
  revert fr. induction parsed as [| a parsed IH]; intros fr; cbn [fold_left map].
  - destruct (velocities_ fr); cbn [option_map]; [rewrite app_nil_r |]; reflexivity.
  - rewrite IH. unfold add_parsed, Frame_add_atom. cbn [velocities_].
    destruct (velocities_ fr); cbn [option_map]; [rewrite <- app_assoc |]; reflexivity.
Qed.

Lemma atoms_add_parsed parsed fr :
  atoms (topology_ (fold_left add_parsed parsed fr))
  = atoms (topology_ fr) ++ map (fun a => fst (fst a)) parsed.
Proof.
  revert fr. induction parsed as [| a parsed IH]; intros fr; cbn [fold_left map].
  - symmetry. apply app_nil_r.
  - rewrite IH. unfold add_parsed, Frame_add_atom. cbn [topology_ atoms].
    rewrite <- app_assoc. reflexivity.
Qed.

Lemma others_add_parsed parsed fr :
  cell_ (fold_left add_parsed parsed fr) = cell_ fr
  /\ properties_ (fold_left add_parsed parsed fr) = properties_ fr
  /\ step_ (fold_left add_parsed parsed fr) = step_ fr.
Proof.
  revert fr. induction parsed as [| a parsed IH]; intros fr; cbn [fold_left].
  - auto.
  - destruct (IH (add_parsed fr a)) as (H1 & H2 & H3). rewrite H1, H2, H3. auto.
Qed.

(** *** The box line *)

Lemma assert_returned {S} (c : M S bool) w s s' :
  assert_ c w s = (Returned tt, s') ->
  (NDEBUG = true /\ s' = s) \/ (NDEBUG = false /\ c s = (Returned true, s')).
Proof.
  unfold assert_. destruct NDEBUG.
  - intros H. inversion H. auto.
  - intros H. apply bind_returned in H as (b & s1 & Hc & H).
    destruct b; [| discriminate]. inversion H; subst. auto.
Qed.

Lemma same_but_cell_refl fr : same_but_cell fr fr.
Proof. destruct fr; reflexivity. Qed.

Lemma same_but_cell_set c fr : same_but_cell fr (Frame_set_cell c fr).
Proof. reflexivity. Qed.

Lemma read_box_returned g fr s' :
  read_box (g, fr) = (Returned tt, s') ->
  exists box,
    failed (file_ g) = false
    /\ nth_error (content (file_ g)) (cursor (file_ g)) = Some box
    /\ fst s' = set_file (set_cursor (S (cursor (file_ g))) (file_ g)) g
    /\ same_but_cell fr (snd s')
    /\ (forall b0 b1 b2,
          split box " "%char = [b0; b1; b2] ->
          exists a b c,
            parse_double b0 = Parsed a /\ parse_double b1 = Parsed b
            /\ parse_double b2 = Parsed c
            /\ cell_ (snd s') = UnitCell_orthorhombic (a * 10) (b * 10) (c * 10))
    /\ (forall b0 b1 b2 b3 b4 b5 b6 b7 b8,
          split box " "%char = [b0; b1; b2; b3; b4; b5; b6; b7; b8] ->
          exists v1_x v2_y v3_z v2_x v3_x v3_y,
            parse_double b0 = Parsed v1_x /\ parse_double b1 = Parsed v2_y
            /\ parse_double b2 = Parsed v3_z /\ parse_double b5 = Parsed v2_x
            /\ parse_double b7 = Parsed v3_x /\ parse_double b8 = Parsed v3_y
            /\ cell_ (snd s')
               = UnitCell_triclinic
                   (mkMatrix3D (v1_x * 10) (v2_x * 10) (v3_x * 10)
                               0           (v2_y * 10) (v3_y * 10)
                               0           0           (v3_z * 10)))
    /\ (List.length (split box " "%char) <> 3 ->
        List.length (split box " "%char) <> 9 -> cell_ (snd s') = cell_ fr).
Proof.
  unfold read_box. intros H.
  apply bind_returned in H as (box & s1 & Hb & H).
  apply on_file_returned in Hb as (f1 & Hb & ->).
  apply readline_returned in Hb as (Hf & Hb & ->).
  exists box. split; [exact Hf |]. split; [exact Hb |].
  destruct (split box " "%char)
    as [| b0 [| b1 [| b2 [| b3 [| b4 [| b5 [| b6 [| b7 [| b8 [| b9 l]]]]]]]]]].
  1-3, 5-9, 11:
    inversion H; cbn [fst snd]; split; [reflexivity |];
    split; [apply same_but_cell_refl |];
    split; [intros ? ? ? Hs; discriminate Hs |];
    split; [intros ? ? ? ? ? ? ? ? ? Hs; discriminate Hs |];
    intros _ _; reflexivity.
  - apply bind_returned in H as (a & s1 & Ha & H).
    apply parse_as_returned in Ha as (Ha & ->).
    apply bind_returned in H as (b & s1 & Hpb & H).
    apply parse_as_returned in Hpb as (Hpb & ->).
    apply bind_returned in H as (c & s1 & Hc & H).
    apply parse_as_returned in Hc as (Hc & ->).
    rewrite on_frame_eq in H. inversion H. cbn [fst snd].
    split; [reflexivity |]. split; [apply same_but_cell_set |].
    split; [| split].
    + intros ? ? ? Hs. inversion Hs; subst. exists a, b, c. auto.
    + intros ? ? ? ? ? ? ? ? ? Hs. discriminate Hs.
    + intros Hn _. exfalso. apply Hn. reflexivity.
  - apply bind_returned in H as (v1_x & s1 & H0 & H).
    apply parse_as_returned in H0 as (H0 & ->).
    apply bind_returned in H as (v2_y & s1 & H1 & H).
    apply parse_as_returned in H1 as (H1 & ->).
    apply bind_returned in H as (v3_z & s1 & H2 & H).
    apply parse_as_returned in H2 as (H2 & ->).
    apply bind_returned in H as ([] & s1 & H3 & H).
    assert (s1 = (set_file (set_cursor (S (cursor (file_ g))) (file_ g)) g, fr)) as ->.
    { apply assert_returned in H3 as [(_ & ->) | (_ & H3)]; [reflexivity |].
      apply bind_returned in H3 as (d & s2 & H3 & Hr).
      apply parse_as_returned in H3 as (_ & ->). inversion Hr. reflexivity. }
    apply bind_returned in H as ([] & s1 & H4 & H).
    assert (s1 = (set_file (set_cursor (S (cursor (file_ g))) (file_ g)) g, fr)) as ->.
    { apply assert_returned in H4 as [(_ & ->) | (_ & H4)]; [reflexivity |].
      apply bind_returned in H4 as (d & s2 & H4 & Hr).
      apply parse_as_returned in H4 as (_ & ->). inversion Hr. reflexivity. }
    apply bind_returned in H as (v2_x & s1 & H5 & H).
    apply parse_as_returned in H5 as (H5 & ->).
    apply bind_returned in H as ([] & s1 & H6 & H).
    assert (s1 = (set_file (set_cursor (S (cursor (file_ g))) (file_ g)) g, fr)) as ->.
    { apply assert_returned in H6 as [(_ & ->) | (_ & H6)]; [reflexivity |].
      apply bind_returned in H6 as (d & s2 & H6 & Hr).
      apply parse_as_returned in H6 as (_ & ->). inversion Hr. reflexivity. }
    apply bind_returned in H as (v3_x & s1 & H7 & H).
    apply parse_as_returned in H7 as (H7 & ->).
    apply bind_returned in H as (v3_y & s1 & H8 & H).
    apply parse_as_returned in H8 as (H8 & ->).
    rewrite on_frame_eq in H. inversion H. cbn [fst snd].
    split; [reflexivity |]. split; [apply same_but_cell_set |].
    split; [| split].
    + intros ? ? ? Hs. discriminate Hs.
    + intros ? ? ? ? ? ? ? ? ? Hs. inversion Hs; subst.
      exists v1_x, v2_y, v3_z, v2_x, v3_x, v3_y. repeat split; auto.
    + intros _ Hn. exfalso. apply Hn. reflexivity.
Qed.

(** *** A whole step *)

Lemma add_residues_eq rs g fr :
  for_each (fun r : N * Residue => on_frame (Frame_add_residue (snd r))) rs (g, fr)
  = (Returned tt, (g, add_residues rs fr)).
Proof.
  revert fr. induction rs as [| r rs IH]; intros fr; cbn [for_each].
  - reflexivity.
  - erewrite bind_step; [| apply on_frame_eq]. apply IH.
Qed.

Lemma add_residues_keeps rs fr :
  positions_ (add_residues rs fr) = positions_ fr
  /\ velocities_ (add_residues rs fr) = velocities_ fr
  /\ atoms (topology_ (add_residues rs fr)) = atoms (topology_ fr)
  /\ cell_ (add_residues rs fr) = cell_ fr
  /\ properties_ (add_residues rs fr) = properties_ fr
  /\ step_ (add_residues rs fr) = step_ fr.
Proof.
  unfold add_residues. revert fr.
  induction rs as [| r rs IH]; intros fr; cbn [fold_left].
  - repeat split.
  - destruct (IH (Frame_add_residue (snd r) fr)) as (H1 & H2 & H3 & H4 & H5 & H6).
    rewrite H1, H2, H3, H4, H5, H6. repeat split.
Qed.

Lemma cleared_empty title fr :
  positions_ (cleared title fr) = []
  /\ velocities_ (cleared title fr) = Some []
  /\ atoms (topology_ (cleared title fr)) = []
  /\ cell_ (cleared title fr) = cell_ fr
  /\ properties_ (cleared title fr)
     = property_set "name" (Property_string title) (properties_ fr)
  /\ step_ (cleared title fr) = step_ fr.
Proof.
  unfold cleared, Frame_reserve, Frame_resize, Frame_add_velocities.
  cbn [Frame_set velocities_].
  destruct (velocities_ fr) eqn:Hv; cbn; rewrite ?Hv; repeat split.
Qed.

Lemma read_returned g fr g' fr' :
  read (g, fr) = (Returned tt, (g', fr')) ->
  exists title line n parsed s1 s2,
    failed (file_ g) = false
    /\ nth_error (content (file_ g)) (cursor (file_ g)) = Some title
    /\ nth_error (content (file_ g)) (S (cursor (file_ g))) = Some line
    /\ parse_size_t line = Parsed n
    /\ N.to_nat n + 2 <= remaining (file_ g)
    /\ map parsed_atom
         (firstn (N.to_nat n) (skipn (2 + cursor (file_ g)) (content (file_ g))))
       = map Some parsed
    /\ read_box s1 = (Returned tt, s2)
    /\ file_ (fst s1) = set_cursor (2 + cursor (file_ g) + N.to_nat n) (file_ g)
    /\ steps_positions_ (fst s1) = steps_positions_ g
    /\ snd s1 = fold_left add_parsed parsed (cleared title fr)
    /\ g' = fst s2
    /\ fr' = add_residues (residues_ (fst s2)) (snd s2).
Proof.
  unfold read. intros H.
  apply bind_returned in H as (n & s & Hh & H).
  apply read_header_returned in Hh as (title & line & Hf & Ht & Hl & Hp & ->).
  apply bind_returned in H as ([] & s & H1 & H).
  rewrite on_residues_eq in H1. inversion H1; subst s; clear H1.
  apply bind_returned in H as ([] & s & H1 & H).
  rewrite on_frame_eq in H1. inversion H1; subst s; clear H1.
  apply bind_returned in H as ([] & s & H1 & H).
  rewrite on_frame_eq in H1. inversion H1; subst s; clear H1.
  apply bind_returned in H as ([] & s & H1 & H).
  rewrite on_frame_eq in H1. inversion H1; subst s; clear H1.
  apply bind_returned in H as (lines & s & H1 & H).
  apply on_file_returned in H1 as (f1 & H1 & ->).
  apply readlines_returned in H1 as (_ & Hn & -> & ->).
  apply bind_returned in H as ([] & s1 & H1 & H).
  apply read_atoms_returned in H1 as (parsed & Hmap & Hfr & Hfile & Hsteps).
  apply bind_returned in H as ([] & s2 & H2 & H).
  apply bind_returned in H as (rs & s3 & H3 & H).
  unfold gets in H3. inversion H3; subst rs s3; clear H3.
  destruct s2 as [g2 fr2]. rewrite add_residues_eq in H. inversion H; subst g' fr'.
  exists title, line, n, parsed, s1, (g2, fr2).
  unfold remaining in *.
  cbn [fst snd file_ set_file set_residues after_header cursor set_cursor content] in *.
  assert (S (cursor (file_ g)) < List.length (content (file_ g)))
    by (apply nth_error_Some; congruence).
  repeat split; auto; try lia.
Qed.

Lemma atom_lines_nth f n k line :
  nth_error (atom_lines f n) k = Some line ->
  nth_error (content f) (2 + cursor f + k) = Some line /\ k < N.to_nat n.
Proof.
  unfold atom_lines. rewrite nth_error_firstn.
  destruct (Nat.ltb_spec k (N.to_nat n)) as [Hlt | Hge]; [| discriminate].
  rewrite nth_error_skipn. auto.
Qed.

Lemma nth_atom_lines f n k line :
  nth_error (content f) (2 + cursor f + k) = Some line -> k < N.to_nat n ->
  nth_error (atom_lines f n) k = Some line.
Proof.
  intros H Hk. unfold atom_lines. rewrite nth_error_firstn.
  destruct (Nat.ltb_spec k (N.to_nat n)) as [Hlt | Hge]; [| lia].
  rewrite nth_error_skipn. exact H.
Qed.

Lemma map_some_nth {A B} (f : A -> option B) l l' k x :
  map f l = map Some l' -> nth_error l k = Some x ->
  exists y, nth_error l' k = Some y /\ f x = Some y.
Proof.
  intros Hmap Hx.
  assert (H : nth_error (map f l) k = nth_error (map Some l') k) by (rewrite Hmap; reflexivity).
  rewrite !nth_error_map, Hx in H. cbn [option_map] in H.
  destruct (nth_error l' k) as [y |]; [| discriminate].
  inversion H. eauto.
Qed.

(** The atoms of a frame that [read] returned are those of the atom
    lines, in their order. *)
Lemma read_frame g fr g' fr' :
  read (g, fr) = (Returned tt, (g', fr')) ->
  exists line n parsed,
    nth_error (content (file_ g)) (S (cursor (file_ g))) = Some line
    /\ parse_size_t line = Parsed n
    /\ map parsed_atom (atom_lines (file_ g) n) = map Some parsed
    /\ List.length parsed = N.to_nat n
    /\ positions_ fr' = map (fun a => snd (fst a)) parsed
    /\ velocities_ fr' = Some (map snd parsed)
    /\ atoms (topology_ fr') = map (fun a => fst (fst a)) parsed.
Proof.
  intros H.
  apply read_returned in H
    as (title & line & n & parsed & s1 & s2 & Hf & Ht & Hl & Hp & Hn & Hmap
        & Hbox & Hfile & Hsteps & Hfr & -> & ->).
  apply read_box_returned in Hbox as (box & _ & _ & _ & Hsame & _).
  exists line, n, parsed.
  destruct (add_residues_keeps (residues_ (fst s2)) (snd s2)) as (K1 & K2 & K3 & _).
  destruct (cleared_empty title fr) as (C1 & C2 & C3 & _).
  rewrite K1, K2, K3, Hsame. cbn [Frame_set_cell positions_ velocities_ topology_].
  rewrite Hfr, positions_add_parsed, velocities_add_parsed, atoms_add_parsed.
  rewrite C1, C2, C3. cbn [option_map app].
  repeat split; auto.
  assert (Hlen : List.length (map parsed_atom (atom_lines (file_ g) n))
                 = List.length (map Some parsed)) by (unfold atom_lines; rewrite Hmap; reflexivity).
  rewrite !length_map in Hlen. rewrite <- Hlen. unfold atom_lines.
  rewrite length_firstn, length_skipn. unfold remaining in Hn. lia.
Qed.

(** Where a read that returns leaves the format. *)
Lemma read_moves g fr g' fr' :
  read (g, fr) = (Returned tt, (g', fr')) ->
  exists title line n m,
    failed (file_ g) = false
    /\ nth_error (content (file_ g)) (cursor (file_ g)) = Some title
    /\ nth_error (content (file_ g)) (S (cursor (file_ g))) = Some line
    /\ parse_size_t line = Parsed n
    /\ N.to_nat n + 3 <= remaining (file_ g)
    /\ g' = mkGROFormat (set_cursor (3 + cursor (file_ g) + N.to_nat n) (file_ g))
                        (steps_positions_ g) m.
Proof.
  intros H.
  apply read_returned in H
    as (title & line & n & parsed & [g1 fr1] & s2 & Hf & Ht & Hl & Hp & Hn & Hmap
        & Hbox & Hfile & Hsteps & Hfr & -> & ->).
  apply read_box_returned in Hbox as (box & _ & Hb & Hg & _).
  cbn [fst snd] in *. rewrite Hfile in Hb. cbn [content cursor set_cursor] in Hb.
  assert (Hlt : 2 + cursor (file_ g) + N.to_nat n < List.length (content (file_ g)))
    by (apply nth_error_Some; congruence).
  exists title, line, n, (residues_ g1). unfold remaining.
  repeat split; auto; try lia.
  rewrite Hg. unfold set_file. rewrite Hfile, Hsteps.
  unfold set_cursor. cbn [path content cursor failed].
  replace (S (2 + cursor (file_ g) + N.to_nat n))
    with (3 + cursor (file_ g) + N.to_nat n) by lia.
  reflexivity.
Qed.

(** A read that returns does not depend on the residues that the format
    kept from the step before. *)
Lemma read_ignores_residues g fr s' m :
  read (g, fr) = (Returned tt, s') ->
  read (set_residues m g, fr) = (Returned tt, s').
Proof.
  unfold read. intros H.
  apply bind_returned in H as (n & s & Hh & H).
  apply read_header_returned in Hh as (title & line & Hf & Ht & Hl & Hp & ->).
  erewrite bind_step;
    [| apply (read_header_at (set_residues m g) fr title line n); assumption].
  apply bind_returned in H as ([] & s & H1 & H).
  rewrite on_residues_eq in H1. inversion H1; subst s; clear H1.
  erewrite bind_step; [| apply on_residues_eq].
  exact H.
Qed.

(** *** Indexing the steps *)

Lemma forward_at f title line n :
  failed f = false ->
  nth_error (content f) (cursor f) = Some title ->
  nth_error (content f) (S (cursor f)) = Some line ->
  parse_size_t line = Parsed n ->
  N.to_nat (wrap64 (n + 1)) + 2 <= remaining f ->
  forward f = (Returned true, set_cursor (2 + cursor f + N.to_nat (wrap64 (n + 1))) f).
Proof.
  intros Hf Ht Hl Hp Hn. unfold forward. rewrite Hf.
  erewrite bind_step.
  2:{ unfold try_catch. erewrite bind_step; [| apply readline_at; eassumption].
      erewrite bind_step; [| apply readline_at; [exact Hf | exact Hl]].
      erewrite bind_step; [| apply parse_as_parsed; exact Hp].
      reflexivity. }
  cbv beta iota. erewrite bind_step.
  2:{ unfold try_catch. erewrite bind_step.
      2:{ apply readlines_at; [exact Hf |]. unfold remaining in *. cbn. lia. }
      reflexivity. }
  unfold ret. do 2 f_equal.
Qed.

(** A read that returns starts where [forward] finds a step, and both
    leave the file at the same line. *)
Lemma read_implies_forward g fr g' fr' :
  read (g, fr) = (Returned tt, (g', fr')) ->
  (N.of_nat (List.length (content (file_ g))) < 2 ^ 64)%N ->
  forward (file_ g) = (Returned true, file_ g').
Proof.
  intros H Hsize.
  apply read_moves in H as (title & line & n & m & Hf & Ht & Hl & Hp & Hn & ->).
  unfold remaining in Hn.
  assert (Hw : wrap64 (n + 1) = (n + 1)%N).
  { unfold wrap64. apply N.mod_small. lia. }
  rewrite (forward_at _ title line n Hf Ht Hl Hp).
  - rewrite Hw. cbn [file_]. unfold set_cursor. do 2 f_equal. lia.
  - rewrite Hw. unfold remaining. lia.
Qed.

(** What [forward] can do on a file in a good state. *)
Lemma forward_cases f :
  failed f = false ->
  (exists f',
      forward f = (Returned false, f')
      /\ content f' = content f /\ path f' = path f /\ cursor f <= cursor f'
      /\ (failed f' = true
          \/ (failed f' = false /\ cursor f' = 2 + cursor f
              /\ 2 + cursor f <= List.length (content f))))
  \/ (exists k,
         forward f = (Returned true, set_cursor (2 + cursor f + k) f)
         /\ 2 + cursor f + k <= List.length (content f))
  \/ (exists e f', forward f = (Thrown e, f') /\ kind e = FormatError).
Proof.
  intros Hf. unfold forward. rewrite Hf.
  unfold bind, try_catch, parse_as, ret, throw, readline.
  rewrite Hf.
  destruct (nth_error (content f) (cursor f)) as [title |] eqn:Ht.
  2:{ left. eexists. cbn. split; [reflexivity |]. auto. }
  cbn [failed set_cursor content cursor]. rewrite Hf.
  destruct (nth_error (content f) (S (cursor f))) as [line |] eqn:Hl.
  2:{ left. eexists. split; [reflexivity |]. cbn. repeat split; auto. }
  assert (Hlen : S (cursor f) < List.length (content f))
    by (apply nth_error_Some; congruence).
  destruct (parse_size_t line) as [n | why].
  2:{ left. eexists. cbn. split; [reflexivity |]. repeat split; auto.
      right. repeat split; auto. }
  unfold readlines, remaining. cbn [failed set_cursor content cursor]. rewrite Hf.
  match goal with
  | |- context [Nat.leb ?a ?b] => destruct (Nat.leb_spec a b) as [Hle | Hgt]
  end.
  - right. left. exists (N.to_nat (wrap64 (n + 1))). cbn. split; [reflexivity | lia].
  - right. right. do 2 eexists. cbn. split; reflexivity.
Qed.

Lemma index_steps_total fuel :
  forall g, turns_left (file_ g) < fuel -> exists r, index_steps fuel g = Some r.
Proof.
  induction fuel as [| fuel IH]; intros g Hfuel; [lia |].
  cbn [index_steps]. unfold eof, tellg, turns_left in *.
  destruct (failed (file_ g)) eqn:Hf; [eauto |].
  destruct (Z.eqb_spec (Z.of_nat (cursor (file_ g))) (-1)) as [Hneg | _]; [lia |].
  destruct (forward_cases (file_ g) Hf)
    as [(f' & Hfw & Hc & _ & _ & Hcase) | [(k & Hfw & Hk) | (e & f' & Hfw & _)]];
    rewrite Hfw.
  - apply IH. cbn [file_ set_file]. unfold turns_left.
    destruct Hcase as [-> | (-> & Hcur & Hle)]; [lia |]. rewrite Hc, Hcur. lia.
  - apply IH. cbn [file_ set_file push_position]. unfold turns_left.
    cbn [failed set_cursor content cursor]. rewrite Hf. lia.
  - eauto.
Qed.

Lemma file_at_self f : failed f = false -> file_at f (cursor f) = f.
Proof. intros H. destruct f. cbn in *. subst. reflexivity. Qed.

Lemma file_at_eq f f' p :
  path f' = path f -> content f' = content f -> file_at f' p = file_at f p.
Proof. intros H1 H2. unfold file_at. rewrite H1, H2. reflexivity. Qed.

(** The positions that the loop of the constructor records: each one is
    a line where [forward] found a step, and they increase. *)
Lemma index_steps_positions fuel :
  forall g g',
    index_steps fuel g = Some (Returned tt, g') ->
    exists new,
      steps_positions_ g' = steps_positions_ g ++ new
      /\ content (file_ g') = content (file_ g)
      /\ path (file_ g') = path (file_ g)
      /\ residues_ g' = residues_ g
      /\ StronglySorted Z.lt new
      /\ Forall (fun p =>
                   (Z.of_nat (cursor (file_ g)) <= p)%Z
                   /\ fst (forward (file_at (file_ g) (Z.to_nat p))) = Returned true)
                new.
Proof.
  induction fuel as [| fuel IH]; intros g g' H; cbn [index_steps] in H;
    unfold eof, tellg in H; destruct (failed (file_ g)) eqn:Hf.
  1, 3: inversion H; subst g'; exists []; rewrite app_nil_r;
        repeat split; constructor.
  - discriminate.
  - destruct (Z.eqb_spec (Z.of_nat (cursor (file_ g))) (-1)) as [Hneg | _]; [lia |].
    destruct (forward_cases (file_ g) Hf)
      as [(f' & Hfw & Hc & Hp & Hcur & _) | [(k & Hfw & Hk) | (e & f' & Hfw & _)]];
      rewrite Hfw in H.
    + apply IH in H as (new & Hs & Hc' & Hp' & Hr & Hsorted & Hall).
      cbn [file_ set_file steps_positions_ residues_] in *.
      exists new. repeat split; try congruence.
      eapply Forall_impl; [| exact Hall]. cbv beta. intros p (Hle & Hfwd).
      split; [lia |]. rewrite <- (file_at_eq (file_ g) f'); auto.
    + apply IH in H as (new & Hs & Hc' & Hp' & Hr & Hsorted & Hall).
      cbn [file_ set_file push_position steps_positions_ residues_
           content path cursor set_cursor] in *.
      exists (Z.of_nat (cursor (file_ g)) :: new).
      rewrite Hs, <- app_assoc. repeat split; auto.
      * constructor; [exact Hsorted |].
        eapply Forall_impl; [| exact Hall]. cbv beta. intros p (Hle & _). lia.
      * constructor.
        -- split; [lia |]. rewrite Nat2Z.id, file_at_self, Hfw; auto.
        -- eapply Forall_impl; [| exact Hall]. cbv beta. intros p (Hle & Hfwd).
           split; [lia |]. exact Hfwd.
    + discriminate.
Qed.

(** When the steps [0] to [i] can be read one after the other, the loop
    of the constructor recorded the line where each of them starts. *)
Lemma scan_follows_reads i :
  forall fuel g g' gR fr s',
    index_steps fuel g = Some (Returned tt, g') ->
    file_ gR = file_ g ->
    (N.of_nat (List.length (content (file_ g))) < 2 ^ 64)%N ->
    read_up_to i fr gR = (Returned tt, s') ->
    exists p gL,
      nth_error (steps_positions_ g') (List.length (steps_positions_ g) + i)
      = Some (Z.of_nat p)
      /\ read (gL, fr) = (Returned tt, s')
      /\ steps_positions_ gL = steps_positions_ gR
      /\ file_ gL = file_at (file_ g) p.
Proof.
  induction i as [| i IH]; intros fuel g g' gR fr s' Hscan Hfile Hsize Hread;
    cbn [read_up_to] in Hread.
  - destruct s' as [g1 fr1].
    pose proof (read_implies_forward _ _ _ _ Hread) as Hfw.
    rewrite Hfile in Hfw. specialize (Hfw Hsize).
    apply read_moves in Hread as Hmoves.
    destruct Hmoves as (_ & _ & _ & _ & Hf & _). rewrite Hfile in Hf.
    destruct fuel as [| fuel]; cbn [index_steps] in Hscan; unfold eof, tellg in Hscan;
      rewrite Hf in Hscan; [discriminate |].
    destruct (Z.eqb_spec (Z.of_nat (cursor (file_ g))) (-1)) as [Hneg | _]; [lia |].
    rewrite Hfw in Hscan.
    apply index_steps_positions in Hscan as (new & Hs & _).
    cbn [push_position steps_positions_ set_file] in Hs.
    exists (cursor (file_ g)), gR. repeat split; auto.
    + rewrite Hs, <- app_assoc, nth_error_app2 by lia.
      replace (List.length (steps_positions_ g) + 0 - List.length (steps_positions_ g))
        with 0 by lia. reflexivity.
    + rewrite Hfile. symmetry. apply file_at_self. exact Hf.
  - destruct (read (gR, Frame_new)) as [[[] | e | w] [g1 fr1]] eqn:Hfirst;
      try discriminate.
    pose proof (read_implies_forward _ _ _ _ Hfirst) as Hfw.
    rewrite Hfile in Hfw. specialize (Hfw Hsize).
    apply read_moves in Hfirst as Hmoves.
    destruct Hmoves as (t & l & n & m & Hf & _ & _ & _ & _ & Hg1). rewrite Hfile in Hf.
    destruct fuel as [| fuel]; cbn [index_steps] in Hscan; unfold eof, tellg in Hscan;
      rewrite Hf in Hscan; [discriminate |].
    destruct (Z.eqb_spec (Z.of_nat (cursor (file_ g))) (-1)) as [Hneg | _]; [lia |].
    rewrite Hfw in Hscan.
    assert (Hc1 : content (file_ g1) = content (file_ g) /\ path (file_ g1) = path (file_ g)).
    { rewrite Hg1, Hfile. cbn. auto. }
    destruct Hc1 as (Hc1 & Hp1).
    destruct (IH fuel (push_position (Z.of_nat (cursor (file_ g))) (set_file (file_ g1) g))
                g' g1 fr s' Hscan) as (p & gL & Hnth & HreadL & HstepsL & HfileL).
    + reflexivity.
    + cbn [file_ set_file push_position]. rewrite Hc1. exact Hsize.
    + exact Hread.
    + exists p, gL. repeat split; auto.
      * rewrite <- Hnth. cbn [push_position steps_positions_ set_file].
        rewrite length_app. cbn [List.length]. f_equal. lia.
      * rewrite HstepsL, Hg1. reflexivity.
      * rewrite HfileL. cbn [file_ set_file push_position]. apply file_at_eq; auto.
Qed.

End ReadProperties.

(** ** Writing a step *)
Section WriteProperties.
Context {E : Env}.

(** *** The columns of an atom line *)

Lemma check_values_size_eq {S} values context (s : S) :
  check_values_size values 8 context s
  = if fits values then (Returned tt, s)
    else (Thrown (format_error
                    ("value in " +++ context
                     +++ " is too big for representation in GRO format")), s).
Proof.
  unfold check_values_size, fits. cbn [Nat.sub].
  destruct (_ || _); reflexivity.
Qed.

Lemma substring_length_le n : forall s, String.length (substring 0 n s) <= n.
Proof.
  induction n as [| n IH]; intros [| c s]; cbn; try lia.
  specialize (IH s). lia.
Qed.

Lemma warning_eq msg g w : warning msg (g, w) = (Returned tt, (g, w ++ [msg])).
Proof. reflexivity. Qed.

Lemma print_eq text g w :
  print text (g, w) = (Returned tt, (set_file (print_line text (file_ g)) g, w)).
Proof. reflexivity. Qed.

Lemma gro_resname_eq frame i g w :
  gro_resname frame i (g, w)
  = (Returned (resname_column frame i), (g, w ++ resname_warnings frame i)).
Proof.
  unfold gro_resname, resname_column, resname_warnings.
  destruct (residue_for_atom (topology_ frame) i) as [residue |].
  - destruct (5 <? String.length (res_name residue)).
    + erewrite bind_step; [| apply warning_eq]. reflexivity.
    + unfold ret. rewrite app_nil_r. reflexivity.
  - unfold ret. rewrite app_nil_r. reflexivity.
Qed.

Lemma gro_resid_eq frame i max_resid g w :
  gro_resid frame i max_resid (g, w)
  = (Returned (resid_column frame i max_resid, next_max_resid frame i max_resid),
     (g, w ++ resid_warnings frame i)).
Proof.
  unfold gro_resid, resid_column, resid_warnings, next_max_resid, residue_id.
  destruct (residue_for_atom (topology_ frame) i) as [[rn [value |] ra] |];
    cbn [res_id].
  - destruct (value <=? 99999)%N.
    + unfold ret. rewrite app_nil_r. reflexivity.
    + erewrite bind_step; [| apply warning_eq]. reflexivity.
  - destruct (max_resid <=? 99999)%N; unfold ret; rewrite app_nil_r; reflexivity.
  - destruct (max_resid <=? 99999)%N; unfold ret; rewrite app_nil_r; reflexivity.
Qed.

Lemma to_gro_index_eq i g w :
  to_gro_index (N.of_nat i) (g, w)
  = (Returned (index_column i), (g, w ++ index_warnings i)).
Proof.
  unfold to_gro_index, index_column, index_warnings.
  destruct (99999 <=? N.of_nat i)%N.
  - erewrite bind_step; [| apply warning_eq]. reflexivity.
  - unfold ret. rewrite app_nil_r. reflexivity.
Qed.

Lemma resname_column_length frame i :
  String.length (resname_column frame i) <= 5.
Proof.
  unfold resname_column.
  destruct (residue_for_atom (topology_ frame) i) as [residue |]; [| cbn; lia].
  destruct (Nat.ltb_spec 5 (String.length (res_name residue))).
  - apply substring_length_le.
  - assumption.
Qed.

(** One turn of the loop, for an atom whose coordinates fit. *)
Lemma write_atom_fits frame i max_resid g w :
  atom_fits frame i = true ->
  write_atom frame i max_resid (g, w)
  = (Returned (next_max_resid frame i max_resid),
     (set_file (print_line (atom_text frame i max_resid) (file_ g)) g,
      w ++ atom_warnings frame i)).
Proof.
  unfold atom_fits. intros Hfits. apply andb_prop in Hfits as (Hpos & Hvel).
  unfold write_atom.
  erewrite bind_step; [| apply gro_resname_eq].
  erewrite bind_step; [| apply gro_resid_eq].
  cbn [fst snd].
  pose proof (resname_column_length frame i) as Hlen.
  destruct (Nat.leb_spec (String.length (resname_column frame i)) 5) as [_ | Hgt]; [| lia].
  erewrite bind_step; [| reflexivity].
  fold (position_nm frame i).
  erewrite bind_step; [| rewrite check_values_size_eq, Hpos; reflexivity].
  unfold atom_text, coordinates_columns, atom_warnings.
  destruct (velocities_ frame) as [velocities |].
  - fold (velocity_nm velocities i).
    erewrite bind_step; [| rewrite check_values_size_eq, Hvel; reflexivity].
    erewrite bind_step; [| apply to_gro_index_eq].
    erewrite bind_step; [| apply print_eq].
    unfold ret. rewrite <- !app_assoc. reflexivity.
  - erewrite bind_step; [| apply to_gro_index_eq].
    erewrite bind_step; [| apply print_eq].
    unfold ret. rewrite <- !app_assoc. reflexivity.
Qed.

(** A turn of the loop returns only for an atom whose coordinates fit. *)
Lemma write_atom_returned frame i max_resid s m' s' :
  write_atom frame i max_resid s = (Returned m', s') -> atom_fits frame i = true.
Proof.
  destruct s as [g w]. unfold write_atom, atom_fits. intros H.
  apply bind_returned in H as (resname & s1 & _ & H).
  apply bind_returned in H as (ri & s2 & _ & H).
  apply bind_returned in H as ([] & s3 & _ & H).
  apply bind_returned in H as ([] & s4 & Hpos & H).
  fold (position_nm frame i) in Hpos. rewrite check_values_size_eq in Hpos.
  destruct (fits (position_nm frame i)); [| discriminate]. cbn [andb].
  destruct (velocities_ frame) as [velocities |]; [| reflexivity].
  apply bind_returned in H as ([] & s5 & Hvel & H).
  fold (velocity_nm velocities i) in Hvel. rewrite check_values_size_eq in Hvel.
  destruct (fits (velocity_nm velocities i)); [reflexivity | discriminate].
Qed.

(** *** The loop over the atoms *)

Lemma set_file_self g : set_file (file_ g) g = g.
Proof. destruct g; reflexivity. Qed.

Lemma write_atoms_fit frame indexes :
  forall max_resid g w,
    forallb (atom_fits frame) indexes = true ->
    write_atoms frame indexes max_resid (g, w)
    = (Returned (max_resid_after frame indexes max_resid),
       (set_file (print_all (atom_texts frame indexes max_resid) (file_ g)) g,
        w ++ flat_map (atom_warnings frame) indexes)).
Proof.
  induction indexes as [| i rest IH]; intros max_resid g w Hfit.
  - cbn. rewrite app_nil_r, set_file_self. reflexivity.
  - cbn [forallb] in Hfit. apply andb_prop in Hfit as (Hi & Hrest).
    cbn [write_atoms]. erewrite bind_step; [| apply write_atom_fits; exact Hi].
    rewrite IH by exact Hrest. cbn [atom_texts flat_map max_resid_after fold_left].
    rewrite <- app_assoc. reflexivity.
Qed.

Lemma write_atoms_returned frame indexes :
  forall max_resid s m' s',
    write_atoms frame indexes max_resid s = (Returned m', s') ->
    forallb (atom_fits frame) indexes = true.
Proof.
  induction indexes as [| i rest IH]; intros max_resid s m' s' H; [reflexivity |].
  cbn [write_atoms] in H. apply bind_returned in H as (m1 & s1 & Hi & H).
  cbn [forallb]. rewrite (write_atom_returned _ _ _ _ _ _ Hi). cbn [andb].
  eapply IH. exact H.
Qed.

(** *** The box line *)

Lemma write_cell_fits cell g w :
  cell_fits cell = true ->
  write_cell cell (g, w)
  = (Returned tt, (set_file (print_line (cell_text cell) (file_ g)) g, w)).
Proof.
  unfold cell_fits, write_cell, cell_text. intros Hfit.
  destruct (shape cell).
  - erewrite bind_step; [| rewrite check_values_size_eq, Hfit; reflexivity].
    apply print_eq.
  - apply andb_prop in Hfit as (H1 & H2).
    erewrite bind_step; [| rewrite check_values_size_eq, H1; reflexivity].
    erewrite bind_step; [| rewrite check_values_size_eq, H2; reflexivity].
    apply print_eq.
  - erewrite bind_step; [| rewrite check_values_size_eq, Hfit; reflexivity].
    apply print_eq.
Qed.

Lemma write_cell_returned cell s s' :
  write_cell cell s = (Returned tt, s') -> cell_fits cell = true.
Proof.
  unfold cell_fits, write_cell. intros H. destruct (shape cell).
  - apply bind_returned in H as ([] & s1 & H1 & _).
    rewrite check_values_size_eq in H1.
    destruct (fits _); [reflexivity | discriminate].
  - apply bind_returned in H as ([] & s1 & H1 & H).
    apply bind_returned in H as ([] & s2 & H2 & _).
    rewrite check_values_size_eq in H1, H2.
    destruct (fits _); [| discriminate]. destruct (fits _); [reflexivity | discriminate].
  - apply bind_returned in H as ([] & s1 & H1 & _).
    rewrite check_values_size_eq in H1.
    destruct (fits _); [reflexivity | discriminate].
Qed.

(** *** A whole step *)

Lemma print_all_app t1 t2 f : print_all (t1 ++ t2) f = print_all t2 (print_all t1 f).
Proof. apply fold_left_app. Qed.

Lemma write_fits frame g w :
  frame_fits frame = true ->
  write frame (g, w)
  = (Returned tt,
     (push_position (tellg (print_all (frame_texts frame) (file_ g)))
        (set_file (print_all (frame_texts frame) (file_ g)) g),
      w ++ frame_warnings frame)).
Proof.
  unfold frame_fits. intros Hfit. apply andb_prop in Hfit as (Hatoms & Hcell).
  unfold write.
  erewrite bind_step; [| apply print_eq].
  erewrite bind_step; [| apply print_eq].
  erewrite bind_step; [| apply write_atoms_fit; exact Hatoms].
  erewrite bind_step; [| apply write_cell_fits; exact Hcell].
  unfold modify, frame_texts, frame_atom_texts, frame_warnings, title_text, count_text.
  cbn [fst snd file_ set_file].
  change (title_text frame :: count_text frame :: ?l)
    with ([title_text frame; count_text frame] ++ l).
  cbn [print_all fold_left app]. rewrite !print_all_app. reflexivity.
Qed.

Lemma write_returned frame s s' :
  write frame s = (Returned tt, s') -> frame_fits frame = true.
Proof.
  unfold write, frame_fits. intros H.
  apply bind_returned in H as ([] & s1 & _ & H).
  apply bind_returned in H as ([] & s2 & _ & H).
  apply bind_returned in H as (m & s3 & Hatoms & H).
  apply bind_returned in H as ([] & s4 & Hcell & _).
  rewrite (write_atoms_returned _ _ _ _ _ _ Hatoms),
          (write_cell_returned _ _ _ Hcell).
  reflexivity.
Qed.

End WriteProperties.

(** * The claims of the specification *)

Section ReadClaims.
Context {E : Env}.

(** C10: after every successful [GROFormat::read] the frame has
    velocities, one for each atom, whatever the file holds: the atom of
    a line without the velocity columns has the velocity zero. *)
Theorem read_always_gives_velocities g fr g' fr' :
  read (g, fr) = (Returned tt, (g', fr')) ->
  exists velocities,
    velocities_ fr' = Some velocities
    /\ List.length velocities = Frame_size fr'
    /\ forall k line,
         k < Frame_size fr' ->
         nth_error (content (file_ g)) (2 + cursor (file_ g) + k) = Some line ->
         String.length line < 68 ->
         nth_error velocities k = Some Vector3D_zero.
Proof.
  intros H.
  apply read_frame in H
    as (header & n & parsed & _ & _ & Hmap & Hlen & Hpos & Hvel & _).
  exists (map snd parsed). unfold Frame_size. rewrite Hpos, !length_map.
  split; [exact Hvel |]. split; [reflexivity |].
  intros k line Hk Hline Hshort.
  assert (Hnth : nth_error (atom_lines (file_ g) n) k = Some line)
    by (apply nth_atom_lines; [exact Hline | lia]).
  destruct (map_some_nth _ _ _ _ _ Hmap Hnth) as ([[a p] v] & Hk' & Hparsed).
  rewrite nth_error_map, Hk'. cbn [option_map snd]. f_equal.
  unfold parsed_atom in Hparsed.
  destruct (String.length line <? 44); [discriminate |].
  destruct (line_position line); [| discriminate].
  unfold line_velocity in Hparsed.
  destruct (Nat.leb_spec 68 (String.length line)) as [Hle | _]; [lia |].
  inversion Hparsed. reflexivity.
Qed.

(** C6: after a read that returns, a box line of three fields has set
    the cell to the orthorhombic cell of ten times these lengths, and a
    box line of nine fields [v1x v2y v3z 0 0 v2x 0 v3x v3y] to the
    triclinic cell of the upper triangular matrix of ten times these
    components. *)
Theorem read_sets_cell_from_box g fr g' fr' :
  read (g, fr) = (Returned tt, (g', fr')) ->
  exists header n box,
    nth_error (content (file_ g)) (S (cursor (file_ g))) = Some header
    /\ parse_size_t header = Parsed n
    /\ nth_error (content (file_ g)) (2 + cursor (file_ g) + N.to_nat n) = Some box
    /\ (forall b0 b1 b2,
          split box " "%char = [b0; b1; b2] ->
          exists a b c,
            parse_double b0 = Parsed a /\ parse_double b1 = Parsed b
            /\ parse_double b2 = Parsed c
            /\ cell_ fr' = UnitCell_orthorhombic (a * 10) (b * 10) (c * 10))
    /\ (forall b0 b1 b2 b3 b4 b5 b6 b7 b8,
          split box " "%char = [b0; b1; b2; b3; b4; b5; b6; b7; b8] ->
          exists v1_x v2_y v3_z v2_x v3_x v3_y,
            parse_double b0 = Parsed v1_x /\ parse_double b1 = Parsed v2_y
            /\ parse_double b2 = Parsed v3_z /\ parse_double b5 = Parsed v2_x
            /\ parse_double b7 = Parsed v3_x /\ parse_double b8 = Parsed v3_y
            /\ cell_ fr'
               = UnitCell_triclinic
                   (mkMatrix3D (v1_x * 10) (v2_x * 10) (v3_x * 10)
                               0           (v2_y * 10) (v3_y * 10)
                               0           0           (v3_z * 10))).
Proof.
  intros H.
  apply read_returned in H
    as (title & header & n & parsed & [g1 fr1] & s2 & Hf & Ht & Hl & Hp & Hn & Hmap
        & Hbox & Hfile & Hsteps & Hfr & -> & ->).
  apply read_box_returned in Hbox as (box & _ & Hb & _ & _ & H3 & H9 & _).
  cbn [fst snd] in *. rewrite Hfile in Hb. cbn [content cursor set_cursor] in Hb.
  destruct (add_residues_keeps (residues_ (fst s2)) (snd s2)) as (_ & _ & _ & Hcell & _).
  exists header, n, box. rewrite Hcell. auto.
Qed.

End ReadClaims.

(** C10, on a sample: the second atom of the sample has no velocity
    columns. *)
Lemma read_always_gives_velocities_sample :
  exists velocities,
    velocities_ (snd (snd (@read Reference.debug
                             (Samples.opened Samples.water_lines [0%Z], Frame_new))))
    = Some velocities
    /\ List.length velocities = 2
    /\ nth_error velocities 1 = Some Vector3D_zero.
Proof.
  destruct (@read_always_gives_velocities Reference.debug
              (Samples.opened Samples.water_lines [0%Z]) Frame_new
              (fst (snd (@read Reference.debug
                           (Samples.opened Samples.water_lines [0%Z], Frame_new))))
              (snd (snd (@read Reference.debug
                           (Samples.opened Samples.water_lines [0%Z], Frame_new)))))
    as (velocities & Hsome & Hlen & Hzero).
  - vm_compute. reflexivity.
  - exists velocities. split; [exact Hsome |]. split; [exact Hlen |].
    apply (Hzero 1 "    1SOL    HW1    2   0.187   0.713   0.394").
    + vm_compute. lia.
    + reflexivity.
    + vm_compute. lia.
Defined.

(** C6, on samples: a box of three fields and a box of nine fields. *)
Lemma read_sets_cell_from_box_sample :
  cell_ (snd (snd (@read Reference.debug
                     (Samples.opened Samples.water_lines [0%Z], Frame_new))))
  = UnitCell_orthorhombic 10 20 30
  /\ cell_ (snd (snd (@read Reference.debug
                        (Samples.opened Samples.triclinic_lines [0%Z], Frame_new))))
     = UnitCell_triclinic (mkMatrix3D 10 5 2.5 0 20 7.5 0 0 30).
Proof.
  split.
  - destruct (@read_sets_cell_from_box Reference.debug
                (Samples.opened Samples.water_lines [0%Z]) Frame_new
                (fst (snd (@read Reference.debug
                             (Samples.opened Samples.water_lines [0%Z], Frame_new))))
                (snd (snd (@read Reference.debug
                             (Samples.opened Samples.water_lines [0%Z], Frame_new)))))
      as (header & n & box & Hh & Hn & Hb & H3 & _).
    + vm_compute. reflexivity.
    + vm_compute in Hh. inversion Hh; subst header; clear Hh.
      vm_compute in Hn. inversion Hn; subst n; clear Hn.
      vm_compute in Hb. inversion Hb; subst box; clear Hb.
      destruct (H3 "1.00000" "2.00000" "3.00000") as (a & b & c & Ha & Hb & Hc & ->).
      * vm_compute. reflexivity.
      * vm_compute in Ha, Hb, Hc. inversion Ha. inversion Hb. inversion Hc.
        vm_compute. reflexivity.
  - destruct (@read_sets_cell_from_box Reference.debug
                (Samples.opened Samples.triclinic_lines [0%Z]) Frame_new
                (fst (snd (@read Reference.debug
                             (Samples.opened Samples.triclinic_lines [0%Z], Frame_new))))
                (snd (snd (@read Reference.debug
                             (Samples.opened Samples.triclinic_lines [0%Z], Frame_new)))))
      as (header & n & box & Hh & Hn & Hb & _ & H9).
    + vm_compute. reflexivity.
    + vm_compute in Hh. inversion Hh; subst header; clear Hh.
      vm_compute in Hn. inversion Hn; subst n; clear Hn.
      vm_compute in Hb. inversion Hb; subst box; clear Hb.
      destruct (H9 "1.00000" "2.00000" "3.00000" "0.0" "0.0" "0.50000" "0.0"
                   "0.25000" "0.75000")
        as (v1 & v2 & v3 & v4 & v5 & v6 & P1 & P2 & P3 & P4 & P5 & P6 & ->).
      * vm_compute. reflexivity.
      * vm_compute in P1, P2, P3, P4, P5, P6.
        inversion P1. inversion P2. inversion P3. inversion P4. inversion P5.
        inversion P6. vm_compute. reflexivity.
Defined.

Section IndexClaims.
Context {E : Env}.

Lemma seekg_file_at f pos :
  failed f = false -> (0 <= pos)%Z -> seekg pos f = file_at f (Z.to_nat pos).
Proof.
  intros Hf Hpos. unfold seekg, file_at, set_cursor. rewrite Hf.
  destruct (Z.ltb_spec pos 0) as [Hneg | _]; [lia | reflexivity].
Qed.

Lemma read_step_eq i pos g fr :
  nth_error (steps_positions_ g) i = Some pos ->
  read_step i (g, fr) = read (set_file (seekg pos (file_ g)) g, fr).
Proof. intros H. unfold read_step. cbn [fst]. rewrite H. reflexivity. Qed.

(** What the constructor leaves: the file rewound, and the positions
    that its loop recorded from the start of the file. *)
Lemma GROFormat_new_returned p lines g :
  GROFormat_new p lines = Some (Returned g) ->
  exists g',
    index_steps (2 + List.length lines) (mkGROFormat (TextFile_open p lines) [] [])
    = Some (Returned tt, g')
    /\ file_ g = TextFile_open p lines
    /\ steps_positions_ g = steps_positions_ g'
    /\ residues_ g = [].
Proof.
  unfold GROFormat_new.
  destruct (index_steps _ _) as [[[[] | e | w] g'] |] eqn:Hscan; try discriminate.
  intros H. inversion H; subst g; clear H. exists g'.
  apply index_steps_positions in Hscan as Hpos.
  destruct Hpos as (new & Hs & Hc & Hp & Hr & _).
  cbn [file_ set_file steps_positions_ residues_ content path TextFile_open] in *.
  repeat split; auto.
  unfold rewind, TextFile_open. rewrite Hc, Hp. reflexivity.
Qed.

(** C2, amended: the constructor always ends; the format it returns
    holds the file rewound and the positions of the steps found by one
    forward scan, in increasing order, each a line where [forward] finds
    a step; [nsteps] is their number; [read_step(i)] is [read] after a
    seek to the i-th position; and whenever the steps [0] to [i] can be
    read one after the other, [read_step(i)] returns the same frame and
    leaves the format in the same state as the last of these reads. *)
Theorem steps_index_and_read_step (p : string) (lines : list string) :
  (exists r, GROFormat_new p lines = Some r)
  /\ forall g,
      GROFormat_new p lines = Some (Returned g) ->
      file_ g = TextFile_open p lines
      /\ StronglySorted Z.lt (steps_positions_ g)
      /\ Forall (fun pos =>
                   (0 <= pos)%Z
                   /\ fst (forward (seekg pos (file_ g))) = Returned true)
                (steps_positions_ g)
      /\ nsteps g = List.length (steps_positions_ g)
      /\ (forall i pos fr,
            nth_error (steps_positions_ g) i = Some pos ->
            read_step i (g, fr) = read (set_file (seekg pos (file_ g)) g, fr))
      /\ (forall i fr s',
            (N.of_nat (List.length lines) < 2 ^ 64)%N ->
            read_up_to i fr g = (Returned tt, s') ->
            i < nsteps g /\ read_step i (g, fr) = (Returned tt, s')).
Proof.
  split.
  - unfold GROFormat_new.
    destruct (index_steps_total (2 + List.length lines)
                (mkGROFormat (TextFile_open p lines) [] [])) as ([r g'] & Hscan).
    + cbn. lia.
    + rewrite Hscan. destruct r; eauto.
  - intros g Hnew.
    apply GROFormat_new_returned in Hnew as (g' & Hscan & Hfile & Hsteps & Hres).
    apply index_steps_positions in Hscan as Hpos.
    destruct Hpos as (new & Hs & Hc & Hp & Hr & Hsorted & Hall).
    cbn [file_ steps_positions_ app TextFile_open cursor] in Hs, Hall.
    rewrite Hsteps, Hs, Hfile.
    split; [reflexivity |]. split; [exact Hsorted |]. split; [| split; [| split]].
    + eapply Forall_impl; [| exact Hall]. cbv beta. intros pos (Hle & Hfw).
      split; [lia |]. rewrite seekg_file_at; [exact Hfw | reflexivity | lia].
    + unfold nsteps. rewrite Hsteps, Hs. reflexivity.
    + intros i pos fr Hnth. rewrite <- Hfile. apply read_step_eq.
      rewrite Hsteps, Hs. exact Hnth.
    + intros i fr s' Hsize Hread.
      destruct (scan_follows_reads i _ _ _ g fr s' Hscan)
        as (q & gL & Hnth & HreadL & HstepsL & HfileL); auto.
      cbn [file_ steps_positions_ List.length Nat.add TextFile_open content] in *.
      rewrite Hs in Hnth. split.
      * unfold nsteps. rewrite Hsteps, Hs. apply nth_error_Some. congruence.
      * rewrite (read_step_eq i (Z.of_nat q)) by (rewrite Hsteps, Hs; exact Hnth).
        rewrite Hfile, seekg_file_at by (reflexivity || lia). rewrite Nat2Z.id.
        apply (read_ignores_residues _ _ _ (residues_ g)) in HreadL.
        replace (set_file (file_at (TextFile_open p lines) q) g)
          with (set_residues (residues_ g) gL); [exact HreadL |].
        destruct gL as [fL stL mL]. destruct g as [f st m].
        cbn in *. subst. reflexivity.
Qed.

End IndexClaims.

(** C2, as the claim states it, fails on this file: [read_step(1)]
    returns the frame of the second step, and the reads of the steps one
    after the other end with the error of the first. *)
Lemma read_step_without_sequential_read :
  exists g,
    @GROFormat_new Reference.debug "f.gro" broken_first_step = Some (Returned g)
    /\ nsteps g = 2
    /\ fst (@read_step Reference.debug 1 (g, Frame_new)) = Returned tt
    /\ Frame_size (snd (snd (@read_step Reference.debug 1 (g, Frame_new)))) = 1
    /\ fst (@read_up_to Reference.debug 1 Frame_new g)
       = Thrown (format_error "GRO Atom line is too small: 'too short'").
Proof.
  eexists. split; [vm_compute; reflexivity |].
  repeat split; vm_compute; reflexivity.
Qed.

(** C2 (amended), on a sample of one step. *)
Lemma steps_index_and_read_step_sample :
  exists g,
    @GROFormat_new Reference.debug "sample.gro" Samples.water_lines = Some (Returned g)
    /\ steps_positions_ g = [0%Z]
    /\ @read_step Reference.debug 0 (g, Frame_new)
       = @read_up_to Reference.debug 0 Frame_new g.
Proof.
  destruct (@steps_index_and_read_step Reference.debug "sample.gro" Samples.water_lines)
    as (_ & H).
  exists (Samples.opened Samples.water_lines [0%Z]).
  split; [vm_compute; reflexivity |]. split; [reflexivity |].
  destruct (H (Samples.opened Samples.water_lines [0%Z]))
    as (_ & _ & _ & _ & _ & Hseq); [vm_compute; reflexivity |].
  destruct (Hseq 0 Frame_new
              (snd (@read_up_to Reference.debug 0 Frame_new
                      (Samples.opened Samples.water_lines [0%Z]))))
    as (_ & Hstep).
  - vm_compute. reflexivity.
  - vm_compute. reflexivity.
  - rewrite Hstep. vm_compute. reflexivity.
Defined.

(** ** The trajectory *)

Section TrajectoryClaims.
Context {E : Env}.


End TrajectoryClaims.


(** ** The selection parser *)
Section SelectionClaims.
Import Selections.
Variable dispatch : Parser.

Lemma operand_returned prefix begin ast rest :
  dispatch begin = (Returned ast, rest) ->
  operand dispatch prefix begin = (Returned ast, rest).
Proof. intros H. unfold operand, try_catch. rewrite H. reflexivity. Qed.

Lemma operand_parser_error prefix begin msg rest :
  dispatch begin = (Thrown (parser_error msg), rest) ->
  operand dispatch prefix begin = (Thrown (parser_error (prefix +++ msg)), rest).
Proof. intros H. unfold operand, try_catch. rewrite H. reflexivity. Qed.

(** C5: [parse<AndExpr>] and [parse<OrExpr>] read the operator first,
    then the right operand, then the left one, and build the node of the
    two; an operand that is missing is named in the [ParserError]. *)
Theorem boolean_operators_are_prefix :
  parse_AndExpr dispatch [AND]
  = (Thrown (parser_error "Missing right-hand side operand to 'and'"), [])
  /\ parse_OrExpr dispatch [OR]
     = (Thrown (parser_error "Missing right-hand side operand to 'or'"), [])
  /\ (forall t rest rhs,
         dispatch (t :: rest) = (Returned rhs, []) ->
         parse_AndExpr dispatch (AND :: t :: rest)
         = (Thrown (parser_error "Missing left-hand side operand to 'and'"), [])
         /\ parse_OrExpr dispatch (OR :: t :: rest)
            = (Thrown (parser_error "Missing left-hand side operand to 'or'"), []))
  /\ (forall t rest rhs t' rest' lhs rest'',
         dispatch (t :: rest) = (Returned rhs, t' :: rest') ->
         dispatch (t' :: rest') = (Returned lhs, rest'') ->
         parse_AndExpr dispatch (AND :: t :: rest) = (Returned (AndExpr lhs rhs), rest'')
         /\ parse_OrExpr dispatch (OR :: t :: rest) = (Returned (OrExpr lhs rhs), rest'')).
Proof.
  split; [reflexivity |]. split; [reflexivity |]. split.
  - intros t rest rhs Hrhs. unfold parse_AndExpr, parse_OrExpr. split.
    + erewrite bind_step; [| reflexivity].
      erewrite bind_step; [| apply operand_returned; exact Hrhs].
      reflexivity.
    + erewrite bind_step; [| reflexivity].
      erewrite bind_step; [| apply operand_returned; exact Hrhs].
      reflexivity.
  - intros t rest rhs t' rest' lhs rest'' Hrhs Hlhs.
    unfold parse_AndExpr, parse_OrExpr. split.
    + erewrite bind_step; [| reflexivity].
      erewrite bind_step; [| apply operand_returned; exact Hrhs].
      erewrite bind_step; [| reflexivity].
      erewrite bind_step; [| apply operand_returned; exact Hlhs].
      reflexivity.
    + erewrite bind_step; [| reflexivity].
      erewrite bind_step; [| apply operand_returned; exact Hrhs].
      erewrite bind_step; [| reflexivity].
      erewrite bind_step; [| apply operand_returned; exact Hlhs].
      reflexivity.
Qed.

End SelectionClaims.

(** C5, on the tokens of [name == O and index < 10] as the parser
    receives them: the right operand comes first. *)
Lemma boolean_operators_are_prefix_sample :
  Selections.dispatch_parsing 2
    [Selections.AND; Selections.LT; Selections.NUM 10; Selections.IDENT "index";
     Selections.EQ; Selections.IDENT "O"; Selections.IDENT "name"]
  = (Returned (Selections.AndExpr
                 (Selections.NameExpr "O" true)
                 (Selections.IndexExpr Selections.BinOp_LT 10)), []).
Proof.
  destruct (boolean_operators_are_prefix (Selections.dispatch_parsing 1))
    as (_ & _ & _ & H).
  destruct (H Selections.LT
              [Selections.NUM 10; Selections.IDENT "index";
               Selections.EQ; Selections.IDENT "O"; Selections.IDENT "name"]
              (Selections.IndexExpr Selections.BinOp_LT 10)
              Selections.EQ [Selections.IDENT "O"; Selections.IDENT "name"]
              (Selections.NameExpr "O" true) []) as (Hand & _).
  - vm_compute. reflexivity.
  - vm_compute. reflexivity.
  - exact Hand.
Defined.

Lemma bind_thrown_inv {S A B} (m : M S A) (k : A -> M S B) s e s' :
  bind m k s = (Thrown e, s') ->
  m s = (Thrown e, s')
  \/ exists a s1, m s = (Returned a, s1) /\ k a s1 = (Thrown e, s').
Proof.
  unfold bind. destruct (m s) as [[a | e0 | w] s1]; intros H.
  - right. eauto.
  - left. inversion H. reflexivity.
  - discriminate.
Qed.

Section SelectionErrors.
Import Selections.
Variable dispatch : Parser.

(** The exception that leaves an operand: the one of [dispatch_parsing],
    its message prefixed when it is a [ParserError]. *)
Lemma operand_thrown prefix begin e rest :
  operand dispatch prefix begin = (Thrown e, rest) ->
  exists e0,
    dispatch begin = (Thrown e0, rest)
    /\ ((kind e0 = ParserError /\ e = parser_error (prefix +++ what e0))
        \/ (kind e0 <> ParserError /\ e = e0)).
Proof.
  unfold operand, try_catch.
  destruct (dispatch begin) as [[a | e0 | w] s1]; try discriminate.
  intros H. exists e0.
  destruct (kind e0) eqn:Hk; cbn [catches] in H; unfold throw in H; inversion H;
    split; try reflexivity; try (right; split; [congruence | reflexivity]).
  left. auto.
Qed.

(** C4, amended: the exceptions of [parse<IndexExpr>] and of
    [parse<AndExpr>] are [ParserError]s that carry a message and nothing
    else. [parse<IndexExpr>] raises one, always with the same message,
    when the token after the operator is not a number or is a number
    that is not an integer; the message of [parse<AndExpr>] names the
    missing operand, or is the message of the operand after a prefix
    that names its side. *)
Theorem parser_errors_carry_a_message :
  (forall t0 t1 rest op,
      binary_op t0 = Some op ->
      (forall num, t1 = NUM num -> (ceil num =? num)%float = false) ->
      parse_IndexExpr (t0 :: t1 :: IDENT "index" :: rest)
      = (Thrown (parser_error "Index selection should contain an integer"),
         t0 :: t1 :: IDENT "index" :: rest))
  /\ (forall begin e rest,
         parse_IndexExpr begin = (Thrown e, rest) ->
         e = parser_error "Index selection should contain an integer"
         /\ rest = begin)
  /\ (forall begin e rest,
         parse_AndExpr dispatch begin = (Thrown e, rest) ->
         e = parser_error "Missing right-hand side operand to 'and'"
         \/ e = parser_error "Missing left-hand side operand to 'and'"
         \/ (exists msg,
                e = parser_error ("Error in right-hand side operand to 'and': " +++ msg))
         \/ (exists msg,
                e = parser_error ("Error in left-hand side operand to 'and': " +++ msg))
         \/ (kind e <> ParserError
             /\ exists tokens, dispatch tokens = (Thrown e, rest))).
Proof.
  split; [| split].
  - intros t0 t1 rest op Hop Hnum. unfold parse_IndexExpr. rewrite Hop.
    destruct t1; try reflexivity.
    rewrite (Hnum number eq_refl). reflexivity.
  - intros begin e rest. unfold parse_IndexExpr.
    destruct begin as [| t0 [| t1 [| t2 rest0]]]; try discriminate.
    destruct t2 as [| | | | | | | | | | | ident |]; try discriminate.
    destruct (String.eqb_spec ident "index") as [-> | Hne].
    2:{ destruct ident as [| c ident]; [discriminate |].
        repeat (let a := fresh "a" in
                destruct c as [[] [] [] [] [] [] [] []]; try discriminate;
                destruct ident as [| c ident]; try discriminate).
        congruence. }
    destruct (binary_op t0); [| discriminate].
    destruct t1; try (intros H; inversion H; auto).
    destruct (ceil number =? number)%float.
    + destruct (size_t_of_double number); discriminate.
    + inversion H1. auto.
  - intros begin e rest. unfold parse_AndExpr.
    destruct begin as [| [] begin]; try discriminate.
    intros H.
    apply bind_thrown_inv in H as [H | ([] & s1 & H1 & H)].
    { destruct begin; inversion H. auto. }
    assert (s1 = begin) as -> by (destruct begin; inversion H1; reflexivity).
    apply bind_thrown_inv in H as [H | (rhs & s2 & H2 & H)].
    { apply operand_thrown in H as (e0 & Hd & [(Hk & ->) | (Hk & ->)]).
      - right. right. left. eauto.
      - right. right. right. right. eauto. }
    apply bind_thrown_inv in H as [H | ([] & s3 & H3 & H)].
    { destruct s2; inversion H. auto. }
    assert (s3 = s2) as -> by (destruct s2; inversion H3; reflexivity).
    apply bind_thrown_inv in H as [H | (lhs & s4 & H4 & H)].
    { apply operand_thrown in H as (e0 & Hd & [(Hk & ->) | (Hk & ->)]).
      - right. right. right. left. eauto.
      - right. right. right. right. eauto. }
    discriminate.
Qed.

End SelectionErrors.

(** C4, as the claim states it, fails: the tokens of [index == x] and of
    [index < x], whose wrong operand stands at the bytes 9 and 8 of the
    selection, raise the same exception, a message that holds no
    number. *)
Lemma parser_error_without_offset :
  fst (Selections.parse_IndexExpr
         [Selections.EQ; Selections.IDENT "x"; Selections.IDENT "index"])
  = Thrown (parser_error "Index selection should contain an integer")
  /\ fst (Selections.parse_IndexExpr
            [Selections.LT; Selections.IDENT "x"; Selections.IDENT "index"])
     = Thrown (parser_error "Index selection should contain an integer")
  /\ no_digit "Index selection should contain an integer" = true.
Proof. repeat split. Qed.

(** C4 (amended), on the tokens of [index == 1.5 and name == O]. *)
Lemma parser_errors_carry_a_message_sample :
  Selections.parse_AndExpr (Selections.dispatch_parsing 1)
    [Selections.AND; Selections.EQ; Selections.IDENT "O"; Selections.IDENT "name";
     Selections.EQ; Selections.NUM 1.5; Selections.IDENT "index"]
  = (Thrown (parser_error
               "Error in left-hand side operand to 'and': Index selection should contain an integer"),
     [Selections.EQ; Selections.NUM 1.5; Selections.IDENT "index"]).
Proof.
  destruct (parser_errors_carry_a_message (Selections.dispatch_parsing 1))
    as (Hindex & _ & _).
  pose proof (Hindex Selections.EQ (Selections.NUM 1.5) [] Selections.BinOp_EQ eq_refl)
    as Hthrown.
  unfold Selections.parse_AndExpr.
  erewrite bind_step; [| reflexivity].
  erewrite bind_step; [| vm_compute; reflexivity].
  erewrite bind_step; [| reflexivity].
  unfold bind. erewrite operand_parser_error.
  - reflexivity.
  - cbn [Selections.dispatch_parsing Selections.binary_op String.eqb Ascii.eqb Bool.eqb].
    apply Hthrown. intros num Hnum. inversion Hnum. reflexivity.
Defined.


(** ** A read that fails *)
Section ReadFailures.
Context {E : Env}.

















End ReadFailures.



(** ** Strings *)

Lemma append_assoc a b c : (a +++ b) +++ c = a +++ (b +++ c).
Proof. induction a as [| x a IH]; cbn; [reflexivity | rewrite IH; reflexivity]. Qed.

Lemma length_append a b : String.length (a +++ b) = String.length a + String.length b.
Proof. induction a as [| x a IH]; cbn; [reflexivity | rewrite IH; reflexivity]. Qed.

Lemma substring_skip a n m b :
  substring (String.length a + n) m (a +++ b) = substring n m b.
Proof. induction a as [| x a IH]; cbn; [reflexivity | exact IH]. Qed.

Lemma substring_take a b : substring 0 (String.length a) (a +++ b) = a.
Proof.
  induction a as [| x a IH]; cbn.
  - destruct b; reflexivity.
  - rewrite IH. reflexivity.
Qed.

Lemma length_spaces n : String.length (spaces n) = n.
Proof. unfold spaces. induction n as [| n IH]; cbn; [reflexivity | rewrite IH; reflexivity]. Qed.

Lemma length_pad_left w s : String.length s <= w -> String.length (pad_left w s) = w.
Proof. intros H. unfold pad_left. rewrite length_append, length_spaces. lia. Qed.

Lemma length_pad_right w s : String.length s <= w -> String.length (pad_right w s) = w.
Proof. intros H. unfold pad_right. rewrite length_append, length_spaces. lia. Qed.






Lemma content_print_all texts :
  forall f, content (print_all texts f) = content f ++ flat_map (lines_of "") texts.
Proof.
  induction texts as [| t texts IH]; intros f; cbn [print_all fold_left flat_map].
  - symmetry. apply app_nil_r.
  - fold (print_all texts (print_line t f)). rewrite IH. cbn [print_line content].
    rewrite <- app_assoc. reflexivity.
Qed.


Section AtomTexts.
Context {E : Env}.

Lemma length_atom_texts frame indexes :
  forall m, List.length (atom_texts frame indexes m) = List.length indexes.
Proof.
  induction indexes as [| i rest IH]; intros m; cbn; [reflexivity | rewrite IH; reflexivity].
Qed.

Lemma atom_texts_nth frame indexes :
  forall m k text,
    nth_error (atom_texts frame indexes m) k = Some text ->
    exists i m', nth_error indexes k = Some i /\ text = atom_text frame i m'.
Proof.
  induction indexes as [| i rest IH]; intros m k text H; destruct k; cbn in *;
    try discriminate.
  - inversion H. eauto.
  - eapply IH. exact H.
Qed.

Lemma frame_atom_texts_nth frame k text :
  nth_error (frame_atom_texts frame) k = Some text ->
  k < Frame_size frame /\ exists max_resid, text = atom_text frame k max_resid.
Proof.
  unfold frame_atom_texts. intros H.
  assert (Hk : k < Frame_size frame).
  { rewrite <- (length_seq (Frame_size frame) 0), <- (length_atom_texts frame _ (first_free_resid (residues (topology_ frame)))).
    apply nth_error_Some. congruence. }
  split; [exact Hk |].
  apply atom_texts_nth in H as (i & m' & Hi & ->).
  rewrite nth_error_seq in Hi.
  destruct (Nat.ltb_spec k (Frame_size frame)); [| discriminate].
  inversion Hi. eauto.
Qed.

Lemma warnings_of_atom frame i msg :
  i < Frame_size frame -> In msg (atom_warnings frame i) -> In msg (frame_warnings frame).
Proof.
  intros Hi Hin. unfold frame_warnings. apply in_flat_map. exists i.
  split; [apply in_seq; lia | exact Hin].
Qed.

End AtomTexts.

Section WriteClaims.
Context {E : Env}.

(** What [write] leaves when it returns: the texts of the frame printed
    after what the file held, and the warnings of its atoms. *)
Lemma write_returned_state frame g w g' w' :
  write frame (g, w) = (Returned tt, (g', w')) ->
  frame_fits frame = true
  /\ content (file_ g')
     = content (file_ g) ++ flat_map (lines_of "") (frame_texts frame)
  /\ w' = w ++ frame_warnings frame.
Proof.
  intros H. pose proof (write_returned _ _ _ H) as Hfit.
  rewrite (write_fits frame g w Hfit) in H.
  injection H as Hg Hw. subst g' w'.
  split; [exact Hfit |].
  split; [exact (content_print_all (frame_texts frame) (file_ g)) | reflexivity].
Qed.

(** C7: the adapter converts between the nanometers of the file and the
    angstroms of the frame. After a read that returns, the position of
    each atom is ten times the three numbers parsed from the columns of
    its line, and so is its velocity when the line has the velocity
    columns; the line that [write] prints for an atom ends with its
    position, and its velocity when the frame has velocities, each
    component divided by ten before it is formatted. *)
Theorem gro_converts_units :
  (forall g fr g' fr',
      read (g, fr) = (Returned tt, (g', fr')) ->
      forall k line,
        k < Frame_size fr' ->
        nth_error (content (file_ g)) (2 + cursor (file_ g) + k) = Some line ->
        (exists x y z,
            parse_double (substring 20 8 line) = Parsed x
            /\ parse_double (substring 28 8 line) = Parsed y
            /\ parse_double (substring 36 8 line) = Parsed z
            /\ nth_error (positions_ fr') k
               = Some (mkVector3D (x * 10) (y * 10) (z * 10)))
        /\ (68 <= String.length line ->
            exists vx vy vz velocities,
              parse_double (substring 44 8 line) = Parsed vx
              /\ parse_double (substring 52 8 line) = Parsed vy
              /\ parse_double (substring 60 8 line) = Parsed vz
              /\ velocities_ fr' = Some velocities
              /\ nth_error velocities k
                 = Some (mkVector3D (vx * 10) (vy * 10) (vz * 10))))
  /\ (forall frame g w g' w',
         write frame (g, w) = (Returned tt, (g', w')) ->
         exists title count atom_texts box,
           content (file_ g')
           = content (file_ g)
             ++ flat_map (lines_of "") (title :: count :: atom_texts ++ [box])
           /\ List.length atom_texts = Frame_size frame
           /\ forall i text,
               nth_error atom_texts i = Some text ->
               exists columns,
                 let p := nth i (positions_ frame) Vector3D_zero in
                 match velocities_ frame with
                 | Some velocities =>
                     let v := nth i velocities Vector3D_zero in
                     text = columns
                            +++ fmt_fixed 8 3 (c0 p / 10) +++ fmt_fixed 8 3 (c1 p / 10)
                            +++ fmt_fixed 8 3 (c2 p / 10)
                            +++ fmt_fixed 8 4 (c0 v / 10) +++ fmt_fixed 8 4 (c1 v / 10)
                            +++ fmt_fixed 8 4 (c2 v / 10)
                 | None =>
                     text = columns
                            +++ fmt_fixed 8 3 (c0 p / 10) +++ fmt_fixed 8 3 (c1 p / 10)
                            +++ fmt_fixed 8 3 (c2 p / 10)
                 end).
Proof.
  split.
  - intros g fr g' fr' H k line Hk Hline.
    apply read_frame in H
      as (header & n & parsed & _ & _ & Hmap & Hlen & Hpos & Hvel & _).
    unfold Frame_size in Hk. rewrite Hpos, length_map in Hk.
    assert (Hnth : nth_error (atom_lines (file_ g) n) k = Some line)
      by (apply nth_atom_lines; [exact Hline | lia]).
    destruct (map_some_nth _ _ _ _ _ Hmap Hnth) as ([[a p] v] & Hk' & Hparsed).
    unfold parsed_atom in Hparsed.
    destruct (String.length line <? 44); [discriminate |].
    destruct (line_position line) as [p' |] eqn:Hp; [| discriminate].
    destruct (line_velocity line) as [v' |] eqn:Hv; [| discriminate].
    inversion Hparsed; subst a p' v'; clear Hparsed.
    unfold line_position in Hp. unfold line_velocity in Hv.
    destruct (parse_double (substring 20 8 line)) as [x |]; [| discriminate].
    destruct (parse_double (substring 28 8 line)) as [y |]; [| discriminate].
    destruct (parse_double (substring 36 8 line)) as [z |]; [| discriminate].
    inversion Hp; subst p; clear Hp.
    split.
    + exists x, y, z. rewrite Hpos, nth_error_map, Hk'. auto.
    + intros Hlong.
      destruct (Nat.leb_spec 68 (String.length line)) as [_ | Hshort]; [| lia].
      destruct (parse_double (substring 44 8 line)) as [vx |]; [| discriminate].
      destruct (parse_double (substring 52 8 line)) as [vy |]; [| discriminate].
      destruct (parse_double (substring 60 8 line)) as [vz |]; [| discriminate].
      inversion Hv; subst v; clear Hv.
      exists vx, vy, vz, (map snd parsed). rewrite nth_error_map, Hk'. auto.
  - intros frame g w g' w' H.
    apply write_returned_state in H as (_ & Hcontent & _).
    exists (title_text frame), (count_text frame), (frame_atom_texts frame),
           (cell_text (cell_ frame)).
    split; [exact Hcontent |]. split.
    + unfold frame_atom_texts. rewrite length_atom_texts, length_seq. reflexivity.
    + intros i text Hi.
      apply frame_atom_texts_nth in Hi as (_ & m & ->).
      exists (pad_left 5 (resid_column frame i m)
              +++ pad_right 5 (resname_column frame i)
              +++ pad_left 5 (name (nth i (atoms (topology_ frame)) (Atom_named "")))
              +++ pad_left 5 (index_column i)).
      unfold atom_text, coordinates_columns, position_nm, velocity_nm, Vector3D_div.
      cbv zeta. cbn [c0 c1 c2].
      destruct (velocities_ frame); rewrite !append_assoc; reflexivity.
Qed.

(** C3, amended: a frame whose values pass [check_values_size] is
    written, whatever its residue ids and the number of its atoms. The
    line of an atom starts with the columns of the residue id, the
    residue name, the atom name and the atom number: the residue id
    column holds [-1] for a residue id above 99999, with a warning; the
    atom number column holds [*****] for the atoms after the first
    99999 (the atom of index [i] has the number [i + 1]), with a
    warning. *)
Theorem write_beyond_the_limits frame g w :
  frame_fits frame = true ->
  exists g' w' title count atom_texts box,
    write frame (g, w) = (Returned tt, (g', w'))
    /\ content (file_ g')
       = content (file_ g)
         ++ flat_map (lines_of "") (title :: count :: atom_texts ++ [box])
    /\ List.length atom_texts = Frame_size frame
    /\ forall i text,
        nth_error atom_texts i = Some text ->
        exists resid resname index coordinates,
          text = pad_left 5 resid +++ pad_right 5 resname
                 +++ pad_left 5 (name (nth i (atoms (topology_ frame)) (Atom_named "")))
                 +++ pad_left 5 index +++ coordinates
          /\ (forall residue value,
                 residue_for_atom (topology_ frame) i = Some residue ->
                 res_id residue = Some value ->
                 ((value <= 99999)%N -> resid = to_string value)
                 /\ ((99999 < value)%N ->
                     resid = "-1"
                     /\ In "Too many residues for GRO format, removing residue id" w'))
          /\ ((N.of_nat i < 99999)%N -> index = to_string (N.of_nat i + 1))
          /\ ((99999 <= N.of_nat i)%N ->
              index = "*****"
              /\ In "Too many atoms for GRO format, removing atomic id" w').
Proof.
  intros Hfit.
  exists (push_position (tellg (print_all (frame_texts frame) (file_ g)))
            (set_file (print_all (frame_texts frame) (file_ g)) g)),
         (w ++ frame_warnings frame),
         (title_text frame), (count_text frame), (frame_atom_texts frame),
         (cell_text (cell_ frame)).
  split; [apply write_fits; exact Hfit |].
  split; [exact (content_print_all (frame_texts frame) (file_ g)) |].
  split; [unfold frame_atom_texts; rewrite length_atom_texts, length_seq; reflexivity |].
  intros i text Hi.
  apply frame_atom_texts_nth in Hi as (Hlt & m & ->).
  exists (resid_column frame i m), (resname_column frame i), (index_column i),
         (coordinates_columns frame i).
  split; [reflexivity |]. split; [| split].
  - intros residue value Hres Hid.
    unfold resid_column, residue_id. rewrite Hres, Hid. split.
    + intros Hle. destruct (N.leb_spec value 99999); [reflexivity | lia].
    + intros Hgt. destruct (N.leb_spec value 99999) as [Hle | _]; [lia |].
      split; [reflexivity |]. apply in_or_app. right.
      apply (warnings_of_atom frame i); [exact Hlt |].
      unfold atom_warnings, resid_warnings, residue_id. rewrite Hres, Hid.
      destruct (N.leb_spec value 99999) as [Hle | _]; [lia |].
      apply in_or_app. right. apply in_or_app. left. left. reflexivity.
  - intros Hsmall. unfold index_column.
    destruct (N.leb_spec 99999 (N.of_nat i)); [lia | reflexivity].
  - intros Hbig. unfold index_column.
    destruct (N.leb_spec 99999 (N.of_nat i)) as [_ | Hsmall]; [| lia].
    split; [reflexivity |]. apply in_or_app. right.
    apply (warnings_of_atom frame i); [exact Hlt |].
    unfold atom_warnings, index_warnings.
    destruct (N.leb_spec 99999 (N.of_nat i)) as [_ | Hsmall]; [| lia].
    apply in_or_app. right. apply in_or_app. right. left. reflexivity.
Qed.

End WriteClaims.

(** C7, on samples: the numbers of the file are a tenth of those of the
    frame, in both directions. *)
Lemma gro_converts_units_sample :
  nth_error (positions_ (snd (snd (@read Reference.debug
                                     (Samples.opened Samples.exact_lines [0%Z],
                                      Frame_new))))) 0
  = Some (mkVector3D 1.25 5 2.5)
  /\ (exists velocities,
         velocities_ (snd (snd (@read Reference.debug
                                  (Samples.opened Samples.exact_lines [0%Z],
                                   Frame_new))))
         = Some velocities
         /\ nth_error velocities 0 = Some (mkVector3D 0.625 0 (-5)))
  /\ exists title count columns box,
      content (file_ (fst (snd (@write Reference.debug Samples.exact_frame
                                  (Samples.blank, [])))))
      = flat_map (lines_of "")
          [title; count;
           columns +++ "   0.125   0.500   0.250  0.0625  0.0000 -0.5000"; box].
Proof.
  destruct (@gro_converts_units Reference.debug) as (Hread & Hwrite).
  pose proof (Hread (Samples.opened Samples.exact_lines [0%Z]) Frame_new
                (fst (snd (@read Reference.debug
                             (Samples.opened Samples.exact_lines [0%Z], Frame_new))))
                (snd (snd (@read Reference.debug
                             (Samples.opened Samples.exact_lines [0%Z], Frame_new))))
                ltac:(vm_compute; reflexivity) 0
                "    1SOL     OW    1   0.125   0.500   0.250  0.0625  0.0000 -0.5000"
                ltac:(vm_compute; lia) ltac:(reflexivity))
    as ((x & y & z & Hx & Hy & Hz & Hpos) & Hvel).
  destruct (Hvel ltac:(vm_compute; lia))
    as (vx & vy & vz & velocities & Hvx & Hvy & Hvz & Hsome & Hnth).
  vm_compute in Hx, Hy, Hz, Hvx, Hvy, Hvz.
  inversion Hx; subst x. inversion Hy; subst y. inversion Hz; subst z.
  inversion Hvx; subst vx. inversion Hvy; subst vy. inversion Hvz; subst vz.
  split; [rewrite Hpos; vm_compute; reflexivity |].
  split; [exists velocities; split; [exact Hsome | rewrite Hnth; vm_compute; reflexivity] |].
  destruct (Hwrite Samples.exact_frame Samples.blank []
              (fst (snd (@write Reference.debug Samples.exact_frame (Samples.blank, []))))
              (snd (snd (@write Reference.debug Samples.exact_frame (Samples.blank, []))))
              ltac:(vm_compute; reflexivity))
    as (title & count & texts & box & Hcontent & Hlen & Htexts).
  destruct texts as [| text rest]; [discriminate Hlen |].
  destruct rest; [| discriminate Hlen].
  destruct (Htexts 0 text eq_refl) as (columns & Htext).
  exists title, count, columns, box.
  rewrite Hcontent. cbn [Samples.blank file_ TextFile_open content app].
  rewrite Htext. vm_compute. reflexivity.
Defined.

(** C3, the claim as it stands does not hold: an atom in a residue of
    id 100000 is written with [-1] in the residue id column, not with
    [*****]; and the write of such an atom throws, after the warning,
    when a coordinate is too big for its column. *)
Lemma residue_id_beyond_the_limit_is_minus_one :
  residue_for_atom (topology_ Samples.far_residue) 0
  = Some (mkResidue "SOL" (Some 100000%N) [0])
  /\ (exists g',
         @write Reference.debug Samples.far_residue (Samples.blank, [])
         = (Returned tt,
            (g', ["Too many residues for GRO format, removing residue id"]))
         /\ nth_error (content (file_ g')) 2
            = Some "   -1SOL      O    1   0.125   0.500   0.250"
         /\ substring 0 5 "   -1SOL      O    1   0.125   0.500   0.250" <> "*****")
  /\ residue_for_atom (topology_ Samples.far_atom) 0
     = Some (mkResidue "SOL" (Some 100000%N) [0])
  /\ exists g',
      @write Reference.debug Samples.far_atom (Samples.blank, [])
      = (Thrown (format_error
                   "value in atomic position is too big for representation in GRO format"),
         (g', ["Too many residues for GRO format, removing residue id"])).
Proof.
  split; [reflexivity |]. split.
  - eexists. split; [vm_compute; reflexivity |].
    split; [reflexivity | discriminate].
  - split; [reflexivity |]. eexists. vm_compute. reflexivity.
Qed.

(** C3, amended, on a sample: the atom of [far_residue] is written, with
    the warning on its residue id. *)
Lemma write_beyond_the_limits_sample :
  exists g' w' title count columns box,
    @write Reference.debug Samples.far_residue (Samples.blank, [])
    = (Returned tt, (g', w'))
    /\ content (file_ g')
       = flat_map (lines_of "") [title; count; "   -1" +++ columns; box]
    /\ In "Too many residues for GRO format, removing residue id" w'.
Proof.
  destruct (@write_beyond_the_limits Reference.debug Samples.far_residue
              Samples.blank [])
    as (g' & w' & title & count & texts & box & Hwrite & Hcontent & Hlen & Htexts).
  - vm_compute. reflexivity.
  - destruct texts as [| text rest]; [discriminate Hlen |].
    destruct rest; [| discriminate Hlen].
    destruct (Htexts 0 text eq_refl)
      as (resid & resname & index & coordinates & Htext & Hresid & _).
    destruct (Hresid (mkResidue "SOL" (Some 100000%N) [0]) 100000%N eq_refl eq_refl)
      as (_ & Hbig).
    destruct (Hbig ltac:(reflexivity)) as (-> & Hwarn).
    exists g', w', title, count,
           (pad_right 5 resname
            +++ pad_left 5 (name (nth 0 (atoms (topology_ Samples.far_residue))
                                      (Atom_named "")))
            +++ pad_left 5 index +++ coordinates),
           box.
    split; [exact Hwrite |]. split; [| exact Hwarn].
    rewrite Hcontent, Htext. reflexivity.
Defined.

(** ** Reading back what was written *)

Lemma checked_below_spec check n :
  checked_below check n = true -> forall k, (k < n)%N -> check k = true.
Proof.
  unfold checked_below.
  assert (H : fst (N.iter n (fun s => (N.succ (fst s), snd s && check (fst s))) (0%N, true)) = n
              /\ (snd (N.iter n (fun s => (N.succ (fst s), snd s && check (fst s))) (0%N, true)) = true
                  -> forall k, (k < n)%N -> check k = true)).
  { induction n as [| n IH] using N.peano_ind.
    - split; [reflexivity |]. intros _ k Hk. lia.
    - rewrite N.iter_succ. destruct IH as (Hfst & Hsnd). cbn [fst snd].
      rewrite Hfst. split; [reflexivity |].
      intros Hall k Hk. apply andb_prop in Hall as (Hbelow & Hn).
      destruct (N.eq_dec k n) as [-> | Hne]; [exact Hn |].
      apply Hsnd; [exact Hbelow | lia]. }
  exact (proj2 H).
Qed.

(** The decimal notation of a number of at most five digits. *)
Lemma to_string_small n :
  (n <= 99999)%N ->
  String.length (to_string n) <= 5 /\ no_newline (to_string n) = true.
Proof.
  intros Hn.
  assert (Hall : checked_below
                   (fun k => (String.length (to_string k) <=? 5) && no_newline (to_string k))
                   100000 = true) by (vm_compute; reflexivity).
  pose proof (checked_below_spec _ _ Hall n) as Hk. cbv beta in Hk.
  destruct (andb_prop _ _ (Hk ltac:(lia))) as (Hlen & Hnl).
  split; [apply Nat.leb_le; exact Hlen | exact Hnl].
Qed.


Section ReadBack.
Context {E : Env}.



End ReadBack.


(** The column of a line that follows [pre]. *)
Lemma substring_at pre x post n m :
  String.length pre = n -> String.length x = m ->
  substring n m (pre +++ x +++ post) = x.
Proof.
  intros <- <-. rewrite <- (Nat.add_0_r (String.length pre)), substring_skip.
  apply substring_take.
Qed.


Section WrittenLines.
Context {E : Env}.

Lemma resid_column_small frame i m :
  String.length (resid_column frame i m) <= 5
  /\ no_newline (resid_column frame i m) = true.
Proof.
  unfold resid_column. destruct (residue_id frame i) as [value |].
  - destruct (N.leb_spec value 99999); [apply to_string_small; assumption |].
    split; [cbn; lia | reflexivity].
  - destruct (N.leb_spec m 99999); [apply to_string_small; assumption |].
    split; [cbn; lia | reflexivity].
Qed.




End WrittenLines.

Section RoundTrip.
Context {E : Env}.



Lemma forward_at_end f :
  failed f = false -> nth_error (content f) (cursor f) = None ->
  forward f = (Returned false, set_failed f).
Proof.
  intros Hf Hend. unfold forward. rewrite Hf.
  unfold bind, try_catch, readline. rewrite Hf, Hend. reflexivity.
Qed.




End RoundTrip.

Section IndexOverflowClaim.
Context {E : Env}.





End IndexOverflowClaim.






(** * Further properties of the code *)

(** ** The index of the steps *)

Section ScanProperties.
Context {E : Env}.

Lemma nth_error_middle {A} (pre : list A) x post :
  nth_error (pre ++ x :: post) (List.length pre) = Some x.
Proof. rewrite nth_error_app2, Nat.sub_diag by lia. reflexivity. Qed.

Lemma forward_skips f l1 l2 why :
  failed f = false ->
  nth_error (content f) (cursor f) = Some l1 ->
  nth_error (content f) (S (cursor f)) = Some l2 ->
  parse_size_t l2 = Malformed why ->
  forward f = (Returned false, set_cursor (2 + cursor f) f).
Proof.
  intros Hf H1 H2 Hp. unfold forward. rewrite Hf.
  unfold bind, try_catch, parse_as, ret, throw.
  rewrite (readline_at f l1 Hf H1).
  rewrite (readline_at (set_cursor (S (cursor f)) f) l2); [| exact Hf | exact H2].
  rewrite Hp. cbn. reflexivity.
Qed.


(** The loop of the constructor takes one turn for each chunk that is a
    step or a skipped pair, and records the line of each step. *)
Lemma index_steps_chunks chunks :
  forall fuel g pre rest,
    forallb (fun c => is_step c || is_skipped c) chunks = true ->
    failed (file_ g) = false ->
    content (file_ g) = pre ++ List.concat chunks ++ rest ->
    cursor (file_ g) = List.length pre ->
    index_steps (List.length chunks + fuel) g
    = index_steps fuel
        (mkGROFormat
           (set_cursor (List.length pre + List.length (List.concat chunks)) (file_ g))
           (steps_positions_ g ++ recorded chunks (List.length pre))
           (residues_ g)).
Proof.
  induction chunks as [| c chunks IH]; intros fuel g pre rest Hok Hf Hc Hcur.
  - cbn [List.length Nat.add List.concat recorded]. rewrite app_nil_r, Nat.add_0_r, <- Hcur.
    destruct g as [[p c k fl] s r]. reflexivity.
  - cbn [forallb] in Hok. apply andb_prop in Hok as (Hc0 & Hok).
    cbn [List.length Nat.add index_steps]. unfold eof, tellg. rewrite Hf.
    destruct (Z.eqb_spec (Z.of_nat (cursor (file_ g))) (-1)) as [Hneg | _]; [lia |].
    cbn [List.concat] in Hc. rewrite <- app_assoc in Hc.
    cbn [recorded List.concat].
    destruct c as [| l1 [| l2 body]]; [discriminate | discriminate |].
    assert (H1 : nth_error (content (file_ g)) (cursor (file_ g)) = Some l1)
      by (rewrite Hc, Hcur; apply nth_error_middle).
    assert (H2 : nth_error (content (file_ g)) (S (cursor (file_ g))) = Some l2).
    { rewrite Hc, Hcur.
      replace (pre ++ (l1 :: l2 :: body) ++ List.concat chunks ++ rest)
        with ((pre ++ [l1]) ++ l2 :: body ++ List.concat chunks ++ rest)
        by (rewrite <- app_assoc; reflexivity).
      replace (S (List.length pre)) with (List.length (pre ++ [l1]))
        by (rewrite length_app; cbn; lia).
      apply nth_error_middle. }
    unfold is_step at 1. unfold is_step, is_skipped in Hc0.
    destruct (parse_size_t l2) as [n | why] eqn:Hp.
    + (* a step *)
      assert (Hbody : List.length body = N.to_nat (wrap64 (n + 1))).
      { apply Nat.eqb_eq. destruct (List.length body =? N.to_nat (wrap64 (n + 1)));
          [reflexivity | destruct body; discriminate]. }
      rewrite Hbody, Nat.eqb_refl.
      rewrite (forward_at _ l1 l2 n Hf H1 H2 Hp).
      2:{ unfold remaining. rewrite Hc, Hcur, !length_app. cbn [List.length]. lia. }
      rewrite (IH fuel _ (pre ++ l1 :: l2 :: body) rest Hok).
      * cbn [file_ push_position set_file set_cursor content path failed
             steps_positions_ residues_].
        rewrite <- !app_assoc, !length_app. cbn [List.length app].
        unfold set_cursor. cbn [path content failed cursor]. rewrite Hcur, Nat.add_assoc.
        reflexivity.
      * exact Hf.
      * cbn [file_ push_position set_file set_cursor content]. rewrite Hc, <- app_assoc.
        reflexivity.
      * cbn [file_ push_position set_file set_cursor cursor].
        rewrite length_app. cbn [List.length]. lia.
    + (* a skipped pair *)
      cbn [orb] in Hc0. destruct body; [| discriminate]. cbn [app].
      rewrite (forward_skips _ l1 l2 why Hf H1 H2 Hp).
      rewrite (IH fuel _ (pre ++ [l1; l2]) rest Hok).
      * cbn [file_ set_file set_cursor content path failed steps_positions_ residues_].
        rewrite !length_app. cbn [List.length app].
        unfold set_cursor. cbn [path content failed cursor].
        replace (List.length pre + S (S (List.length (List.concat chunks))))
          with (List.length pre + 2 + List.length (List.concat chunks)) by lia.
        reflexivity.
      * exact Hf.
      * cbn [file_ set_file set_cursor content]. rewrite Hc, <- app_assoc. reflexivity.
      * cbn [file_ set_file set_cursor cursor]. rewrite length_app. cbn [List.length]. lia.
Qed.

(** At most one line is left: the loop ends. *)
Lemma index_steps_tail fuel g :
  failed (file_ g) = false ->
  List.length (content (file_ g)) <= S (cursor (file_ g)) ->
  exists f',
    index_steps (S fuel) g = Some (Returned tt, set_file f' g)
    /\ content f' = content (file_ g) /\ path f' = path (file_ g).
Proof.
  intros Hf Hlen. cbn [index_steps]. unfold eof, tellg. rewrite Hf.
  destruct (Z.eqb_spec (Z.of_nat (cursor (file_ g))) (-1)) as [Hneg | _]; [lia |].
  destruct (nth_error (content (file_ g)) (cursor (file_ g))) as [l |] eqn:H1.
  - assert (H2 : nth_error (content (file_ g)) (S (cursor (file_ g))) = None)
      by (apply nth_error_None; lia).
    assert (Hfw : forward (file_ g)
                  = (Returned false, set_failed (set_cursor (S (cursor (file_ g))) (file_ g)))).
    { unfold forward. rewrite Hf. unfold bind, try_catch, parse_as, ret, throw.
      rewrite (readline_at _ l Hf H1). unfold readline.
      cbn [failed set_cursor content cursor]. rewrite Hf, H2. cbn. reflexivity. }
    rewrite Hfw. eexists.
    destruct fuel; cbn [index_steps]; unfold eof; cbn [file_ set_file set_failed failed];
      (split; [reflexivity | split; reflexivity]).
  - rewrite forward_at_end; [| exact Hf | exact H1].
    exists (set_failed (file_ g)).
    destruct fuel; cbn [index_steps]; unfold eof; cbn [file_ set_file set_failed failed];
      (split; [reflexivity | split; reflexivity]).
Qed.

Lemma chunks_length chunks :
  forallb (fun c => is_step c || is_skipped c) chunks = true ->
  List.length chunks <= List.length (List.concat chunks).
Proof.
  induction chunks as [| c chunks IH]; intros Hok; [cbn; lia |].
  cbn [forallb] in Hok. apply andb_prop in Hok as (Hc & Hok).
  cbn [List.concat List.length]. rewrite length_app. specialize (IH Hok).
  destruct c as [| l1 [| l2 body]]; [discriminate | discriminate | cbn; lia].
Qed.

End ScanProperties.

Section ScanTheorems.
Context {E : Env}.

(** Steps and skipped pairs, then at most one line: the constructor
    returns with the lines of the steps. *)
Lemma chunks_then_tail p chunks tail :
  forallb (fun c => is_step c || is_skipped c) chunks = true ->
  List.length tail <= 1 ->
  GROFormat_new p (List.concat chunks ++ tail)
  = Some (Returned (mkGROFormat (TextFile_open p (List.concat chunks ++ tail))
                                (recorded chunks 0) [])).
Proof.
  intros Hok Htail. unfold GROFormat_new.
  pose proof (chunks_length chunks Hok) as Hlen.
  replace (2 + List.length (List.concat chunks ++ tail))
    with (List.length chunks
          + S (S (List.length (List.concat chunks ++ tail) - List.length chunks)))
    by (rewrite length_app; lia).
  rewrite (index_steps_chunks chunks _ _ [] tail Hok); try reflexivity.
  cbn [file_ steps_positions_ residues_ app List.length Nat.add].
  match goal with
  | |- context [index_steps (S ?fuel) ?g] =>
      destruct (index_steps_tail fuel g) as (f' & -> & Hc & Hp)
  end.
  - reflexivity.
  - cbn [file_ TextFile_open set_cursor content cursor]. rewrite length_app. lia.
  - cbn [set_file file_ steps_positions_ residues_ TextFile_open set_cursor content path] in *.
    unfold rewind. rewrite Hc, Hp. reflexivity.
Qed.

(** X1: a file made of steps (a title, a line with the number [n] of
    atoms, then [n + 1] lines) and of pairs of lines whose second is no
    number, followed by at most one line, is opened; the constructor
    records the line where each step starts, in order, and skips the
    pairs; [nsteps] is the number of the steps. *)
Theorem constructor_indexes_the_steps p chunks tail :
  forallb (fun c => is_step c || is_skipped c) chunks = true ->
  List.length tail <= 1 ->
  GROFormat_new p (List.concat chunks ++ tail)
  = Some (Returned (mkGROFormat (TextFile_open p (List.concat chunks ++ tail))
                                (recorded chunks 0) []))
  /\ nsteps (mkGROFormat (TextFile_open p (List.concat chunks ++ tail))
                         (recorded chunks 0) [])
     = List.length (filter is_step chunks).
Proof.
  intros Hok Htail. split; [apply chunks_then_tail; assumption |].
  unfold nsteps. cbn [steps_positions_]. clear. generalize 0 as start.
  induction chunks as [| c chunks IH]; intros start; [reflexivity |].
  cbn [recorded filter]. rewrite length_app, IH.
  destruct (is_step c); reflexivity.
Qed.




End ScanTheorems.

Section WriteSequences.
Context {E : Env}.












End WriteSequences.

Section ResidueProperties.
Context {E : Env}.

Lemma map_find_insert k k' r m :
  map_find k' m = None ->
  map_find k (map_insert k' r m) = if (k =? k')%N then Some r else map_find k m.
Proof.
  induction m as [| [k0 r0] m IH]; intros Hnone; cbn [map_insert map_find] in *.
  - reflexivity.
  - destruct (N.eqb_spec k' k0) as [-> | Hne]; [discriminate |].
    destruct (N.ltb_spec k' k0) as [Hlt | Hge]; cbn [map_find].
    + reflexivity.
    + destruct (N.eqb_spec k k0) as [-> | Hne0].
      * destruct (N.eqb_spec k0 k') as [Heq | _]; [congruence | reflexivity].
      * apply IH. exact Hnone.
Qed.

Lemma map_find_update k k' f m :
  map_find k (map_update k' f m)
  = if (k =? k')%N then option_map f (map_find k m) else map_find k m.
Proof.
  induction m as [| [k0 r0] m IH]; cbn [map_update map_find].
  - destruct (k =? k')%N; reflexivity.
  - destruct (N.eqb_spec k' k0) as [-> | Hne]; cbn [map_find].
    + destruct (N.eqb_spec k k0) as [-> | Hne0]; reflexivity.
    + destruct (N.eqb_spec k k0) as [-> | Hne0].
      * destruct (N.eqb_spec k0 k') as [Heq | _]; [congruence | reflexivity].
      * exact IH.
Qed.

Lemma map_insert_keys k r m :
  StronglySorted N.lt (map fst m) ->
  StronglySorted N.lt (map fst (map_insert k r m))
  /\ forall x, In x (map fst (map_insert k r m)) -> x = k \/ In x (map fst m).
Proof.
  induction m as [| [k0 r0] m IH]; intros Hs; cbn [map_insert map fst].
  - split; [repeat constructor | intros x [<- | []]; auto].
  - cbn [map fst] in Hs. apply StronglySorted_inv in Hs as (Hs & Hall).
    destruct (N.ltb_spec k k0) as [Hlt | Hge]; cbn [map fst].
    + split.
      * constructor; [constructor; assumption |].
        constructor; [exact Hlt |].
        eapply Forall_impl; [| exact Hall]. cbv beta. intros. lia.
      * intros x [<- | Hin]; auto.
    + destruct (N.eqb_spec k k0) as [-> | Hne]; cbn [map fst].
      * split; [constructor; assumption | intros x Hin; right; exact Hin].
      * destruct (IH Hs) as (Hs' & Hin'). split.
        -- constructor; [exact Hs' |].
           apply Forall_forall. intros x Hx. apply Hin' in Hx as [-> | Hx]; [lia |].
           apply (proj1 (Forall_forall _ _) Hall). exact Hx.
        -- intros x [<- | Hx]; [right; left; reflexivity |].
           apply Hin' in Hx as [-> | Hx]; auto. right. right. exact Hx.
Qed.

Lemma map_update_keys k f m : map fst (map_update k f m) = map fst m.
Proof.
  induction m as [| [k0 r0] m IH]; cbn [map_update map fst]; [reflexivity |].
  destruct (k =? k0)%N; cbn [map fst]; [reflexivity | rewrite IH; reflexivity].
Qed.

(** [read_atom] on the residues, by the residue id of the line. *)
Lemma line_residues_eq line index m :
  line_residues line index m
  = match line_resid line with
    | None => m
    | Some r =>
        match map_find r m with
        | None =>
            map_insert r (Residue_add_atom index
                            (Residue_new (trim (substring 5 5 line)) r)) m
        | Some _ => map_update r (Residue_add_atom index) m
        end
    end.
Proof.
  unfold line_residues, line_resid.
  destruct (parse_size_t (substring 0 5 line)) as [r | why]; [| reflexivity].
  destruct (r =? SIZE_MAX)%N; reflexivity.
Qed.

Lemma line_residues_sorted line index m :
  StronglySorted N.lt (map fst m) ->
  StronglySorted N.lt (map fst (line_residues line index m)).
Proof.
  intros Hs. rewrite line_residues_eq.
  destruct (line_resid line) as [r |]; [| exact Hs].
  destruct (map_find r m).
  - rewrite map_update_keys. exact Hs.
  - apply map_insert_keys. exact Hs.
Qed.

Lemma lines_residues_sorted lines :
  forall index m,
    StronglySorted N.lt (map fst m) ->
    StronglySorted N.lt (map fst (lines_residues lines index m)).
Proof.
  induction lines as [| line lines IH]; intros index m Hs; [exact Hs |].
  cbn [lines_residues]. apply IH, line_residues_sorted, Hs.
Qed.

Lemma add_atoms_app l1 l2 res :
  add_atoms (l1 ++ l2) res = add_atoms l2 (add_atoms l1 res).
Proof. apply fold_left_app. Qed.

Lemma lines_residues_find r lines :
  forall index m,
    map_find r (lines_residues lines index m)
    = match map_find r m with
      | Some res => Some (add_atoms (residue_atoms r lines index) res)
      | None =>
          match find (has_resid r) lines with
          | Some line =>
              Some (add_atoms (residue_atoms r lines index)
                              (Residue_new (trim (substring 5 5 line)) r))
          | None => None
          end
      end.
Proof.
  induction lines as [| line lines IH]; intros index m.
  - cbn. destruct (map_find r m); reflexivity.
  - cbn [lines_residues residue_atoms find]. rewrite IH, line_residues_eq.
    destruct (has_resid r line) eqn:Hh; unfold has_resid in Hh;
      destruct (line_resid line) as [r' |] eqn:Hr'; try discriminate; cbn [app].
    + apply N.eqb_eq in Hh. subst r'.
      destruct (map_find r m) as [res |] eqn:Hfind.
      * rewrite map_find_update, N.eqb_refl, Hfind. reflexivity.
      * rewrite map_find_insert, N.eqb_refl by exact Hfind. reflexivity.
    + apply N.eqb_neq in Hh.
      destruct (map_find r' m) as [res' |] eqn:Hfind'.
      * rewrite map_find_update.
        destruct (N.eqb_spec r r') as [Heq | _]; [congruence | reflexivity].
      * rewrite map_find_insert by exact Hfind'.
        destruct (N.eqb_spec r r') as [Heq | _]; [congruence | reflexivity].
    + reflexivity.
Qed.

Lemma residue_atoms_bounds r lines :
  forall index i, In i (residue_atoms r lines index) ->
                  index <= i < index + List.length lines.
Proof.
  induction lines as [| line lines IH]; intros index i Hin; [destruct Hin |].
  cbn [residue_atoms] in Hin. apply in_app_or in Hin as [Hin | Hin].
  - destruct (has_resid r line); [| destruct Hin].
    destruct Hin as [<- | []]. cbn. lia.
  - apply IH in Hin. cbn [List.length]. lia.
Qed.

Lemma residue_atoms_sorted r lines :
  forall index, StronglySorted lt (residue_atoms r lines index).
Proof.
  induction lines as [| line lines IH]; intros index; [constructor |].
  cbn [residue_atoms]. destruct (has_resid r line); cbn [app]; [| apply IH].
  constructor; [apply IH |].
  apply Forall_forall. intros i Hin. apply residue_atoms_bounds in Hin. lia.
Qed.

Lemma sorted_insert_last i l :
  Forall (fun j => j < i) l -> sorted_insert i l = l ++ [i].
Proof.
  induction l as [| j l IH]; intros Hall; [reflexivity |].
  apply Forall_cons_iff in Hall as (Hj & Hall). cbn [sorted_insert app].
  destruct (Nat.ltb_spec i j) as [Hlt | _]; [lia |].
  destruct (Nat.eqb_spec i j) as [-> | _]; [lia |].
  rewrite IH by exact Hall. reflexivity.
Qed.

Lemma add_atoms_sorted indexes :
  forall res,
    StronglySorted lt indexes ->
    Forall (fun i => Forall (fun j => j < i) (res_atoms res)) indexes ->
    res_atoms (add_atoms indexes res) = res_atoms res ++ indexes
    /\ res_name (add_atoms indexes res) = res_name res
    /\ res_id (add_atoms indexes res) = res_id res.
Proof.
  induction indexes as [| i indexes IH]; intros res Hs Hall.
  - cbn. rewrite app_nil_r. auto.
  - apply StronglySorted_inv in Hs as (Hs & Hlt).
    apply Forall_cons_iff in Hall as (Hi & Hall).
    cbn [add_atoms fold_left]. fold (add_atoms indexes (Residue_add_atom i res)).
    destruct (IH (Residue_add_atom i res) Hs) as (Ha & Hn & Hid).
    + apply Forall_forall. intros k Hk.
      cbn [Residue_add_atom res_atoms]. rewrite sorted_insert_last by exact Hi.
      apply Forall_app. split.
      * apply (proj1 (Forall_forall _ _) Hall). exact Hk.
      * constructor; [| constructor]. apply (proj1 (Forall_forall _ _) Hlt). exact Hk.
    + rewrite Ha, Hn, Hid. cbn [Residue_add_atom res_atoms res_name res_id].
      rewrite sorted_insert_last by exact Hi. rewrite <- app_assoc. auto.
Qed.

(** The residues that the loop over the atom lines builds from no
    residue. *)
Lemma lines_residues_spec r lines index :
  map_find r (lines_residues lines index [])
  = match find (has_resid r) lines with
    | Some line =>
        Some (mkResidue (trim (substring 5 5 line)) (Some r)
                        (residue_atoms r lines index))
    | None => None
    end.
Proof.
  rewrite lines_residues_find. cbn [map_find].
  destruct (find (has_resid r) lines) as [line |]; [| reflexivity].
  destruct (add_atoms_sorted (residue_atoms r lines index)
              (Residue_new (trim (substring 5 5 line)) r))
    as (Ha & Hn & Hid).
  - apply residue_atoms_sorted.
  - apply Forall_forall. intros i _. constructor.
  - destruct (add_atoms _ _) as [nm id ats]. cbn in *. subst. reflexivity.
Qed.

Lemma read_atoms_residues lines :
  forall g fr s',
    for_each read_atom lines (g, fr) = (Returned tt, s') ->
    residues_ (fst s') = lines_residues lines (Frame_size fr) (residues_ g).
Proof.
  induction lines as [| line lines IH]; intros g fr s' H; cbn [for_each] in H.
  - inversion H. reflexivity.
  - apply bind_returned in H as ([] & s1 & H1 & H).
    apply read_atom_returned in H1 as (_ & p & v & _ & _ & ->).
    apply IH in H. rewrite H. cbn [lines_residues residues_ set_residues].
    do 2 f_equal. unfold Frame_size, Frame_add_atom. cbn [positions_].
    rewrite length_app. cbn. lia.
Qed.

Lemma residues_add_residues rs :
  forall fr,
    residues (topology_ (add_residues rs fr))
    = residues (topology_ fr) ++ map snd rs.
Proof.
  unfold add_residues.
  induction rs as [| r rs IH]; intros fr; cbn [fold_left map].
  - rewrite app_nil_r. reflexivity.
  - rewrite IH. cbn [Frame_add_residue topology_ residues].
    rewrite <- app_assoc. reflexivity.
Qed.

(** X4: after a read that returns, the residues of the format are in
    increasing order of their id; the residue of an id is found exactly
    when an atom line carries that id; it has the name on the first such
    line and, as atoms, the indexes of all such lines, in order, wherever
    they stand in the step. A line whose first five characters are no
    number belongs to no residue. These residues join those of the
    frame, in that order. *)
Theorem read_groups_atoms_by_residue g fr g' fr' :
  read (g, fr) = (Returned tt, (g', fr')) ->
  exists header n,
    nth_error (content (file_ g)) (S (cursor (file_ g))) = Some header
    /\ parse_size_t header = Parsed n
    /\ StronglySorted N.lt (map fst (residues_ g'))
    /\ (forall r,
           map_find r (residues_ g')
           = match find (has_resid r) (atom_lines (file_ g) n) with
             | Some line =>
                 Some (mkResidue (trim (substring 5 5 line)) (Some r)
                                 (residue_atoms r (atom_lines (file_ g) n) 0))
             | None => None
             end)
    /\ exists old, residues (topology_ fr') = old ++ map snd (residues_ g').
Proof.
  unfold read. intros H.
  apply bind_returned in H as (n & s & Hh & H).
  apply read_header_returned in Hh as (title & line & Hf & Ht & Hl & Hp & ->).
  apply bind_returned in H as ([] & s & H1 & H).
  rewrite on_residues_eq in H1. inversion H1; subst s; clear H1.
  apply bind_returned in H as ([] & s & H1 & H).
  rewrite on_frame_eq in H1. inversion H1; subst s; clear H1.
  apply bind_returned in H as ([] & s & H1 & H).
  rewrite on_frame_eq in H1. inversion H1; subst s; clear H1.
  apply bind_returned in H as ([] & s & H1 & H).
  rewrite on_frame_eq in H1. inversion H1; subst s; clear H1.
  apply bind_returned in H as (lines & s & H1 & H).
  apply on_file_returned in H1 as (f1 & H1 & ->).
  apply readlines_returned in H1 as (_ & Hn & -> & ->).
  apply bind_returned in H as ([] & [g1 fr1] & H1 & H).
  apply read_atoms_residues in H1 as Hres.
  apply read_atoms_returned in H1 as (_ & _ & _ & Hfile & _).
  apply bind_returned in H as ([] & [g2 fr2] & H2 & H).
  apply read_box_returned in H2 as (_ & _ & _ & Hg2 & _).
  apply bind_returned in H as (rs & s3 & H3 & H).
  unfold gets in H3. inversion H3; subst rs s3; clear H3.
  rewrite add_residues_eq in H. inversion H; subst g' fr'.
  cbn [fst snd] in *.
  assert (Hm : residues_ g2 = lines_residues (atom_lines (file_ g) n) 0 []).
  { rewrite Hg2. cbn [residues_ set_file]. rewrite Hres.
    cbn [residues_ set_residues set_file after_header file_ cursor set_cursor content].
    reflexivity. }
  exists line, n. split; [exact Hl |]. split; [exact Hp |].
  rewrite Hm. split; [| split].
  - apply lines_residues_sorted. constructor.
  - intros r. apply lines_residues_spec.
  - rewrite <- Hm. eexists. apply residues_add_residues.
Qed.

End ResidueProperties.

Section GeneratedIds.
Context {E : Env}.

Lemma first_free_resid_step rs :
  forall start,
    (start < 2 ^ 64)%N ->
    (forall r v, In r rs -> res_id r = Some v -> (v < SIZE_MAX)%N) ->
    let final :=
      fold_left (fun (max_resid : N) (r : Residue) =>
                   match res_id r with
                   | Some id => if (max_resid <? id)%N then wrap64 (id + 1) else max_resid
                   | None => max_resid
                   end) rs start in
    (start <= final)%N
    /\ (forall r v, In r rs -> res_id r = Some v -> (v <= final)%N)
    /\ (final = start
        \/ exists r v, In r rs /\ res_id r = Some v /\ final = (v + 1)%N).
Proof.
  induction rs as [| r0 rs IH]; intros start Hstart Hids; cbn [fold_left].
  - cbv zeta. split; [lia |]. split; [intros r v [] | left; reflexivity].
  - cbv zeta.
    assert (Hrest : forall r v, In r rs -> res_id r = Some v -> (v < SIZE_MAX)%N)
      by (intros r v Hin; apply Hids; right; exact Hin).
    destruct (res_id r0) as [id |] eqn:Hid.
    + pose proof (Hids r0 id (or_introl eq_refl) Hid) as Hsmall.
      unfold SIZE_MAX in Hsmall.
      assert (Hw : wrap64 (id + 1) = (id + 1)%N)
        by (unfold wrap64; apply N.mod_small; lia).
      destruct (N.ltb_spec start id) as [Hlt | Hge].
      * rewrite Hw. destruct (IH (id + 1)%N ltac:(lia) Hrest) as (Hle & Hall & Hcase).
        cbv zeta in Hle, Hall, Hcase. split; [lia |]. split.
        -- intros r v [<- | Hin] Hv; [| eapply Hall; eassumption].
           rewrite Hid in Hv. inversion Hv; subst v. lia.
        -- right. destruct Hcase as [-> | (r & v & Hin & Hv & ->)].
           ++ exists r0, id. repeat split; auto. left. reflexivity.
           ++ exists r, v. repeat split; auto. right. exact Hin.
      * destruct (IH start Hstart Hrest) as (Hle & Hall & Hcase).
        cbv zeta in Hle, Hall, Hcase. split; [lia |]. split.
        -- intros r v [<- | Hin] Hv; [| eapply Hall; eassumption].
           rewrite Hid in Hv. inversion Hv; subst v. lia.
        -- destruct Hcase as [-> | (r & v & Hin & Hv & ->)]; [left; reflexivity |].
           right. exists r, v. repeat split; auto. right. exact Hin.
    + destruct (IH start Hstart Hrest) as (Hle & Hall & Hcase).
      cbv zeta in Hle, Hall, Hcase. split; [lia |]. split.
      * intros r v [<- | Hin] Hv; [congruence | eapply Hall; eassumption].
      * destruct Hcase as [-> | (r & v & Hin & Hv & ->)]; [left; reflexivity |].
        right. exists r, v. repeat split; auto. right. exact Hin.
Qed.

(** X5: the first residue id that [write] makes up for atoms without
    one is at least every residue id of the topology, and is [1] or the
    successor of one of them; it can be an id of the topology: for the
    ids [v] and [v + 1], in this order, it is [v + 1]. *)
Theorem first_generated_residue_id rs :
  (forall r v, In r rs -> res_id r = Some v -> (v < SIZE_MAX)%N) ->
  (forall r v, In r rs -> res_id r = Some v -> (v <= first_free_resid rs)%N)
  /\ (first_free_resid rs = 1%N
      \/ exists r v, In r rs /\ res_id r = Some v /\ first_free_resid rs = (v + 1)%N)
  /\ (forall v name name' atoms atoms',
         (1 < v)%N -> (v + 1 < SIZE_MAX)%N ->
         first_free_resid [mkResidue name (Some v) atoms;
                           mkResidue name' (Some (v + 1)%N) atoms']
         = (v + 1)%N).
Proof.
  intros Hids.
  destruct (first_free_resid_step rs 1%N ltac:(reflexivity) Hids) as (_ & Hall & Hcase).
  split; [exact Hall |]. split; [exact Hcase |].
  intros v name name' atoms atoms' Hv Hmax.
  unfold first_free_resid, SIZE_MAX in *. cbn [fold_left res_id].
  destruct (N.ltb_spec 1 v) as [_ | Hle]; [| lia].
  assert (Hw : wrap64 (v + 1) = (v + 1)%N)
    by (unfold wrap64; apply N.mod_small; lia).
  rewrite Hw. destruct (N.ltb_spec (v + 1) (v + 1)) as [Hlt | _]; [lia | reflexivity].
Qed.

End GeneratedIds.

Section AtomLines.
Context {E : Env}.

Lemma atom_texts_app frame l1 :
  forall l2 m,
    atom_texts frame (l1 ++ l2) m
    = atom_texts frame l1 m ++ atom_texts frame l2 (max_resid_after frame l1 m).
Proof.
  induction l1 as [| i l1 IH]; intros l2 m; [reflexivity |].
  cbn [app atom_texts max_resid_after fold_left]. rewrite IH. reflexivity.
Qed.

(** The text of atom [i], with the counter of the residue ids as the
    loop has it when it comes to [i]. *)
Lemma frame_atom_texts_exact frame i text :
  nth_error (frame_atom_texts frame) i = Some text ->
  i < Frame_size frame
  /\ text = atom_text frame i
              (max_resid_after frame (seq 0 i)
                 (first_free_resid (residues (topology_ frame)))).
Proof.
  intros Hnth.
  assert (Hi : i < Frame_size frame).
  { apply frame_atom_texts_nth in Hnth as (Hi & _). exact Hi. }
  split; [exact Hi |]. unfold frame_atom_texts in Hnth.
  replace (Frame_size frame) with (i + S (Frame_size frame - S i)) in Hnth by lia.
  rewrite seq_app, atom_texts_app in Hnth. cbn [seq Nat.add atom_texts] in Hnth.
  rewrite nth_error_app2 in Hnth by (rewrite length_atom_texts, length_seq; lia).
  rewrite length_atom_texts, length_seq, Nat.sub_diag in Hnth.
  cbn [nth_error] in Hnth. inversion Hnth. reflexivity.
Qed.

Lemma wrap64_add_l a b : wrap64 (wrap64 a + b) = wrap64 (a + b).
Proof. unfold wrap64. apply N.Div0.add_mod_idemp_l. Qed.

Lemma max_resid_after_count frame l :
  forall m,
    wrap64 (max_resid_after frame l m)
    = wrap64 (m + N.of_nat (List.length
                              (filter (fun j => match residue_id frame j with
                                                | Some _ => false
                                                | None => true
                                                end) l))).
Proof.
  induction l as [| i l IH]; intros m; cbn [max_resid_after fold_left filter].
  - cbn. rewrite N.add_0_r. reflexivity.
  - fold (max_resid_after frame l (next_max_resid frame i m)). rewrite IH.
    unfold next_max_resid. destruct (residue_id frame i); [reflexivity |].
    cbn [List.length]. rewrite wrap64_add_l. f_equal. lia.
Qed.

Lemma wrap64_small n : (n < 2 ^ 64)%N -> wrap64 n = n.
Proof. intros H. unfold wrap64. apply N.mod_small. exact H. Qed.

Lemma first_free_resid_bound rs : (first_free_resid rs < 2 ^ 64)%N.
Proof.
  unfold first_free_resid.
  assert (H : forall start, (start < 2 ^ 64)%N ->
                            (fold_left
                               (fun (max_resid : N) (r : Residue) =>
                                  match res_id r with
                                  | Some id =>
                                      if (max_resid <? id)%N then wrap64 (id + 1)
                                      else max_resid
                                  | None => max_resid
                                  end) rs start < 2 ^ 64)%N).
  { induction rs as [| r rs IH]; intros start Hs; [exact Hs |].
    cbn [fold_left]. apply IH. destruct (res_id r) as [id |]; [| exact Hs].
    destruct (start <? id)%N; [| exact Hs].
    unfold wrap64. apply N.mod_lt. discriminate. }
  apply H. reflexivity.
Qed.

Lemma max_resid_after_bound frame l :
  forall m, (m < 2 ^ 64)%N -> (max_resid_after frame l m < 2 ^ 64)%N.
Proof.
  induction l as [| i l IH]; intros m Hm; [exact Hm |].
  cbn [max_resid_after fold_left]. apply IH. unfold next_max_resid.
  destruct (residue_id frame i); [exact Hm |].
  unfold wrap64. apply N.mod_lt. discriminate.
Qed.

(** The counter of the residue ids when the loop comes to atom [i]. *)
Lemma max_resid_at frame i :
  max_resid_after frame (seq 0 i) (first_free_resid (residues (topology_ frame)))
  = generated_resid frame i.
Proof.
  unfold generated_resid, unnumbered_before.
  rewrite <- max_resid_after_count. symmetry. apply wrap64_small.
  apply max_resid_after_bound, first_free_resid_bound.
Qed.

Lemma substring_all n s : String.length s <= n -> substring 0 n s = s.
Proof.
  revert n. induction s as [| c s IH]; intros n Hn; destruct n; cbn in *;
    try reflexivity; try lia.
  rewrite IH by lia. reflexivity.
Qed.

(** X6: in the line of an atom that is in no residue, or in a residue
    without an id, the first five columns hold the id made up for it:
    the first free id plus the number of such atoms before it, or [-1]
    above 99999. In a frame without residues atom [i] gets [i + 1]. The
    warning on residue ids is only for ids of the topology: an id made
    up above 99999 is dropped without a warning. *)
Theorem generated_residue_ids frame g w g' w' :
  write frame (g, w) = (Returned tt, (g', w')) ->
  exists title count atom_texts box,
    content (file_ g')
    = content (file_ g)
      ++ flat_map (lines_of "") (title :: count :: atom_texts ++ [box])
    /\ List.length atom_texts = Frame_size frame
    /\ (forall i text,
           nth_error atom_texts i = Some text ->
           residue_id frame i = None ->
           substring 0 5 text
           = pad_left 5 (if (generated_resid frame i <=? 99999)%N
                         then to_string (generated_resid frame i)
                         else "-1"))
    /\ (residues (topology_ frame) = [] ->
        forall i, residue_id frame i = None
                  /\ generated_resid frame i = wrap64 (N.of_nat i + 1))
    /\ (In "Too many residues for GRO format, removing residue id" w' ->
        In "Too many residues for GRO format, removing residue id" w
        \/ exists i v,
            i < Frame_size frame /\ residue_id frame i = Some v /\ (99999 < v)%N).
Proof.
  intros H. apply write_returned_state in H as (Hfit & Hcontent & ->).
  exists (title_text frame), (count_text frame), (frame_atom_texts frame),
         (cell_text (cell_ frame)).
  split; [exact Hcontent |].
  split; [unfold frame_atom_texts; rewrite length_atom_texts, length_seq; reflexivity |].
  split; [| split].
  - intros i text Hnth Hnone.
    apply frame_atom_texts_exact in Hnth as (Hi & ->).
    rewrite max_resid_at. unfold atom_text.
    assert (Hcol : resid_column frame i (generated_resid frame i)
                   = if (generated_resid frame i <=? 99999)%N
                     then to_string (generated_resid frame i) else "-1")
      by (unfold resid_column; rewrite Hnone; reflexivity).
    rewrite <- Hcol.
    pose proof (resid_column_small frame i (generated_resid frame i)) as (Hlen & _).
    rewrite <- (length_pad_left 5 _ Hlen) at 1. apply substring_take.
  - intros Hnone i.
    assert (Hid : forall j, residue_id frame j = None)
      by (intros j; unfold residue_id, residue_for_atom; rewrite Hnone; reflexivity).
    split; [apply Hid |].
    unfold generated_resid, unnumbered_before. rewrite Hnone.
    cbn [first_free_resid fold_left]. f_equal.
    rewrite forallb_filter_id, length_seq; [lia |].
    apply forallb_forall. intros j _. rewrite Hid. reflexivity.
  - intros Hin. apply in_app_or in Hin as [Hin | Hin]; [left; exact Hin | right].
    unfold frame_warnings in Hin. apply in_flat_map in Hin as (i & Hi & Hin).
    apply in_seq in Hi. unfold atom_warnings in Hin.
    apply in_app_or in Hin as [Hin | Hin].
    + exfalso. unfold resname_warnings in Hin.
      destruct (residue_for_atom (topology_ frame) i) as [residue |]; [| destruct Hin].
      destruct (5 <? String.length (res_name residue)); [| destruct Hin].
      destruct Hin as [Heq | []]. discriminate Heq.
    + apply in_app_or in Hin as [Hin | Hin].
      * unfold resid_warnings in Hin.
        destruct (residue_id frame i) as [v |] eqn:Hv; [| destruct Hin].
        destruct (N.leb_spec v 99999) as [Hle | Hgt]; [destruct Hin |].
        exists i, v. split; [lia |]. auto.
      * exfalso. unfold index_warnings in Hin.
        destruct (99999 <=? N.of_nat i)%N; [| destruct Hin].
        destruct Hin as [Heq | []]. discriminate Heq.
Qed.

(** X7: the columns 5 to 10 of an atom line hold the first five
    characters of the name of its residue, padded on the right, or
    [XXXXX] for an atom without residue; a name of more than five
    characters is reported by a warning that quotes it. *)
Theorem residue_name_column frame g w g' w' :
  write frame (g, w) = (Returned tt, (g', w')) ->
  exists title count atom_texts box,
    content (file_ g')
    = content (file_ g)
      ++ flat_map (lines_of "") (title :: count :: atom_texts ++ [box])
    /\ List.length atom_texts = Frame_size frame
    /\ forall i text,
        nth_error atom_texts i = Some text ->
        substring 5 5 text
        = pad_right 5 match residue_for_atom (topology_ frame) i with
                      | Some residue => substring 0 5 (res_name residue)
                      | None => "XXXXX"
                      end
        /\ forall residue,
            residue_for_atom (topology_ frame) i = Some residue ->
            5 < String.length (res_name residue) ->
            In ("Residue '" +++ res_name residue
                +++ "' has a name too long for GRO format, it will be truncated.") w'.
Proof.
  intros H. apply write_returned_state in H as (Hfit & Hcontent & ->).
  exists (title_text frame), (count_text frame), (frame_atom_texts frame),
         (cell_text (cell_ frame)).
  split; [exact Hcontent |].
  split; [unfold frame_atom_texts; rewrite length_atom_texts, length_seq; reflexivity |].
  intros i text Hnth.
  apply frame_atom_texts_nth in Hnth as (Hi & m & ->). split.
  - assert (Hcol : resname_column frame i
                   = match residue_for_atom (topology_ frame) i with
                     | Some residue => substring 0 5 (res_name residue)
                     | None => "XXXXX"
                     end).
    { unfold resname_column.
      destruct (residue_for_atom (topology_ frame) i) as [residue |]; [| reflexivity].
      destruct (Nat.ltb_spec 5 (String.length (res_name residue))) as [Hlt | Hle];
        [reflexivity | symmetry; apply substring_all; exact Hle]. }
    rewrite <- Hcol. unfold atom_text. apply substring_at.
    + apply length_pad_left, resid_column_small.
    + apply length_pad_right, resname_column_length.
  - intros residue Hres Hlong. apply in_or_app. right.
    apply (warnings_of_atom frame i); [exact Hi |].
    unfold atom_warnings, resname_warnings. rewrite Hres.
    destruct (Nat.ltb_spec 5 (String.length (res_name residue))) as [_ | Hle]; [| lia].
    apply in_or_app. left. left. reflexivity.
Qed.

End AtomLines.

Section WriteFailures.
Context {E : Env}.

(** One turn of the loop, for an atom whose coordinates do not fit: the
    warnings on its residue are out, its line is not. *)
Lemma write_atom_unfit frame i max_resid g w :
  atom_fits frame i = false ->
  exists e,
    write_atom frame i max_resid (g, w)
    = (Thrown e, (g, w ++ resname_warnings frame i ++ resid_warnings frame i))
    /\ kind e = FormatError.
Proof.
  unfold atom_fits. intros Hfits. unfold write_atom.
  erewrite bind_step; [| apply gro_resname_eq].
  erewrite bind_step; [| apply gro_resid_eq].
  cbn [fst snd].
  pose proof (resname_column_length frame i) as Hlen.
  destruct (Nat.leb_spec (String.length (resname_column frame i)) 5) as [_ | Hgt]; [| lia].
  erewrite bind_step; [| reflexivity].
  fold (position_nm frame i). rewrite <- app_assoc.
  destruct (fits (position_nm frame i)) eqn:Hpos.
  - erewrite bind_step; [| rewrite check_values_size_eq, Hpos; reflexivity].
    cbn [andb] in Hfits.
    destruct (velocities_ frame) as [velocities |]; [| discriminate].
    fold (velocity_nm velocities i).
    erewrite bind_thrown; [| rewrite check_values_size_eq, Hfits; reflexivity].
    eexists. split; reflexivity.
  - erewrite bind_thrown; [| rewrite check_values_size_eq, Hpos; reflexivity].
    eexists. split; reflexivity.
Qed.

Lemma write_atoms_unfit frame l1 k l2 :
  forall max_resid g w,
    forallb (atom_fits frame) l1 = true ->
    atom_fits frame k = false ->
    exists e,
      write_atoms frame (l1 ++ k :: l2) max_resid (g, w)
      = (Thrown e,
         (set_file (print_all (atom_texts frame l1 max_resid) (file_ g)) g,
          w ++ flat_map (atom_warnings frame) l1
            ++ resname_warnings frame k ++ resid_warnings frame k))
      /\ kind e = FormatError.
Proof.
  induction l1 as [| i l1 IH]; intros max_resid g w Hfit Hk.
  - cbn [app write_atoms atom_texts print_all fold_left flat_map].
    destruct (write_atom_unfit frame k max_resid g w Hk) as (e & Hrun & He).
    exists e. erewrite bind_thrown; [| exact Hrun].
    rewrite set_file_self. auto.
  - cbn [forallb] in Hfit. apply andb_prop in Hfit as (Hi & Hfit).
    cbn [app write_atoms]. erewrite bind_step; [| apply write_atom_fits; exact Hi].
    destruct (IH (next_max_resid frame i max_resid)
                 (set_file (print_line (atom_text frame i max_resid) (file_ g)) g)
                 (w ++ atom_warnings frame i) Hfit Hk) as (e & Hrun & He).
    exists e. rewrite Hrun. cbn [atom_texts flat_map file_ set_file print_all fold_left].
    rewrite <- !app_assoc. auto.
Qed.

Lemma write_cell_unfit cell g w :
  cell_fits cell = false ->
  exists e, write_cell cell (g, w) = (Thrown e, (g, w)) /\ kind e = FormatError.
Proof.
  unfold cell_fits, write_cell. intros Hfit. destruct (shape cell).
  - erewrite bind_thrown; [| rewrite check_values_size_eq, Hfit; reflexivity].
    eexists. split; reflexivity.
  - match type of Hfit with
    | (fits ?a && fits ?b)%bool = false => destruct (fits a) eqn:H1
    end.
    + erewrite bind_step; [| rewrite check_values_size_eq, H1; reflexivity].
      cbn [andb] in Hfit.
      erewrite bind_thrown; [| rewrite check_values_size_eq, Hfit; reflexivity].
      eexists. split; reflexivity.
    + erewrite bind_thrown; [| rewrite check_values_size_eq, H1; reflexivity].
      eexists. split; reflexivity.
  - erewrite bind_thrown; [| rewrite check_values_size_eq, Hfit; reflexivity].
    eexists. split; reflexivity.
Qed.

Lemma first_unfit (p : nat -> bool) n :
  forallb p (seq 0 n) = true
  \/ exists k, k < n /\ forallb p (seq 0 k) = true /\ p k = false.
Proof.
  induction n as [| n IH]; [left; reflexivity |].
  destruct IH as [Hall | (k & Hk & Hbefore & Hfalse)].
  - destruct (p n) eqn:Hn.
    + left. rewrite seq_S, forallb_app, Hall. cbn. rewrite Hn. reflexivity.
    + right. exists n. auto.
  - right. exists k. auto.
Qed.

(** X8: the outcomes of [write]. It returns exactly when every value
    passes the size check, and then records one more position. It throws
    only a [FormatError], at the first atom whose position or velocity
    does not fit, or at the cell; the title, the number of atoms and the
    lines of the atoms before it are in the file by then, and no
    position is recorded. It never aborts: the residue name has at most
    five characters when the assertion looks at it. *)
Theorem write_outcomes frame g w r g' w' :
  write frame (g, w) = (r, (g', w')) ->
  match r with
  | Returned _ =>
      frame_fits frame = true
      /\ exists position, steps_positions_ g' = steps_positions_ g ++ [position]
  | Thrown e =>
      kind e = FormatError
      /\ steps_positions_ g' = steps_positions_ g
      /\ exists k,
          k <= Frame_size frame
          /\ forallb (atom_fits frame) (seq 0 k) = true
          /\ (if k <? Frame_size frame then atom_fits frame k = false
              else cell_fits (cell_ frame) = false)
          /\ content (file_ g')
             = content (file_ g)
               ++ flat_map (lines_of "")
                    (title_text frame :: count_text frame
                     :: firstn k (frame_atom_texts frame))
  | Aborted _ => False
  end.
Proof.
  intros H.
  destruct (first_unfit (atom_fits frame) (Frame_size frame))
    as [Hall | (k & Hk & Hbefore & Hfalse)].
  - destruct (cell_fits (cell_ frame)) eqn:Hcell.
    + assert (Hfit : frame_fits frame = true)
        by (unfold frame_fits; rewrite Hall, Hcell; reflexivity).
      rewrite (write_fits frame g w Hfit) in H. inversion H; subst r g' w'.
      split; [exact Hfit |]. eexists. reflexivity.
    + unfold write in H.
      erewrite bind_step in H; [| apply print_eq].
      erewrite bind_step in H; [| apply print_eq].
      erewrite bind_step in H; [| apply write_atoms_fit; exact Hall].
      match type of H with
      | bind _ _ ?s = _ =>
          destruct (write_cell_unfit (cell_ frame) (fst s) (snd s) Hcell)
            as (e & Hrun & He)
      end.
      cbn [fst snd] in Hrun. erewrite bind_thrown in H; [| exact Hrun].
      inversion H; subst r g' w'. split; [exact He |].
      split; [reflexivity |]. exists (Frame_size frame).
      split; [lia |]. split; [exact Hall |]. rewrite Nat.ltb_irrefl.
      split; [reflexivity |].
      cbn [file_ set_file]. rewrite content_print_all.
      unfold print_line. cbn [content]. rewrite <- !app_assoc.
      rewrite firstn_all2
        by (unfold frame_atom_texts; rewrite length_atom_texts, length_seq; lia).
      reflexivity.
  - unfold write in H.
    erewrite bind_step in H; [| apply print_eq].
    erewrite bind_step in H; [| apply print_eq].
    assert (Hseq : seq 0 (Frame_size frame)
                   = seq 0 k ++ k :: seq (S k) (Frame_size frame - S k)).
    { replace (Frame_size frame) with (k + S (Frame_size frame - S k)) at 1 by lia.
      rewrite seq_app. reflexivity. }
    rewrite Hseq in H.
    match type of H with
    | bind (write_atoms _ _ ?m) _ ?s = _ =>
        destruct (write_atoms_unfit frame (seq 0 k) k
                    (seq (S k) (Frame_size frame - S k)) m (fst s) (snd s)
                    Hbefore Hfalse)
          as (e & Hrun & He)
    end.
    cbn [fst snd] in Hrun. erewrite bind_thrown in H; [| exact Hrun].
    inversion H; subst r g' w'. split; [exact He |].
    split; [reflexivity |]. exists k.
    split; [lia |]. split; [exact Hbefore |].
    destruct (Nat.ltb_spec k (Frame_size frame)) as [_ | Hge]; [| lia].
    split; [exact Hfalse |].
    cbn [file_ set_file]. rewrite content_print_all.
    unfold print_line. cbn [content]. rewrite <- !app_assoc.
    unfold frame_atom_texts. rewrite Hseq, atom_texts_app.
    rewrite firstn_app, firstn_all2, length_atom_texts, length_seq, Nat.sub_diag
      by (rewrite length_atom_texts, length_seq; lia).
    cbn [firstn]. rewrite app_nil_r. reflexivity.
Qed.

End WriteFailures.

Section Keeps.
Context {S : Type} (R : S -> S -> Prop).
Hypothesis R_refl : forall s, R s s.
Hypothesis R_trans : forall s1 s2 s3, R s1 s2 -> R s2 s3 -> R s1 s3.

Lemma keeps_ret {A} (a : A) : keeps R (ret a).
Proof. intros s r s' H. inversion H. apply R_refl. Qed.

Lemma keeps_throw {A} e : keeps R (@throw S A e).
Proof. intros s r s' H. inversion H. apply R_refl. Qed.

Lemma keeps_abort {A} w : keeps R (@abort S A w).
Proof. intros s r s' H. inversion H. apply R_refl. Qed.

Lemma keeps_gets {A} (f : S -> A) : keeps R (gets f).
Proof. intros s r s' H. inversion H. apply R_refl. Qed.

Lemma keeps_bind {A B} (m : M S A) (k : A -> M S B) :
  keeps R m -> (forall a, keeps R (k a)) -> keeps R (bind m k).
Proof.
  intros Hm Hk s r s' H. unfold bind in H.
  destruct (m s) as [[a | e | w] s1] eqn:Hms.
  - eapply R_trans; [eapply Hm; exact Hms | eapply Hk; exact H].
  - inversion H; subst. eapply Hm. exact Hms.
  - inversion H; subst. eapply Hm. exact Hms.
Qed.

Lemma keeps_try_catch {A} (m : M S A) h :
  keeps R m -> (forall e, keeps R (h e)) -> keeps R (try_catch m h).
Proof.
  intros Hm Hh s r s' H. unfold try_catch in H.
  destruct (m s) as [[a | e | w] s1] eqn:Hms.
  - inversion H; subst. eapply Hm. exact Hms.
  - eapply R_trans; [eapply Hm; exact Hms | eapply Hh; exact H].
  - inversion H; subst. eapply Hm. exact Hms.
Qed.

Lemma keeps_for_each {A} (body : A -> M S unit) l :
  (forall a, keeps R (body a)) -> keeps R (for_each body l).
Proof.
  intros Hb. induction l as [| a l IH]; cbn [for_each].
  - apply keeps_ret.
  - apply keeps_bind; [apply Hb | intros _; exact IH].
Qed.

Lemma keeps_modify (f : S -> S) : (forall s, R s (f s)) -> keeps R (modify f).
Proof. intros Hf s r s' H. inversion H. apply Hf. Qed.

End Keeps.

Section ReadKeeps.
Context {E : Env}.

Lemma same_index_refl s : same_index s s.
Proof. unfold same_index. auto. Qed.

Lemma same_index_trans s1 s2 s3 :
  same_index s1 s2 -> same_index s2 s3 -> same_index s1 s3.
Proof. unfold same_index. intros (A1 & B1 & C1) (A2 & B2 & C2). repeat split; congruence. Qed.

Lemma keeps_parse_as {S A} (R : S -> S -> Prop) (p : string -> parsed A) l :
  (forall s, R s s) -> keeps R (parse_as p l).
Proof.
  intros Hrefl. unfold parse_as. destruct (p l); [apply keeps_ret | apply keeps_throw];
    exact Hrefl.
Qed.

Lemma keeps_readline : keeps same_index (on_file readline).
Proof.
  intros [g fr] r s' H. rewrite on_file_eq in H. inversion H; subst r s'.
  unfold same_index, readline. cbn [fst file_ set_file].
  destruct (failed (file_ g)); [cbn; auto |].
  destruct (nth_error (content (file_ g)) (cursor (file_ g))); cbn; auto.
Qed.

Lemma keeps_readlines n : keeps same_index (on_file (readlines n)).
Proof.
  intros [g fr] r s' H. rewrite on_file_eq in H. inversion H; subst r s'.
  unfold same_index, readlines. cbn [fst file_ set_file].
  destruct (failed (file_ g)); [cbn; auto |].
  destruct (n <=? remaining (file_ g)); cbn; auto.
Qed.

Lemma keeps_seek p : keeps same_index (on_file (modify (seekg p))).
Proof.
  intros [g fr] r s' H. rewrite on_file_eq in H. inversion H; subst r s'.
  unfold same_index, modify, seekg. cbn [fst snd file_ set_file].
  destruct (failed (file_ g)); [cbn; auto |].
  destruct (p <? 0)%Z; cbn; auto.
Qed.

Lemma keeps_on_frame u : keeps same_index (on_frame u).
Proof.
  intros [g fr] r s' H. rewrite on_frame_eq in H. inversion H.
  unfold same_index. cbn. auto.
Qed.

Lemma keeps_on_residues u : keeps same_index (on_residues u).
Proof.
  intros [g fr] r s' H. rewrite on_residues_eq in H. inversion H.
  unfold same_index. cbn. auto.
Qed.

Ltac keeps_step :=
  first
    [ apply keeps_readline
    | apply keeps_readlines
    | apply keeps_on_frame
    | apply keeps_on_residues
    | apply keeps_parse_as; exact same_index_refl
    | apply keeps_ret; exact same_index_refl
    | apply keeps_throw; exact same_index_refl
    | apply keeps_abort; exact same_index_refl
    | apply keeps_gets; exact same_index_refl
    | apply keeps_bind; [exact same_index_trans | | intro]
    | apply keeps_try_catch; [exact same_index_trans | | intro]
    | match goal with
      | |- keeps _ (if ?b then _ else _) => destruct b
      | |- keeps _ (match ?x with _ => _ end) => destruct x
      end ].

Lemma keeps_assert (c : M ReadState bool) w :
  keeps same_index c -> keeps same_index (assert_ c w).
Proof.
  intros Hc. unfold assert_. destruct NDEBUG; [keeps_step |].
  apply keeps_bind; [exact same_index_trans | exact Hc |].
  intros b. destruct b; keeps_step.
Qed.

Lemma keeps_read_header : keeps same_index read_header.
Proof. unfold read_header. repeat keeps_step. Qed.

Lemma keeps_read_atom line : keeps same_index (read_atom line).
Proof. unfold read_atom. repeat keeps_step. Qed.

Lemma keeps_read_box : keeps same_index read_box.
Proof.
  unfold read_box.
  apply keeps_bind; [exact same_index_trans | keeps_step |].
  intros box.
  destruct (split box " "%char)
    as [| b0 [| b1 [| b2 [| b3 [| b4 [| b5 [| b6 [| b7 [| b8 [| b9 l]]]]]]]]]];
    try (keeps_step; fail).
  - repeat keeps_step.
  - repeat first [apply keeps_assert | keeps_step].
Qed.

Lemma keeps_read : keeps same_index read.
Proof.
  unfold read.
  repeat first
         [ apply keeps_read_header
         | apply keeps_read_box
         | apply keeps_for_each;
           [exact same_index_refl | exact same_index_trans | intro]
         | apply keeps_read_atom
         | keeps_step ].
Qed.

(** X9: whatever its outcome, [read] leaves the lines of the file, its
    path and the positions of the steps as they were, and so does
    [read_step], after which [nsteps] is what it was. *)
Theorem reading_keeps_the_index g fr :
  (forall r g' fr',
      read (g, fr) = (r, (g', fr')) ->
      content (file_ g') = content (file_ g)
      /\ path (file_ g') = path (file_ g)
      /\ steps_positions_ g' = steps_positions_ g)
  /\ (forall i r g' fr',
         read_step i (g, fr) = (r, (g', fr')) ->
         content (file_ g') = content (file_ g)
         /\ path (file_ g') = path (file_ g)
         /\ nsteps g' = nsteps g).
Proof.
  split.
  - intros r g' fr' H. exact (keeps_read _ _ _ H).
  - intros i r g' fr' H. unfold read_step in H. cbn [fst] in H.
    destruct (nth_error (steps_positions_ g) i) as [p |].
    + assert (Hk : keeps same_index (on_file (modify (seekg p)) ;;; read)).
      { apply keeps_bind; [exact same_index_trans | apply keeps_seek
                          | intros _; apply keeps_read]. }
      destruct (Hk _ _ _ H) as (Hc & Hp & Hs). cbn [fst] in *.
      unfold nsteps. rewrite Hs. auto.
    + inversion H; subst. auto.
Qed.

End ReadKeeps.

Section Repeatable.
Context {E : Env}.

(** X10: what [read_step(i)] returns depends on the lines of the file
    and on the index only, not on what was read before: two formats on
    the same lines, path and positions, the second in a good state, give
    the same frame and the same final state, and the step can be read
    again from the state that the call left. *)
Theorem read_step_does_not_depend_on_the_past g1 g2 fr i s' :
  content (file_ g2) = content (file_ g1) ->
  path (file_ g2) = path (file_ g1) ->
  steps_positions_ g2 = steps_positions_ g1 ->
  failed (file_ g2) = false ->
  read_step i (g1, fr) = (Returned tt, s') ->
  read_step i (g2, fr) = (Returned tt, s')
  /\ read_step i (fst s', fr) = (Returned tt, s').
Proof.
  intros Hc Hp Hs Hf2 H.
  assert (Hpos : exists pos, nth_error (steps_positions_ g1) i = Some pos).
  { unfold read_step in H. cbn [fst] in H.
    destruct (nth_error (steps_positions_ g1) i) as [pos |]; [eauto | discriminate]. }
  destruct Hpos as (pos & Hpos).
  rewrite (read_step_eq i pos) in H by exact Hpos.
  destruct s' as [g' fr'].
  pose proof (read_moves _ _ _ _ H) as (t0 & l0 & n0 & m & Hfailed & _ & _ & _ & _ & Hg').
  cbn [file_ set_file] in Hfailed.
  assert (Hf1 : failed (file_ g1) = false /\ (0 <= pos)%Z).
  { unfold seekg in Hfailed. destruct (failed (file_ g1)) eqn:Hf; [congruence |].
    destruct (Z.ltb_spec pos 0) as [Hneg | Hge]; [discriminate Hfailed | auto]. }
  destruct Hf1 as (Hf1 & Hge).
  assert (Hany : forall g,
             content (file_ g) = content (file_ g1) ->
             path (file_ g) = path (file_ g1) ->
             steps_positions_ g = steps_positions_ g1 ->
             failed (file_ g) = false ->
             read_step i (g, fr) = (Returned tt, (g', fr'))).
  { intros g Hgc Hgp Hgs Hgf.
    rewrite (read_step_eq i pos) by (rewrite Hgs; exact Hpos).
    rewrite seekg_file_at by assumption.
    rewrite seekg_file_at in H by assumption.
    rewrite (file_at_eq (file_ g1) (file_ g)) by assumption.
    replace (set_file (file_at (file_ g1) (Z.to_nat pos)) g)
      with (set_residues (residues_ g)
              (set_file (file_at (file_ g1) (Z.to_nat pos)) g1))
      by (unfold set_residues, set_file; cbn; rewrite Hgs; reflexivity).
    apply read_ignores_residues. exact H. }
  split; [apply Hany; assumption |].
  cbn [fst]. apply Hany; rewrite Hg'; cbn [file_ set_cursor content path failed
                                              steps_positions_ set_file seekg];
    try reflexivity.
  - rewrite seekg_file_at by assumption. reflexivity.
  - rewrite seekg_file_at by assumption. reflexivity.
  - rewrite seekg_file_at by assumption. reflexivity.
Qed.

End Repeatable.

Section SizeCheck.

Lemma nan_not_above : ((pow10 8 - 1 <? nan) = false)%float.
Proof. vm_compute. reflexivity. Qed.

Lemma nan_not_below : ((nan <? - pow10 (8 - 1) + 1) = false)%float.
Proof. vm_compute. reflexivity. Qed.

Lemma zero_not_above : ((pow10 8 - 1 <? 0) = false)%float.
Proof. vm_compute. reflexivity. Qed.

Lemma zero_not_below : ((0 <? - pow10 (8 - 1) + 1) = false)%float.
Proof. vm_compute. reflexivity. Qed.

Lemma infinity_above : ((pow10 8 - 1 <? infinity) = true)%float.
Proof. vm_compute. reflexivity. Qed.

Lemma neg_infinity_below : ((neg_infinity <? - pow10 (8 - 1) + 1) = true)%float.
Proof. vm_compute. reflexivity. Qed.

(** X11: [check_values_size] compares with [>] and [<], so a component
    that is not a number passes the check as zero does, and a vector of
    three NaN is accepted; an infinite component is rejected with the
    [FormatError] of the check. *)
Theorem size_check_lets_nan_through {S} (x y z : float) context (s : S) :
  check_values_size (mkVector3D nan y z) 8 context s
  = check_values_size (mkVector3D 0 y z) 8 context s
  /\ check_values_size (mkVector3D x nan z) 8 context s
     = check_values_size (mkVector3D x 0 z) 8 context s
  /\ check_values_size (mkVector3D x y nan) 8 context s
     = check_values_size (mkVector3D x y 0) 8 context s
  /\ check_values_size (mkVector3D nan nan nan) 8 context s = (Returned tt, s)
  /\ (forall v,
         v = infinity \/ v = neg_infinity ->
         forall values,
           c0 values = v \/ c1 values = v \/ c2 values = v ->
           check_values_size values 8 context s
           = (Thrown (format_error
                        ("value in " +++ context
                         +++ " is too big for representation in GRO format")), s)).
Proof.
  unfold check_values_size. cbv zeta. cbn [c0 c1 c2].
  rewrite nan_not_above, nan_not_below, zero_not_above, zero_not_below.
  split; [reflexivity |]. split; [reflexivity |]. split; [reflexivity |].
  split; [reflexivity |].
  intros v Hv values Hc.
  assert (Hbig : ((pow10 8 - 1 <? c0 values)%float
                  || (pow10 8 - 1 <? c1 values)%float
                  || (pow10 8 - 1 <? c2 values)%float
                  || (c0 values <? - pow10 (8 - 1) + 1)%float
                  || (c1 values <? - pow10 (8 - 1) + 1)%float
                  || (c2 values <? - pow10 (8 - 1) + 1)%float)%bool = true).
  { destruct Hv as [-> | ->]; destruct Hc as [-> | [-> | ->]];
      rewrite ?infinity_above, ?neg_infinity_below, ?orb_true_r; reflexivity. }
  rewrite Hbig. reflexivity.
Qed.

End SizeCheck.

Section LeafParsers.
Context {E : Env}.
Import Selections.

Ltac leaf_done :=
  solve [ let H := fresh in
          intros H; inversion H; subst; cbn [three_or_none]; eauto ].

Lemma parse_NameExpr_tokens begin r rest :
  parse_NameExpr begin = (r, rest) -> three_or_none begin r rest.
Proof.
  unfold parse_NameExpr.
  destruct begin as [| t0 [| t1 [| t2 rest0]]]; try leaf_done.
  destruct t2 as [| | | | | | | | | | | ident |]; try leaf_done.
  destruct (String.eqb_spec ident "name") as [-> | Hne].
  - destruct t1; try leaf_done. destruct t0; leaf_done.
  - destruct ident as [| c ident]; [leaf_done |].
    repeat (destruct c as [[] [] [] [] [] [] [] []]; try leaf_done;
            destruct ident as [| c ident]; try leaf_done).
    congruence.
Qed.

Lemma parse_IndexExpr_tokens begin r rest :
  parse_IndexExpr begin = (r, rest) -> three_or_none begin r rest.
Proof.
  unfold parse_IndexExpr.
  destruct begin as [| t0 [| t1 [| t2 rest0]]]; try leaf_done.
  destruct t2 as [| | | | | | | | | | | ident |]; try leaf_done.
  destruct (String.eqb_spec ident "index") as [-> | Hne].
  - destruct (binary_op t0); [| leaf_done].
    destruct t1; try leaf_done.
    destruct (ceil number =? number)%float; [| leaf_done].
    destruct (size_t_of_double number); leaf_done.
  - destruct ident as [| c ident]; [leaf_done |].
    repeat (destruct c as [[] [] [] [] [] [] [] []]; try leaf_done;
            destruct ident as [| c ident]; try leaf_done).
    congruence.
Qed.




End LeafParsers.

Section BooleanParsers.
Import Selections.
Variable dispatch : Parser.

Lemma operand_outcomes prefix begin r rest :
  operand dispatch prefix begin = (r, rest) ->
  exists r0,
    dispatch begin = (r0, rest)
    /\ match r0 with
       | Thrown e0 =>
           r = Thrown (if catches ParserError (kind e0)
                       then parser_error (prefix +++ what e0) else e0)
       | _ => r = r0
       end.
Proof.
  unfold operand, try_catch.
  destruct (dispatch begin) as [[ast | e0 | w] rest0] eqn:Hd; intros H.
  - inversion H; subst. eexists. split; reflexivity.
  - destruct (catches ParserError (kind e0)) eqn:Hc; unfold throw in H;
      inversion H; subst; exists (Thrown e0); (split; [reflexivity |]);
      cbv beta iota; rewrite Hc; reflexivity.
  - inversion H; subst. eexists. split; reflexivity.
Qed.

Lemma catches_parser_error k : catches ParserError k = true <-> k = ParserError.
Proof. destruct k; cbn; split; congruence. Qed.

(** X13: [parse<NotExpr>] takes the operator, then parses its operand:
    with no token left it throws "Missing operand to 'not'"; otherwise
    its outcome is that of the parser of the operand, the node wrapped
    in a negation, the message of a [ParserError] prefixed by "Error in
    operand of 'not': ", and any other exception unchanged. *)
Theorem not_operator :
  parse_NotExpr dispatch [NOT] = (Thrown (parser_error "Missing operand to 'not'"), [])
  /\ (forall t tokens r rest,
         dispatch (t :: tokens) = (r, rest) ->
         parse_NotExpr dispatch (NOT :: t :: tokens)
         = (match r with
            | Returned ast => Returned (NotExpr ast)
            | Thrown e =>
                Thrown (if catches ParserError (kind e)
                        then parser_error ("Error in operand of 'not': " +++ what e)
                        else e)
            | Aborted w => Aborted w
            end, rest))
  /\ (forall begin e rest,
         parse_NotExpr dispatch begin = (Thrown e, rest) ->
         exists tokens,
           begin = NOT :: tokens
           /\ ((tokens = [] /\ rest = []
                /\ e = parser_error "Missing operand to 'not'")
               \/ (exists e0,
                      dispatch tokens = (Thrown e0, rest)
                      /\ ((kind e0 = ParserError
                           /\ e = parser_error ("Error in operand of 'not': " +++ what e0))
                          \/ (kind e0 <> ParserError /\ e = e0))))).
Proof.
  split; [reflexivity |]. split.
  - intros t tokens r rest Hd. unfold parse_NotExpr.
    erewrite bind_step; [| reflexivity].
    unfold bind, operand, try_catch. rewrite Hd.
    destruct r as [ast | e | w]; try reflexivity.
    destruct (catches ParserError (kind e)); reflexivity.
  - intros begin e rest. unfold parse_NotExpr.
    destruct begin as [| [] tokens]; try discriminate.
    intros H. exists tokens. split; [reflexivity |].
    apply bind_thrown_inv in H as [H | ([] & s1 & H1 & H)].
    { destruct tokens; inversion H. left. auto. }
    assert (s1 = tokens) as -> by (destruct tokens; inversion H1; reflexivity).
    apply bind_thrown_inv in H as [H | (ast & s2 & H2 & H)]; [| discriminate].
    apply operand_outcomes in H as (r0 & Hd & Hr).
    destruct r0 as [ast | e0 | w]; try discriminate.
    right. exists e0. split; [exact Hd |].
    destruct (catches ParserError (kind e0)) eqn:Hc; injection Hr as ->.
    + left. split; [apply catches_parser_error; exact Hc | reflexivity].
    + right. split; [| reflexivity]. intros Hk.
      apply catches_parser_error in Hk. congruence.
Qed.

(** X14: an exception of [parse<OrExpr>] is the [ParserError] on a
    missing operand, or comes from the parser of an operand: a
    [ParserError] whose message gets the prefix of its side, any other
    exception unchanged. *)
Theorem or_operator_exceptions begin e rest :
  parse_OrExpr dispatch begin = (Thrown e, rest) ->
  e = parser_error "Missing right-hand side operand to 'or'"
  \/ e = parser_error "Missing left-hand side operand to 'or'"
  \/ (exists e0 tokens,
         dispatch tokens = (Thrown e0, rest)
         /\ ((kind e0 = ParserError
              /\ (e = parser_error ("Error in right-hand side operand to 'or': "
                                    +++ what e0)
                  \/ e = parser_error ("Error in left-hand side operand to 'or': "
                                       +++ what e0)))
             \/ (kind e0 <> ParserError /\ e = e0))).
Proof.
  unfold parse_OrExpr.
  destruct begin as [| [] begin]; try discriminate.
  intros H.
  apply bind_thrown_inv in H as [H | ([] & s1 & H1 & H)].
  { destruct begin; inversion H. auto. }
  assert (s1 = begin) as -> by (destruct begin; inversion H1; reflexivity).
  apply bind_thrown_inv in H as [H | (rhs & s2 & H2 & H)].
  { apply operand_outcomes in H as (r0 & Hd & Hr).
    destruct r0 as [ast | e0 | w]; try discriminate.
    right. right. exists e0, begin. split; [exact Hd |].
    destruct (catches ParserError (kind e0)) eqn:Hc; injection Hr as ->.
    - left. split; [apply catches_parser_error; exact Hc | left; reflexivity].
    - right. split; [| reflexivity]. intros Hk.
      apply catches_parser_error in Hk. congruence. }
  apply bind_thrown_inv in H as [H | ([] & s3 & H3 & H)].
  { destruct s2; inversion H. auto. }
  assert (s3 = s2) as -> by (destruct s2; inversion H3; reflexivity).
  apply bind_thrown_inv in H as [H | (lhs & s4 & H4 & H)]; [| discriminate].
  apply operand_outcomes in H as (r0 & Hd & Hr).
  destruct r0 as [ast | e0 | w]; try discriminate.
  right. right. exists e0, s2. split; [exact Hd |].
  destruct (catches ParserError (kind e0)) eqn:Hc; injection Hr as ->.
  - left. split; [apply catches_parser_error; exact Hc | right; reflexivity].
  - right. split; [| reflexivity]. intros Hk.
    apply catches_parser_error in Hk. congruence.
Qed.

Lemma keeps_suffix_bind {A B} (m : M (list Token) A) (k : A -> M (list Token) B) :
  (forall s r s', m s = (r, s') -> exists taken, s = taken ++ s') ->
  (forall a s r s', k a s = (r, s') -> exists taken, s = taken ++ s') ->
  forall s r s', bind m k s = (r, s') -> exists taken, s = taken ++ s'.
Proof.
  intros Hm Hk s r s' H. unfold bind in H.
  destruct (m s) as [[a | e | w] s1] eqn:Hms.
  - destruct (Hm _ _ _ Hms) as (t1 & ->). destruct (Hk _ _ _ _ H) as (t2 & ->).
    exists (t1 ++ t2). rewrite app_assoc. reflexivity.
  - inversion H; subst. eapply Hm. exact Hms.
  - inversion H; subst. eapply Hm. exact Hms.
Qed.

Lemma expect_more_suffix msg s r s' :
  expect_more msg s = (r, s') -> exists taken, s = taken ++ s'.
Proof. unfold expect_more. destruct s; intros H; inversion H; exists []; reflexivity. Qed.

Lemma operand_suffix prefix :
  only_consumes dispatch ->
  forall s r s', operand dispatch prefix s = (r, s') -> exists taken, s = taken ++ s'.
Proof.
  intros Hd s r s' H. apply operand_outcomes in H as (r0 & H & _).
  eapply Hd. exact H.
Qed.

Lemma ret_suffix {A} (a : A) (s : list Token) r s' :
  ret a s = (r, s') -> exists taken, s = taken ++ s'.
Proof. intros H. inversion H. exists []. reflexivity. Qed.

(** The boolean parsers only consume when the parser of their operands
    does, and they take the operator when they do not abort. *)
Lemma boolean_parser_suffix parser :
  only_consumes dispatch ->
  In parser [parse_AndExpr dispatch; parse_OrExpr dispatch; parse_NotExpr dispatch] ->
  forall begin r rest,
    parser begin = (r, rest) ->
    exists taken,
      begin = taken ++ rest
      /\ match r with
         | Aborted _ => True
         | _ => taken <> []
         end.
Proof.
  intros Hd Hin begin r rest H.
  assert (Hop : forall (body : M (list Token) Ast) t tokens,
             (forall s r s', body s = (r, s') -> exists taken, s = taken ++ s') ->
             body tokens = (r, rest) ->
             exists taken,
               t :: tokens = taken ++ rest
               /\ match r with
                  | Aborted _ => True
                  | _ => taken <> []
                  end).
  { intros body t tokens Hbody Hrun. destruct (Hbody _ _ _ Hrun) as (taken & ->).
    exists (t :: taken). split; [reflexivity |]. destruct r; auto; discriminate. }
  assert (Hfail : forall w, (Aborted w, begin) = (r, rest) ->
                            exists taken,
                              begin = taken ++ rest
                              /\ match r with
                                 | Aborted _ => True
                                 | _ => taken <> []
                                 end).
  { intros w Heq. inversion Heq; subst. exists []. auto. }
  destruct Hin as [<- | [<- | [<- | []]]].
  - unfold parse_AndExpr in H.
    destruct begin as [| t tokens]; [eapply Hfail; exact H |].
    destruct t; try (eapply Hfail; exact H).
    eapply Hop; [| exact H].
    apply keeps_suffix_bind; [apply expect_more_suffix | intros _].
    apply keeps_suffix_bind; [apply operand_suffix; exact Hd | intros rhs].
    apply keeps_suffix_bind; [apply expect_more_suffix | intros _].
    apply keeps_suffix_bind; [apply operand_suffix; exact Hd | intros lhs].
    apply ret_suffix.
  - unfold parse_OrExpr in H.
    destruct begin as [| t tokens]; [eapply Hfail; exact H |].
    destruct t; try (eapply Hfail; exact H).
    eapply Hop; [| exact H].
    apply keeps_suffix_bind; [apply expect_more_suffix | intros _].
    apply keeps_suffix_bind; [apply operand_suffix; exact Hd | intros rhs].
    apply keeps_suffix_bind; [apply expect_more_suffix | intros _].
    apply keeps_suffix_bind; [apply operand_suffix; exact Hd | intros lhs].
    apply ret_suffix.
  - unfold parse_NotExpr in H.
    destruct begin as [| t tokens]; [eapply Hfail; exact H |].
    destruct t; try (eapply Hfail; exact H).
    eapply Hop; [| exact H].
    apply keeps_suffix_bind; [apply expect_more_suffix | intros _].
    apply keeps_suffix_bind; [apply operand_suffix; exact Hd | intros ast].
    apply ret_suffix.
Qed.

(** X15: the boolean parsers do not put tokens back. When the parser
    of the operands only consumes, what [parse<AndExpr>],
    [parse<OrExpr>] and [parse<NotExpr>] leave is an end of what they
    were given, and when they return or throw at least the operator has
    been consumed. *)
Theorem boolean_parsers_keep_what_they_consumed :
  only_consumes dispatch ->
  forall parser,
    In parser [parse_AndExpr dispatch; parse_OrExpr dispatch; parse_NotExpr dispatch] ->
    forall begin r rest,
      parser begin = (r, rest) ->
      exists taken,
        begin = taken ++ rest
        /\ match r with
           | Aborted _ => True
           | _ => taken <> []
           end.
Proof.
  intros Hd parser Hin. apply boolean_parser_suffix; assumption.
Qed.

End BooleanParsers.

Section Dispatch.
Import Selections.

Lemma three_or_none_suffix begin r rest :
  three_or_none begin r rest -> exists taken, begin = taken ++ rest.
Proof.
  unfold three_or_none. destruct r as [ast | e | w].
  - intros (t0 & t1 & t2 & ->). exists [t0; t1; t2]. reflexivity.
  - intros ->. exists []. reflexivity.
  - intros ->. exists []. reflexivity.
Qed.

(** The dispatcher of the model only consumes. *)
Lemma dispatch_parsing_only_consumes fuel : only_consumes (dispatch_parsing fuel).
Proof.
  induction fuel as [| fuel IH]; intros begin r rest H.
  - inversion H. exists []. reflexivity.
  - cbn [dispatch_parsing] in H.
    assert (Hbool : forall parser,
               In parser [parse_AndExpr (dispatch_parsing fuel);
                          parse_OrExpr (dispatch_parsing fuel);
                          parse_NotExpr (dispatch_parsing fuel)] ->
               parser begin = (r, rest) -> exists taken, begin = taken ++ rest).
    { intros parser Hin Hrun.
      destruct (boolean_parser_suffix _ parser IH Hin _ _ _ Hrun) as (taken & Heq & _).
      eauto. }
    assert (Hsame : forall e, (Thrown e, begin) = (r, rest) ->
                              exists taken, begin = taken ++ rest)
      by (intros e Heq; inversion Heq; exists []; reflexivity).
    destruct begin as [| t0 begin]; [eapply Hsame; exact H |].
    destruct t0;
      try (apply (Hbool (parse_AndExpr (dispatch_parsing fuel))); [cbn; auto | exact H]);
      try (apply (Hbool (parse_OrExpr (dispatch_parsing fuel))); [cbn; auto | exact H]);
      try (apply (Hbool (parse_NotExpr (dispatch_parsing fuel))); [cbn; auto | exact H]);
      destruct begin as [| t1 [| t2 begin]]; try (eapply Hsame; exact H);
      destruct t2; try (eapply Hsame; exact H);
      cbn [binary_op] in H;
      try (eapply Hsame; exact H);
      repeat match type of H with
             | (if ?b then _ else _) _ = _ => destruct b
             | (if ?b then _ else _) = _ => destruct b
             end;
      try (eapply Hsame; exact H);
      try (apply three_or_none_suffix with (r := r), parse_NameExpr_tokens; exact H);
      try (apply three_or_none_suffix with (r := r), parse_IndexExpr_tokens; exact H).
Qed.

End Dispatch.

Section BoxLine.
Context {E : Env}.

Lemma on_file_readline_at g fr l :
  failed (file_ g) = false ->
  nth_error (content (file_ g)) (cursor (file_ g)) = Some l ->
  on_file readline (g, fr)
  = (Returned l, (set_file (set_cursor (S (cursor (file_ g))) (file_ g)) g, fr)).
Proof.
  intros Hf Hl. rewrite on_file_eq, (readline_at _ l Hf Hl). reflexivity.
Qed.

(** X16: the edges of the box line. A box line that has neither three
    nor nine fields is accepted, and the frame keeps the cell it had
    before the read. The fourth, fifth and seventh of nine fields are
    looked at by [assert] only: in a build without assertions they are
    ignored; with assertions a fourth field that does not parse throws
    the [Error] of the parser and one that is not zero aborts. *)
Theorem box_line_edges :
  (forall g fr g' fr',
      read (g, fr) = (Returned tt, (g', fr')) ->
      exists header n box,
        nth_error (content (file_ g)) (S (cursor (file_ g))) = Some header
        /\ parse_size_t header = Parsed n
        /\ nth_error (content (file_ g)) (2 + cursor (file_ g) + N.to_nat n) = Some box
        /\ (List.length (split box " "%char) <> 3 ->
            List.length (split box " "%char) <> 9 ->
            cell_ fr' = cell_ fr))
  /\ (forall g fr box b0 b1 b2 b3 b4 b5 b6 b7 b8 v0 v1 v2,
         failed (file_ g) = false ->
         nth_error (content (file_ g)) (cursor (file_ g)) = Some box ->
         split box " "%char = [b0; b1; b2; b3; b4; b5; b6; b7; b8] ->
         parse_double b0 = Parsed v0 ->
         parse_double b1 = Parsed v1 ->
         parse_double b2 = Parsed v2 ->
         (NDEBUG = true ->
          forall v5 v7 v8,
            parse_double b5 = Parsed v5 ->
            parse_double b7 = Parsed v7 ->
            parse_double b8 = Parsed v8 ->
            exists g', 
              read_box (g, fr)
              = (Returned tt,
                 (g', Frame_set_cell
                        (UnitCell_triclinic
                           (mkMatrix3D (v0 * 10) (v5 * 10) (v7 * 10)
                                       0         (v1 * 10) (v8 * 10)
                                       0         0         (v2 * 10))) fr)))
         /\ (NDEBUG = false ->
             (forall why,
                 parse_double b3 = Malformed why ->
                 exists g', read_box (g, fr) = (Thrown (error why), (g', fr)))
             /\ (forall d,
                    parse_double b3 = Parsed d ->
                    (d =? 0)%float = false ->
                    exists w g', read_box (g, fr) = (Aborted w, (g', fr))))).
Proof.
  split.
  - intros g fr g' fr' H.
    apply read_returned in H
      as (title & header & n & parsed & [g1 fr1] & s2 & Hf & Ht & Hl & Hp & Hn & Hmap
          & Hbox & Hfile & Hsteps & Hfr & -> & ->).
    apply read_box_returned in Hbox as (box & _ & Hb & _ & _ & _ & _ & Hother).
    cbn [fst snd] in *. rewrite Hfile in Hb. cbn [content cursor set_cursor] in Hb.
    destruct (add_residues_keeps (residues_ (fst s2)) (snd s2)) as (_ & _ & _ & Hcell & _).
    exists header, n, box. split; [exact Hl |]. split; [exact Hp |].
    split; [exact Hb |]. intros H3 H9.
    rewrite Hcell, (Hother H3 H9), Hfr.
    destruct (others_add_parsed parsed (cleared title fr)) as (-> & _).
    apply cleared_empty.
  - intros g fr box b0 b1 b2 b3 b4 b5 b6 b7 b8 v0 v1 v2 Hf Hbox Hsplit P0 P1 P2.
    split.
    + intros HN v5 v7 v8 P5 P7 P8. unfold read_box.
      erewrite bind_step; [| apply on_file_readline_at; eassumption].
      rewrite Hsplit.
      erewrite bind_step; [| apply parse_as_parsed; exact P0].
      erewrite bind_step; [| apply parse_as_parsed; exact P1].
      erewrite bind_step; [| apply parse_as_parsed; exact P2].
      unfold assert_. rewrite HN.
      erewrite bind_step; [| reflexivity].
      erewrite bind_step; [| reflexivity].
      erewrite bind_step; [| apply parse_as_parsed; exact P5].
      erewrite bind_step; [| reflexivity].
      erewrite bind_step; [| apply parse_as_parsed; exact P7].
      erewrite bind_step; [| apply parse_as_parsed; exact P8].
      rewrite on_frame_eq. eexists. reflexivity.
    + intros HN. split.
      * intros why P3. unfold read_box.
        erewrite bind_step; [| apply on_file_readline_at; eassumption].
        rewrite Hsplit.
        erewrite bind_step; [| apply parse_as_parsed; exact P0].
        erewrite bind_step; [| apply parse_as_parsed; exact P1].
        erewrite bind_step; [| apply parse_as_parsed; exact P2].
        unfold assert_. rewrite HN.
        erewrite bind_thrown.
        2:{ erewrite bind_thrown; [reflexivity |].
            unfold parse_as. rewrite P3. reflexivity. }
        eexists. reflexivity.
      * intros d P3 Hd. unfold read_box.
        erewrite bind_step; [| apply on_file_readline_at; eassumption].
        rewrite Hsplit.
        erewrite bind_step; [| apply parse_as_parsed; exact P0].
        erewrite bind_step; [| apply parse_as_parsed; exact P1].
        erewrite bind_step; [| apply parse_as_parsed; exact P2].
        unfold assert_. rewrite HN.
        unfold bind at 1. unfold bind at 1.
        erewrite bind_step; [| apply parse_as_parsed; exact P3].
        unfold ret. rewrite Hd. unfold abort. do 2 eexists. reflexivity.
Qed.

End BoxLine.

(** ** On samples *)

(** X1, on a sample: two lines of junk, a step of two atoms, one line
    left over. *)
Lemma constructor_indexes_the_steps_sample :
  @GROFormat_new Reference.debug "sample.gro"
     (List.concat Examples.junk_then_water ++ ["left over"])
  = Some (Returned
            (mkGROFormat
               (TextFile_open "sample.gro"
                  (List.concat Examples.junk_then_water ++ ["left over"]))
               [2%Z] [])).
Proof.
  destruct (@constructor_indexes_the_steps Reference.debug "sample.gro"
              Examples.junk_then_water ["left over"]) as (H & _).
  - vm_compute. reflexivity.
  - cbn. lia.
  - rewrite H. reflexivity.
Defined.


(** X4, on a sample: the two atoms of the step are in the residue 1. *)
Lemma read_groups_atoms_by_residue_sample :
  map_find 1%N
    (residues_ (fst (snd (@read Reference.debug
                            (Samples.opened Samples.water_lines [0%Z], Frame_new)))))
  = Some (mkResidue "SOL" (Some 1%N) [0; 1]).
Proof.
  destruct (@read_groups_atoms_by_residue Reference.debug
              (Samples.opened Samples.water_lines [0%Z]) Frame_new
              (fst (snd (@read Reference.debug
                           (Samples.opened Samples.water_lines [0%Z], Frame_new))))
              (snd (snd (@read Reference.debug
                           (Samples.opened Samples.water_lines [0%Z], Frame_new)))))
    as (header & n & Hh & Hn & _ & Hfind & _).
  - vm_compute. reflexivity.
  - vm_compute in Hh. inversion Hh; subst header; clear Hh.
    vm_compute in Hn. inversion Hn; subst n; clear Hn.
    rewrite Hfind. vm_compute. reflexivity.
Defined.

(** X5, on a sample: with the residues 1, 2 and 3 the first id made up
    is 3. *)
Lemma first_generated_residue_id_sample :
  (3 <= first_free_resid Examples.three_residues)%N
  /\ first_free_resid [mkResidue "GLY" (Some 2%N) [1]; mkResidue "SER" (Some (2 + 1)%N) [2]]
     = (2 + 1)%N.
Proof.
  destruct (first_generated_residue_id Examples.three_residues) as (Hall & _ & Htight).
  - intros r v [<- | [<- | [<- | []]]] Hv; inversion Hv; reflexivity.
  - split.
    + apply (Hall (mkResidue "SER" (Some 3%N) [2]) 3%N); [cbn; auto | reflexivity].
    + apply Htight; reflexivity.
Defined.

(** X6, on a sample: the third of three atoms without residue. *)
Lemma generated_residue_ids_sample :
  residue_id (Samples.many_atoms 3) 2 = None
  /\ generated_resid (Samples.many_atoms 3) 2 = 3%N.
Proof.
  destruct (@generated_residue_ids Reference.debug (Samples.many_atoms 3)
              Samples.blank []
              (fst (snd (@write Reference.debug (Samples.many_atoms 3) (Samples.blank, []))))
              (snd (snd (@write Reference.debug (Samples.many_atoms 3) (Samples.blank, [])))))
    as (title & count & texts & box & _ & _ & _ & Hnone & _).
  - vm_compute. reflexivity.
  - destruct (Hnone eq_refl 2) as (Hid & Hgen). split; [exact Hid |].
    rewrite Hgen. reflexivity.
Defined.

(** X8, on a sample: the only atom is too far; the header is written,
    no position is recorded. *)
Lemma write_outcomes_sample :
  steps_positions_
    (fst (snd (@write Reference.debug Samples.far_atom (Samples.blank, [])))) = []
  /\ content (file_ (fst (snd (@write Reference.debug Samples.far_atom
                                 (Samples.blank, [])))))
     = ["GRO File produced by chemfiles"; "    1"].
Proof.
  pose proof (@write_outcomes Reference.debug Samples.far_atom Samples.blank []
                (Thrown (format_error
                           "value in atomic position is too big for representation in GRO format"))
                (fst (snd (@write Reference.debug Samples.far_atom (Samples.blank, []))))
                (snd (snd (@write Reference.debug Samples.far_atom (Samples.blank, []))))
                ltac:(vm_compute; reflexivity)) as H.
  cbv beta iota in H. destruct H as (_ & Hsteps & k & Hk & _ & Hcase & Hcontent).
  split; [exact Hsteps |].
  assert (k = 0) as ->.
  { destruct k as [| [| k]]; [reflexivity | | vm_compute in Hk; lia].
    vm_compute in Hcase. discriminate Hcase. }
  rewrite Hcontent. vm_compute. reflexivity.
Defined.

(** X7, on a sample: a residue named SOLVENT. *)
Lemma residue_name_column_sample :
  exists g' w',
    @write Reference.debug Examples.long_name (Samples.blank, [])
    = (Returned tt, (g', w'))
    /\ In "Residue 'SOLVENT' has a name too long for GRO format, it will be truncated."
          w'.
Proof.
  destruct (@residue_name_column Reference.debug Examples.long_name Samples.blank []
              (fst (snd (@write Reference.debug Examples.long_name (Samples.blank, []))))
              (snd (snd (@write Reference.debug Examples.long_name (Samples.blank, [])))))
    as (title & count & texts & box & _ & Hlen & Htexts).
  - vm_compute. reflexivity.
  - destruct texts as [| text rest]; [discriminate Hlen |].
    destruct (Htexts 0 text eq_refl) as (_ & Hwarn).
    do 2 eexists. split; [vm_compute; reflexivity |].
    exact (Hwarn (mkResidue "SOLVENT" (Some 7%N) [0]) eq_refl ltac:(cbn; lia)).
Defined.

(** X10, on a sample: the step read a second time. *)
Lemma read_step_does_not_depend_on_the_past_sample :
  @read_step Reference.debug 0
     (fst (snd (@read_step Reference.debug 0
                  (Samples.opened Samples.water_lines [0%Z], Frame_new))), Frame_new)
  = @read_step Reference.debug 0 (Samples.opened Samples.water_lines [0%Z], Frame_new).
Proof.
  destruct (@read_step_does_not_depend_on_the_past Reference.debug
              (Samples.opened Samples.water_lines [0%Z])
              (Samples.opened Samples.water_lines [0%Z]) Frame_new 0
              (snd (@read_step Reference.debug 0
                      (Samples.opened Samples.water_lines [0%Z], Frame_new)))
              eq_refl eq_refl eq_refl eq_refl ltac:(vm_compute; reflexivity))
    as (Hsame & Hagain).
  rewrite Hagain, Hsame. reflexivity.
Defined.

(** X14, on a sample: the right operand of [or] is an index selection
    with a number that is no integer. *)
Lemma or_operator_exceptions_sample :
  exists e0 tokens,
    Selections.dispatch_parsing 1 tokens
    = (Thrown e0,
       [Selections.EQ; Selections.NUM 1.5; Selections.IDENT "index";
        Selections.EQ; Selections.IDENT "O"; Selections.IDENT "name"])
    /\ kind e0 = ParserError.
Proof.
  destruct (or_operator_exceptions (Selections.dispatch_parsing 1)
              Examples.or_bad_index
              (parser_error
                 "Error in right-hand side operand to 'or': Index selection should contain an integer")
              [Selections.EQ; Selections.NUM 1.5; Selections.IDENT "index";
               Selections.EQ; Selections.IDENT "O"; Selections.IDENT "name"])
    as [H | [H | (e0 & tokens & Hd & [(Hk & _) | (Hk & He)])]].
  - vm_compute. reflexivity.
  - discriminate H.
  - discriminate H.
  - exists e0, tokens. split; assumption.
  - subst e0. exfalso. apply Hk. reflexivity.
Defined.

(** X15, on a sample: [not name == O] with the dispatcher of the model. *)
Lemma boolean_parsers_keep_what_they_consumed_sample :
  exists taken, Examples.not_name = taken ++ [] /\ taken <> [].
Proof.
  exact (boolean_parsers_keep_what_they_consumed (Selections.dispatch_parsing 1)
           (dispatch_parsing_only_consumes 1)
           (Selections.parse_NotExpr (Selections.dispatch_parsing 1))
           ltac:(cbn; auto)
           Examples.not_name
           (Returned (Selections.NotExpr (Selections.NameExpr "O" true))) []
           ltac:(vm_compute; reflexivity)).
Defined.

(** X16, on a sample: a box line of two fields leaves the orthorhombic
    cell of the frame; a fourth field of 0.5 aborts a build with
    assertions and is ignored by a build without. *)
Lemma box_line_edges_sample :
  cell_ (snd (snd (@read Reference.debug
                     (Samples.opened Examples.two_field_box [0%Z], Samples.exact_frame))))
  = cell_ Samples.exact_frame
  /\ (exists w g',
         @read_box Reference.debug (Samples.opened Examples.skewed_box [], Frame_new)
         = (Aborted w, (g', Frame_new)))
  /\ (exists g',
         @read_box Reference.release (Samples.opened Examples.skewed_box [], Frame_new)
         = (Returned tt,
            (g', Frame_set_cell
                   (UnitCell_triclinic
                      (mkMatrix3D (1 * 10) (0.5 * 10) (0.25 * 10)
                                  0        (2 * 10)   (0.75 * 10)
                                  0        0          (3 * 10))) Frame_new))).
Proof.
  split; [| split].
  - destruct (proj1 (@box_line_edges Reference.debug)
                (Samples.opened Examples.two_field_box [0%Z]) Samples.exact_frame
                (fst (snd (@read Reference.debug
                             (Samples.opened Examples.two_field_box [0%Z], Samples.exact_frame))))
                (snd (snd (@read Reference.debug
                             (Samples.opened Examples.two_field_box [0%Z], Samples.exact_frame))))
                ltac:(vm_compute; reflexivity))
      as (header & n & box & Hh & Hn & Hb & Hcell).
    vm_compute in Hh. inversion Hh; subst header; clear Hh.
    vm_compute in Hn. inversion Hn; subst n; clear Hn.
    vm_compute in Hb. inversion Hb; subst box; clear Hb.
    apply Hcell; vm_compute; discriminate.
  - destruct (proj2 (@box_line_edges Reference.debug)
                (Samples.opened Examples.skewed_box []) Frame_new
                "   1.00000   2.00000   3.00000 0.5 0.0   0.50000 0.0   0.25000   0.75000"
                "1.00000" "2.00000" "3.00000" "0.5" "0.0" "0.50000" "0.0" "0.25000" "0.75000"
                1%float 2%float 3%float
                eq_refl eq_refl
                ltac:(vm_compute; reflexivity) ltac:(vm_compute; reflexivity)
                ltac:(vm_compute; reflexivity) ltac:(vm_compute; reflexivity))
      as (_ & Hdebug).
    destruct (Hdebug eq_refl) as (_ & Habort).
    exact (Habort 0.5%float ltac:(vm_compute; reflexivity) ltac:(vm_compute; reflexivity)).
  - destruct (proj2 (@box_line_edges Reference.release)
                (Samples.opened Examples.skewed_box []) Frame_new
                "   1.00000   2.00000   3.00000 0.5 0.0   0.50000 0.0   0.25000   0.75000"
                "1.00000" "2.00000" "3.00000" "0.5" "0.0" "0.50000" "0.0" "0.25000" "0.75000"
                1%float 2%float 3%float
                eq_refl eq_refl
                ltac:(vm_compute; reflexivity) ltac:(vm_compute; reflexivity)
                ltac:(vm_compute; reflexivity) ltac:(vm_compute; reflexivity))
      as (Hrelease & _).
    exact (Hrelease eq_refl 0.5%float 0.25%float 0.75%float
             ltac:(vm_compute; reflexivity) ltac:(vm_compute; reflexivity)
             ltac:(vm_compute; reflexivity)).
Defined.
